(** * Verification of the Theano [core.py] operator kernel

    A shallow embedding of the code-generation, aliasing, inference,
    dispatch and gradient-accumulation routines of [core.py], followed by
    the statements proved about them. *)

From stdpp Require Import base option list gmap strings fin_maps.
From Stdlib Require Import ZArith Ascii.

Local Open Scope string_scope.
Local Open Scope list_scope.
Local Open Scope stdpp_scope.
Local Open Scope nat_scope.

(** ** Python runtime: exceptions and fallible computations *)

(** The exception classes [core.py] raises or lets escape. *)
Inductive exn : Type :=
| TypeError (msg : string)
| ValueError (msg : string)
| Exception (msg : string)
| IndexError
| AttributeError
| AssertionError
| NotImplementedError.

(** The class of an exception, without its message. *)
Inductive exn_class : Type :=
| CTypeError | CValueError | CException | CIndexError
| CAttributeError | CAssertionError | CNotImplementedError.

Definition class_of (e : exn) : exn_class :=
  match e with
  | TypeError _ => CTypeError
  | ValueError _ => CValueError
  | Exception _ => CException
  | IndexError => CIndexError
  | AttributeError => CAttributeError
  | AssertionError => CAssertionError
  | NotImplementedError => CNotImplementedError
  end.

(** A call either returns a value or raises. *)
Inductive result (A : Type) : Type :=
| Ok (a : A)
| Raise (e : exn).
Arguments Ok {A} a.
Arguments Raise {A} e.

#[global] Instance result_ret : MRet result := λ A a, Ok a.
#[global] Instance result_bind : MBind result := λ A B f m,
  match m with
  | Ok a => f a
  | Raise e => Raise e
  end.

(** [assert c] *)
Definition py_assert (c : bool) : result unit :=
  if c then Ok tt else Raise AssertionError.

(** Identity of a graph [Result] object. *)
Abbreviation rid := positive.

(** [l.index(x)]: position of the first element equal to [x]. *)
Fixpoint index_of `{EqDecision A} (x : A) (l : list A) : option nat :=
  match l with
  | [] => None
  | y :: l' => if decide (x = y) then Some 0 else S <$> index_of x l'
  end.

Definition list_index `{EqDecision A} (x : A) (l : list A) : result nat :=
  match index_of x l with
  | Some i => Ok i
  | None => Raise (ValueError "list.index(x): x not in list")
  end.

(** [l[i]] *)
Definition list_getitem {A} (l : list A) (i : nat) : result A :=
  match l !! i with
  | Some a => Ok a
  | None => Raise IndexError
  end.

(** The newline character and [str.join] on the empty separator. *)
Definition nl : string := String "010"%char EmptyString.

Definition join (l : list string) : string := foldr String.append "" l.

(** ** Elementwise loop synthesis *)

(** A template with the single placeholder [%(loop_var)s] is the function
    of the name substituted for it. *)
Definition template := string → string.

Definition general_init : template := λ loop_var,
  "PyArrayIterObject* " +:+ loop_var +:+
  "_iter = (PyArrayIterObject*)PyArray_IterNew((PyObject*)" +:+ loop_var +:+ ");" +:+ nl.
Definition general_next : template := λ loop_var,
  "PyArray_ITER_NEXT(" +:+ loop_var +:+ "_iter);" +:+ nl.
Definition general_acquire : template := λ loop_var,
  "*((" +:+ loop_var +:+ "_dtype*)" +:+ loop_var +:+ "_iter->dataptr)".
Definition general_cleanup : template := λ loop_var,
  "if (" +:+ loop_var +:+ "_iter) Py_DECREF(" +:+ loop_var +:+ "_iter);" +:+ nl.

Definition contiguous_init : template := λ loop_var,
  loop_var +:+ "_dtype* __restrict__ " +:+ loop_var +:+ "_iter = (" +:+ loop_var +:+
  "_dtype*)PyArray_DATA(" +:+ loop_var +:+ ");" +:+ nl.
Definition contiguous_next : template := λ loop_var, loop_var +:+ "_iter++;" +:+ nl.
Definition contiguous_acquire : template := λ loop_var, "*" +:+ loop_var +:+ "_iter".
Definition contiguous_cleanup : template := λ _, "".

(** The per-variable lines of the loop body. *)
Definition idef_line (acquire_template : template) (loop_var : string) : string :=
  loop_var +:+ "_dtype " +:+ loop_var +:+ "_i = " +:+ acquire_template loop_var +:+ ";" +:+ nl.
Definition odef_line (acquire_template : template) (loop_var : string) : string :=
  loop_var +:+ "_dtype& " +:+ loop_var +:+ "_i = " +:+ acquire_template loop_var +:+ ";" +:+ nl.
Definition aliasdef_line (a : string * string) : string :=
  a.1 +:+ "_dtype " +:+ a.1 +:+ "_i = " +:+ a.2 +:+ "_i;" +:+ nl.

Definition elemwise_loopcode (loopcode : string)
    (init_template next_template acquire_template cleanup_template : template)
    (loop_vars writable_loop_vars : list string) (aliases : gmap string string) : string :=
  let all_loop_vars := loop_vars ++ writable_loop_vars in
  let init := join (init_template <$> all_loop_vars) in
  let next := join (next_template <$> all_loop_vars) in
  let cleanup := join (cleanup_template <$> all_loop_vars) in
  let idefs := join (idef_line acquire_template <$> loop_vars) in
  let odefs := join (odef_line acquire_template <$> writable_loop_vars) in
  let aliasdefs := join (aliasdef_line <$> map_to_list aliases) in
  nl +:+ "    " +:+ init +:+ nl +:+
  "    while (__elemwise_size--) {" +:+ nl +:+
  "        " +:+ idefs +:+ nl +:+
  "        " +:+ odefs +:+ nl +:+
  "        " +:+ aliasdefs +:+ nl +:+
  "        " +:+ loopcode +:+ nl +:+
  "        " +:+ next +:+ nl +:+
  "    }" +:+ nl +:+
  "    " +:+ cleanup +:+ nl +:+
  "    ".

(** One pair of and-assignments of the runtime layout check. *)
Definition contiguity_check_line (loop_var : string) : string :=
  "all_c_contiguous &= PyArray_ISCARRAY(" +:+ loop_var +:+ ");" +:+ nl +:+
  "all_f_contiguous &= PyArray_ISFARRAY(" +:+ loop_var +:+ ");" +:+ nl.

(** The text between the layout check and the end of the kernel. *)
Definition dual_loop (contiguous_loop general_loop afterloop : string) : string :=
  "if (all_c_contiguous || all_f_contiguous) {" +:+ nl +:+
  "        " +:+ contiguous_loop +:+ nl +:+
  "    }" +:+ nl +:+
  "    else {" +:+ nl +:+
  "        " +:+ general_loop +:+ nl +:+
  "    }" +:+ nl +:+
  "    " +:+ afterloop +:+ nl +:+
  "    ".

Definition elemwise_wrap (beforeloop inloop afterloop : string)
    (loop_vars writable_loop_vars : list string) (aliases : gmap string string)
    : result string :=
  let all_loop_vars := loop_vars ++ writable_loop_vars in
  v1 ← list_getitem (loop_vars ++ writable_loop_vars) 0;
  let general_loop :=
    elemwise_loopcode inloop general_init general_next general_acquire general_cleanup
      loop_vars writable_loop_vars aliases in
  let contiguous_loop :=
    elemwise_loopcode inloop contiguous_init contiguous_next contiguous_acquire
      contiguous_cleanup loop_vars writable_loop_vars aliases in
  let contiguity_check := join (contiguity_check_line <$> all_loop_vars) in
  Ok (nl +:+ "    npy_intp __elemwise_size = PyArray_SIZE(" +:+ v1 +:+ ");" +:+ nl +:+
      "    " +:+ beforeloop +:+ nl +:+
      "    bool all_c_contiguous = 1;" +:+ nl +:+
      "    bool all_f_contiguous = 1;" +:+ nl +:+
      "    " +:+ contiguity_check +:+ nl +:+
      "    " +:+ dual_loop contiguous_loop general_loop afterloop).

(** ** Native struct generation and the compiled-module key *)

(** What [scipy.weave] reports for one bound variable. *)
Record c_spec := {
  spec_name : string;
  struct_members_code : string;
  struct_support_code : string;
  struct_typedefs : string;
  struct_import_code : string;
  use_ref_count : bool;
}.

(** The collaborators outside [core.py]: the values bound to kernel
    variables, the [type_spec] converters, [weave]'s type assignment and
    the [md5] digest. *)
Class Toolchain := {
  Data : Type;
  converter : Type;
  type_spec_default : list converter;
  is_omega_type_converter_extension : converter → bool;
  assign_variable_types : list string → gmap string Data → list converter → list c_spec;
  md5_hexdigest : string → string;
}.

(** What [cgen] returns: [(d, names, code, struct + static, converters)]. *)
Record cgen_result `{Toolchain} := {
  cg_d : gmap string Data;
  cg_names : list string;
  cg_code : string;
  cg_struct : string;
  cg_converters : list converter;
}.

(** A dict filled by [d[name] = value] over the pairs in order. *)
Definition dict_of_pairs `{Countable K} {V} (l : list (K * V)) : gmap K V :=
  foldl (λ d p, <[p.1 := p.2]> d) ∅ l.

Definition struct_contents_template
    (typedefs members support incref decref code : string) : string :=
  nl +:+ "      " +:+ typedefs +:+ nl +:+ nl +:+
  "      " +:+ members +:+ nl +:+ nl +:+
  "      " +:+ support +:+ nl +:+ nl +:+
  "      void init(void) {" +:+ nl +:+
  "        " +:+ incref +:+ nl +:+
  "      }" +:+ nl +:+ nl +:+
  "      void cleanup(void) {" +:+ nl +:+
  "        " +:+ decref +:+ nl +:+
  "      }" +:+ nl +:+ nl +:+
  "      int execute(void) {" +:+ nl +:+
  "        " +:+ code +:+ nl +:+
  "        return 0;" +:+ nl +:+
  "      }" +:+ nl +:+
  "    ".

Definition static_template (struct_name : string) : string :=
  nl +:+ "    int " +:+ struct_name +:+ "_executor(" +:+ struct_name +:+ "* self) {" +:+ nl +:+
  "        return self->execute();" +:+ nl +:+
  "    }" +:+ nl +:+ nl +:+
  "    void " +:+ struct_name +:+ "_destructor(void* executor, void* self) {" +:+ nl +:+
  "        ((" +:+ struct_name +:+ "*)self)->cleanup();" +:+ nl +:+
  "        free(self);" +:+ nl +:+
  "    }" +:+ nl +:+
  "    ".

(** The instantiation stub, from the struct name and the import code. *)
Definition instantiate_code (struct_name imports : string) : string :=
  (struct_name +:+ "* __STRUCT_P = new " +:+ struct_name +:+ "();" +:+ nl) +:+
  imports +:+
  ("__STRUCT_P->init();" +:+ nl) +:+
  ("return_val = PyCObject_FromVoidPtrAndDesc((void*)(&" +:+ struct_name +:+
   "_executor), __STRUCT_P, " +:+ struct_name +:+ "_destructor);" +:+ nl).

Section cgen.
Context `{Toolchain}.

(** The state of the Result objects the kernel is bound to, [value.data],
    as [self.refresh()] leaves it. *)
Variable data_of : rid → Data.

Definition cgetspecs (names : list string) (vals : list rid)
    (converters : list converter) : gmap string Data * list c_spec :=
  let d := dict_of_pairs (zip names (data_of <$> vals)) in
  (d, assign_variable_types names d converters).

Definition struct_contents_of (specs : list c_spec) (behavior : string) : string :=
  let members := join (struct_members_code <$> specs) in
  let support := join (struct_support_code <$> specs) in
  let typedefs := join (struct_typedefs <$> specs) in
  let counted := filter (λ spec, use_ref_count spec = true) specs in
  let incref :=
    join ((λ spec, "Py_INCREF(py_" +:+ spec_name spec +:+ ");" +:+ nl) <$> counted) in
  let decref :=
    join ((λ spec, "Py_DECREF(py_" +:+ spec_name spec +:+ ");" +:+ nl) <$> counted) in
  struct_contents_template typedefs members support incref decref behavior.

Definition struct_name_of (name struct_contents : string) : string :=
  "_omega_" +:+ name +:+ "_" +:+ md5_hexdigest struct_contents.

Definition cgen (name behavior : string) (names : list string) (vals : list rid)
    (converters : option (list converter)) : result cgen_result :=
  let converters :=
    match converters with
    | Some (c :: cs) => c :: cs
    | _ => type_spec_default
    end in
  _ ← py_assert (forallb is_omega_type_converter_extension converters);
  let '(d, specs) := cgetspecs names vals converters in
  let struct_contents := struct_contents_of specs behavior in
  let struct_name := struct_name_of name struct_contents in
  let struct := "struct " +:+ struct_name +:+ " { " +:+ struct_contents +:+ nl +:+ "};" in
  let static := static_template struct_name in
  let code := instantiate_code struct_name (join (struct_import_code <$> specs)) in
  Ok {| cg_d := d; cg_names := names; cg_code := code;
        cg_struct := struct +:+ static; cg_converters := converters |}.
End cgen.

(** ** Operators *)

(** The part of an [omega_op] instance that code generation reads. *)
Record omega_op := {
  op_name : string;                       (* [self.__class__.__name__] *)
  inputs : list rid;
  outputs : list rid;
  c_impl : result string;                 (* [self.c_impl(self.inputs, self.outputs)] *)
  c_impl_argspec : list string * list string;
  c_headers : list string;
  c_libs : list string;
  c_support_code : string;
}.

(** The methods an [elemwise] class adds. *)
Record elemwise := {
  base :> omega_op;
  c_init : result string;
  c_foreach : result string;
  c_finalize : result string;
  variable_names : result (list string * list string);
  loop_variables : result (list string * list string);
  is_inplace : bool;                      (* [isinstance(self, inplace)] *)
  destroy_map : result (gmap rid (list rid));   (* [self.destroy_map()] *)
}.

(** [name.endswith("_i")] and [name[:-2]]. *)
Definition is_loop_var (name : string) : bool :=
  let n := String.length name in
  (2 <=? n)%nat && String.eqb (String.substring (n - 2) 2 name) "_i".

Definition extract_name (name : string) : string :=
  if is_loop_var name then String.substring 0 (String.length name - 2) name else name.

(** [elemwise.variable_names] and [elemwise.loop_variables], from the
    argument names of [c_foreach] and of [c_init] and [c_finalize] when the
    class overrides them. *)
Definition argspec_eqb (a b : list string * list string) : bool :=
  bool_decide (a = b).

Definition elemwise_variable_names (foreach_args : list string * list string)
    (init_args finalize_args : option (list string * list string))
    : result (list string * list string) :=
  let spec := (extract_name <$> foreach_args.1, extract_name <$> foreach_args.2) in
  _ ← match init_args with
      | Some a => py_assert (argspec_eqb spec a)
      | None => Ok tt
      end;
  _ ← match finalize_args with
      | Some a => py_assert (argspec_eqb spec a)
      | None => Ok tt
      end;
  Ok spec.

Definition elemwise_loop_variables (foreach_args : list string * list string)
    : list string * list string :=
  (extract_name <$> filter (λ n, is_loop_var n = true) foreach_args.1,
   extract_name <$> filter (λ n, is_loop_var n = true) foreach_args.2).

(** The alias table of [elemwise.c_code]:
    [aliases[inames[self.inputs.index(input)]] = oname]. *)
Definition alias_input (inames : list string) (ins : list rid) (oname : string)
    (acc : result (gmap string string)) (input : rid) : result (gmap string string) :=
  aliases ← acc;
  k ← list_index input ins;
  iname ← list_getitem inames k;
  Ok (<[iname := oname]> aliases).

Definition alias_output (dmap : gmap rid (list rid)) (inames lonames : list string)
    (ins : list rid) (acc : result (gmap string string)) (o : string * rid)
    : result (gmap string string) :=
  aliases ← acc;
  if bool_decide (o.1 ∈ lonames)
  then foldl (alias_input inames ins o.1) (Ok aliases) (default [] (dmap !! o.2))
  else Ok aliases.

Definition c_code_aliases (op : elemwise) (inames onames lonames : list string)
    : result (gmap string string) :=
  if is_inplace op
  then dmap ← destroy_map op;
       foldl (alias_output dmap inames lonames (inputs op)) (Ok ∅)
         (zip onames (outputs op))
  else Ok ∅.

(** [n] names the first position of the input [inp]. *)
Definition names_input (inames : list string) (ins : list rid) (inp : rid) (n : string)
    : Prop :=
  ∃ k, index_of inp ins = Some k ∧ inames !! k = Some n.

(** [o] is the name of a loop output, among the pairs [l] of output names
    and outputs, that destroys [inp]. *)
Definition destroys (dmap : gmap rid (list rid)) (lonames : list string)
    (l : list (string * rid)) (o : string) (inp : rid) : Prop :=
  ∃ out ins', (o, out) ∈ l ∧ o ∈ lonames ∧ dmap !! out = Some ins' ∧ inp ∈ ins'.

(** The loop variables that keep an iterator of their own. *)
Definition independent_loop_vars (linames : list string) (aliases : gmap string string)
    : list string :=
  filter (λ name, aliases !! name = None) linames.

Section c_code.
Context `{Toolchain}.
Variable data_of : rid → Data.

(** [omega_op.c_code] *)
Definition omega_op_c_code (op : omega_op) (converters : option (list converter))
    : result cgen_result :=
  let '(inames, onames) := c_impl_argspec op in
  behavior ← c_impl op;
  cgen data_of (op_name op) behavior (inames ++ onames) (inputs op ++ outputs op)
    converters.

(** The kernel body [elemwise.c_code] hands to [cgen]. *)
Definition elemwise_behavior (op : elemwise) : result string :=
  match c_impl op with
  | Ok _ =>
      Raise (Exception
        "c_impl is not used by elemwise ops - define behavior in c_foreach instead")
  | Raise NotImplementedError =>
      before ← c_init op;
      during ← c_foreach op;
      after ← c_finalize op;
      names ← variable_names op;
      lnames ← loop_variables op;
      aliases ← c_code_aliases op names.1 names.2 lnames.2;
      elemwise_wrap before during after
        (independent_loop_vars lnames.1 aliases) lnames.2 aliases
  | Raise e => Raise e
  end.

(** [elemwise.c_code] *)
Definition elemwise_c_code (op : elemwise) (converters : option (list converter))
    : result cgen_result :=
  behavior ← elemwise_behavior op;
  names ← variable_names op;
  cgen data_of (op_name op) behavior (names.1 ++ names.2) (inputs op ++ outputs op)
    converters.

(** What [c_thunk_factory] submits to [weave]: the module name, the
    [instantiate] function and its customisation. *)
Record ext_module := {
  module_name : string;
  function_code : string;
  function_args : list string;
  local_dict : gmap string Data;
  support_code : string;
  extra_compile_args : list string;
  headers : list string;
  libraries : list string;
}.

Definition c_thunk_factory (op : omega_op) (c_code : result cgen_result)
    : result ext_module :=
  g ← c_code;
  Ok {| module_name := md5_hexdigest (cg_code g);
        function_code := cg_code g;
        function_args := cg_names g;
        local_dict := cg_d g;
        support_code := c_support_code op +:+ cg_struct g;
        extra_compile_args := ["-O3"; "-ffast-math"; "-falign-loops=4"];
        headers := c_headers op;
        libraries := c_libs op |}.

(** All the source text compiled for one operator. *)
Definition generated_unit (m : ext_module) : string * string :=
  (function_code m, support_code m).

(** [c_thunk_factory] on a plain operator and on an elementwise one: each
    calls its own [c_code] with the default converters. *)
Definition omega_op_c_thunk_factory (op : omega_op) : result ext_module :=
  c_thunk_factory op (omega_op_c_code op None).

Definition elemwise_c_thunk_factory (op : elemwise) : result ext_module :=
  c_thunk_factory op (elemwise_c_code op None).
End c_code.

(** ** The generated layout check, as statements *)

(** The two and-assignments the kernel makes per loop variable, with the
    text [elemwise_wrap] prints for each and its effect on the flags
    [(all_c_contiguous, all_f_contiguous)]. *)
Inductive check_stmt : Type :=
| AndISCARRAY (loop_var : string)
| AndISFARRAY (loop_var : string).

Definition print_check_stmt (s : check_stmt) : string :=
  match s with
  | AndISCARRAY v => "all_c_contiguous &= PyArray_ISCARRAY(" +:+ v +:+ ");" +:+ nl
  | AndISFARRAY v => "all_f_contiguous &= PyArray_ISFARRAY(" +:+ v +:+ ");" +:+ nl
  end.

Definition contiguity_check_stmts (all_loop_vars : list string) : list check_stmt :=
  all_loop_vars ≫= λ v, [AndISCARRAY v; AndISFARRAY v].

Section layout.
(** [PyArray_ISCARRAY] and [PyArray_ISFARRAY] on the array bound to a name. *)
Variables PyArray_ISCARRAY PyArray_ISFARRAY : string → bool.

Definition exec_check_stmt (flags : bool * bool) (s : check_stmt) : bool * bool :=
  match s with
  | AndISCARRAY v => (flags.1 && PyArray_ISCARRAY v, flags.2)
  | AndISFARRAY v => (flags.1, flags.2 && PyArray_ISFARRAY v)
  end.

(** [if (all_c_contiguous || all_f_contiguous)] after the checks have run
    from both flags set to 1. *)
Definition takes_contiguous_loop (stmts : list check_stmt) : bool :=
  let flags := foldl exec_check_stmt (true, true) stmts in
  flags.1 || flags.2.
End layout.

(** The text before the layout check. *)
Definition kernel_prologue (v1 beforeloop : string) : string :=
  nl +:+ "    npy_intp __elemwise_size = PyArray_SIZE(" +:+ v1 +:+ ");" +:+ nl +:+
  "    " +:+ beforeloop +:+ nl +:+
  "    bool all_c_contiguous = 1;" +:+ nl +:+
  "    bool all_f_contiguous = 1;" +:+ nl +:+
  "    ".

(** The Result a kernel variable is bound to: [cgen] pairs the names
    [inames + onames] with [self.inputs + self.outputs]. *)
Definition bound_result (names : list string) (vals : list rid) (name : string)
    : option rid :=
  dict_of_pairs (zip names vals) !! name.

(** The names [n] for which the loop body declares [n_i]: one line per read
    loop variable, per writable loop variable and per alias. *)
Definition loop_body_bindings (loop_vars writable_loop_vars : list string)
    (aliases : gmap string string) : list string :=
  loop_vars ++ writable_loop_vars ++ (map_to_list aliases).*1.

(** ** Stateful computations *)

(** A call runs on the interpreter state; what it changed before raising
    stays changed. *)
Definition M (S A : Type) : Type := S → result A * S.

#[global] Instance M_ret {S} : MRet (M S) := λ A a s, (Ok a, s).
#[global] Instance M_bind {S} : MBind (M S) := λ A B f m s,
  match m s with
  | (Ok a, s') => f a s'
  | (Raise e, s') => (Raise e, s')
  end.

Definition raise {S A} (e : exn) : M S A := λ s, (Raise e, s).
Definition lift {S A} (r : result A) : M S A := λ s, (r, s).
Definition gets {S A} (f : S → A) : M S A := λ s, (Ok (f s), s).
Definition modify {S} (f : S → S) : M S unit := λ s, (Ok tt, f s).

(** [for b in l: body(b)] *)
Fixpoint for_each {S B} (body : B → M S unit) (l : list B) : M S unit :=
  match l with
  | [] => mret tt
  | b :: l' => _ ← body b; for_each body l'
  end.

(** ** Python values and numpy arrays *)

(** Identity of a [numpy.ndarray] object. *)
Abbreviation loc := positive.

(** An [int] or a [float] (by its bit pattern). *)
Inductive pynumber : Type :=
| PyInt (z : Z)
| PyFloat (bits : Z).

(** A value of a class [core.py] does not single out, by what the code can
    observe of it: its identity and its [shape] attribute, if it has one. *)
Record pyobject := {
  obj_id : positive;
  obj_shape : option (list nat);
}.

(** The values handed to [input], [wrap] and stored in [Result.data], by the
    [isinstance] tests the code makes. *)
Inductive pyvalue : Type :=
| UNCOMPUTED                              (* the sentinel [gof.UNCOMPUTED] *)
| VNdarray (a : loc)                      (* an instance of [numpy.ndarray] *)
| VNumber (n : pynumber)                  (* an instance of [int] or [float] *)
| VResult (r : rid)                       (* an instance of [gof.Result] *)
| VOp (out : result rid)                  (* an [omega_op], with its [out] *)
| VObject (o : pyobject).                 (* anything else *)

#[global] Instance pynumber_eq_dec : EqDecision pynumber.
Proof. solve_decision. Defined.
#[global] Instance pyobject_eq_dec : EqDecision pyobject.
Proof. solve_decision. Defined.
#[global] Instance exn_eq_dec : EqDecision exn.
Proof. solve_decision. Defined.
#[global] Instance result_eq_dec `{EqDecision A} : EqDecision (result A).
Proof. solve_decision. Defined.
#[global] Instance pyvalue_eq_dec : EqDecision pyvalue.
Proof. solve_decision. Defined.

(** An array object: whether its class is exactly [numpy.ndarray] (and not
    a subclass), its dtype, shape and elements in iteration order. *)
Record ndarray {D V : Type} := {
  nd_exact : bool;
  nd_dtype : D;
  nd_shape : list nat;
  nd_elems : list V;
}.
Arguments ndarray : clear implicits.

(** [numpy] and the Python object protocol, as far as [core.py] relies on
    them. *)
Class Numpy := {
  dtype : Type;
  scalar : Type;
  dtype_eq_dec :: EqDecision dtype;
  (** ['float64'], the [default_input_scalar_dtype] *)
  float64 : dtype;
  (** the element of [numpy.zeros(shape, dtype)] *)
  np_zero : dtype → scalar;
  (** [a + b], a new array *)
  np_add : ndarray dtype scalar → ndarray dtype scalar → result (ndarray dtype scalar);
  (** the contents of [z] after [z += x] for a number [x] *)
  np_iadd_number : ndarray dtype scalar → pynumber → result (ndarray dtype scalar);
  (** the contents of [a] after [a[:] = b] *)
  np_setslice : ndarray dtype scalar → ndarray dtype scalar → result (ndarray dtype scalar);
  (** the array [numpy.asarray] builds from a value that is not an array *)
  np_array : pyvalue → result (ndarray dtype scalar);
  (** the dictionary key of a hashable value; [None] when [hash] raises *)
  py_key : pyvalue → option positive;
  (** [id(x)] *)
  py_id : pyvalue → positive;
  (** ["%s" % x] *)
  py_str : pyvalue → string;
  (** whether [a[:] = v] raises, for [a] that is not an array; the contents
      of such objects are not part of the state *)
  py_setslice : pyvalue → pyvalue → result unit;
}.

Abbreviation array := (ndarray dtype scalar).

Section objects.
Context `{Numpy}.

(** [numpy.zeros(shape, dtype)] and [numpy.ndarray(shape, dtype)] hold
    one element per index. *)
Definition np_size (shape : list nat) : nat := foldr Nat.mul 1 shape.

Definition np_zeros (shape : list nat) (d : dtype) : array :=
  {| nd_exact := true; nd_dtype := d; nd_shape := shape;
     nd_elems := replicate (np_size shape) (np_zero d) |}.

(** The container kind of a specification. *)
Inductive kind : Type :=
| numpy_ndarray
| other_kind (k : positive).

(** A specification [(kind, dtype, shape)]; the shape may be [None]. *)
Definition Spec : Type := kind * dtype * option (list nat).

(** The class of a Result object. *)
Inductive result_class : Type :=
| NumpyR                                 (* [NumpyR], a [gof.PythonR] *)
| PythonR                                (* [gof.PythonR] itself *)
| ForeignResult.                         (* another [gof.Result] *)

#[global] Instance result_class_eq_dec : EqDecision result_class.
Proof. solve_decision. Defined.

Record Result := {
  r_class : result_class;
  data : pyvalue;
  spec : option Spec;
  constant : bool;
  up_to_date : bool;
}.

#[global] Instance Result_inhabited : Inhabited Result :=
  populate {| r_class := ForeignResult; data := UNCOMPUTED; spec := None;
              constant := false; up_to_date := false |}.

#[global] Instance array_inhabited : Inhabited array :=
  populate (np_zeros [] float64).

(** The interpreter state: the Result objects, the array objects, and the
    two module-level literal tables. *)
Record state := {
  results : gmap rid Result;
  arrays : gmap loc array;
  literals_db : gmap positive rid;
  literals_id_db : gmap positive rid;
}.

Definition get_result (r : rid) : M state Result := gets (λ s, results s !!! r).
Definition get_array (a : loc) : M state array := gets (λ s, arrays s !!! a).

Definition update_result (r : rid) (f : Result → Result) : M state unit :=
  modify (λ s, {| results := <[r := f (results s !!! r)]> (results s);
                  arrays := arrays s;
                  literals_db := literals_db s;
                  literals_id_db := literals_id_db s |}).

Definition set_array (a : loc) (c : array) : M state unit :=
  modify (λ s, {| results := results s;
                  arrays := <[a := c]> (arrays s);
                  literals_db := literals_db s;
                  literals_id_db := literals_id_db s |}).

(** A new array object. *)
Definition new_array (c : array) : M state loc := λ s,
  let a := fresh (dom (arrays s)) in
  (Ok a, {| results := results s;
            arrays := <[a := c]> (arrays s);
            literals_db := literals_db s;
            literals_id_db := literals_id_db s |}).

(** A new Result object. *)
Definition new_result (o : Result) : M state rid := λ s,
  let r := fresh (dom (results s)) in
  (Ok r, {| results := <[r := o]> (results s);
            arrays := arrays s;
            literals_db := literals_db s;
            literals_id_db := literals_id_db s |}).

Definition set_data (v : pyvalue) (o : Result) : Result :=
  {| r_class := r_class o; data := v; spec := spec o;
     constant := constant o; up_to_date := up_to_date o |}.
Definition set_spec (sp : option Spec) (o : Result) : Result :=
  {| r_class := r_class o; data := data o; spec := sp;
     constant := constant o; up_to_date := up_to_date o |}.
Definition set_constant (c : bool) (o : Result) : Result :=
  {| r_class := r_class o; data := data o; spec := spec o;
     constant := c; up_to_date := up_to_date o |}.
Definition set_up_to_date (u : bool) (o : Result) : Result :=
  {| r_class := r_class o; data := data o; spec := spec o;
     constant := constant o; up_to_date := u |}.

(** [numpy.asarray(value)]: an array whose class is exactly [ndarray] is
    returned as it is; any other value gives a new array object. *)
Definition np_asarray (value : pyvalue) : M state loc :=
  match value with
  | VNdarray a =>
      c ← get_array a;
      if nd_exact c then mret a
      else new_array {| nd_exact := true; nd_dtype := nd_dtype c;
                        nd_shape := nd_shape c; nd_elems := nd_elems c |}
  | _ => c ← lift (np_array value); new_array c
  end.

(** [NumpyR.refresh] *)
Definition NumpyR_refresh (r : rid) : M state unit :=
  o ← get_result r;
  match data o with
  | UNCOMPUTED => mret tt
  | VNdarray a =>
      c ← get_array a;
      update_result r (set_spec (Some (numpy_ndarray, nd_dtype c, Some (nd_shape c))))
  | _ => raise AttributeError
  end.

(** [NumpyR.set_value] *)
Definition NumpyR_set_value (r : rid) (value : pyvalue) : M state unit :=
  _ ← match value with
      | UNCOMPUTED => update_result r (set_data UNCOMPUTED)
      | _ => a ← np_asarray value; update_result r (set_data (VNdarray a))
      end;
  _ ← NumpyR_refresh r;
  update_result r (set_up_to_date true).


(** The objects of [s] are still there, unchanged, in [s']. *)
Definition state_extends (s s' : state) : Prop :=
  (∀ r, r ∈ dom (results s) → results s' !! r = results s !! r) ∧
  (∀ a, a ∈ dom (arrays s) → arrays s' !! a = arrays s !! a).

(** Modelled from the spec: the constructor of [gof.PythonR], which
    [NumpyR] inherits, is not in [core.py]. A Result node is created
    around a raw value with its constant flag clear; [PythonR(x)] holds
    [x] as it is, [NumpyR(x)] takes it through its own [set_value]. *)
Definition PythonR_new (x : pyvalue) : M state rid :=
  new_result {| r_class := PythonR; data := x; spec := None;
                constant := false; up_to_date := true |}.

Definition NumpyR_new (x : pyvalue) : M state rid :=
  r ← new_result {| r_class := NumpyR; data := UNCOMPUTED; spec := None;
                    constant := false; up_to_date := false |};
  _ ← NumpyR_set_value r x;
  mret r.

(** [input] *)
Definition input (x : pyvalue) : M state rid :=
  match x with
  | VNdarray _ => NumpyR_new x
  | VNumber n =>
      z ← new_array (np_zeros [] float64);
      c ← get_array z;
      c' ← lift (np_iadd_number c n);
      _ ← set_array z c';
      NumpyR_new (VNdarray z)
  | VResult _ => raise (TypeError (py_str x +:+ " is already a result."))
  | _ => PythonR_new x
  end.

(** [_hashable] *)
Definition _hashable (x : pyvalue) : bool := bool_decide (is_Some (py_key x)).

Definition set_literals_db (k : positive) (r : rid) : M state unit :=
  modify (λ s, {| results := results s; arrays := arrays s;
                  literals_db := <[k := r]> (literals_db s);
                  literals_id_db := literals_id_db s |}).

Definition set_literals_id_db (k : positive) (r : rid) : M state unit :=
  modify (λ s, {| results := results s; arrays := arrays s;
                  literals_db := literals_db s;
                  literals_id_db := <[k := r]> (literals_id_db s) |}).

(** [_literal_hashable]: the table is searched and filled under the key
    of [x]. *)
Definition _literal_hashable (x : pyvalue) : M state rid :=
  match py_key x with
  | None => raise (TypeError "unhashable type")
  | Some k =>
      db ← gets literals_db;
      match db !! k with
      | Some r => mret r
      | None =>
          r ← input x;
          _ ← update_result r (set_constant true);
          _ ← set_literals_db k r;
          mret r
      end
  end.

(** [_literal_unhashable] *)
Definition _literal_unhashable (x : pyvalue) : M state rid :=
  let idx := py_id x in
  db ← gets literals_id_db;
  match db !! idx with
  | Some r => mret r
  | None =>
      r ← input x;
      _ ← update_result r (set_constant true);
      _ ← set_literals_id_db idx r;
      mret r
  end.

(** [literal] *)
Definition literal (x : pyvalue) : M state rid :=
  if _hashable x then _literal_hashable x else _literal_unhashable x.

(** [wrap] *)
Definition wrap (x : pyvalue) : M state rid :=
  match x with
  | VResult r =>
      o ← get_result r;
      match r_class o with
      | NumpyR | PythonR => mret r
      | ForeignResult => literal x
      end
  | VOp out => lift out
  | _ => literal x
  end.

(** [v.shape] *)
Definition data_shape (v : pyvalue) : M state (list nat) :=
  match v with
  | VNdarray a => c ← get_array a; mret (nd_shape c)
  | VObject o =>
      match obj_shape o with
      | Some shape => mret shape
      | None => raise AttributeError
      end
  | _ => raise AttributeError
  end.

(** [r.constant and not r.data.shape] *)
Definition constant_without_shape (r : rid) : M state bool :=
  o ← get_result r;
  if constant o
  then shape ← data_shape (data o); mret (bool_decide (shape = []))
  else mret false.

(** [r] is a constant whose data has the empty shape. *)
Definition scalar_constant (s : state) (r : rid) : Prop :=
  constant (results s !!! r) = true ∧
  data_shape (data (results s !!! r)) s = (Ok [], s).

(** [r] is not constant, or its data has a shape that is not empty. *)
Definition tensor_operand (s : state) (r : rid) : Prop :=
  constant (results s !!! r) = false ∨
  ∃ shape, data_shape (data (results s !!! r)) s = (Ok shape, s) ∧ shape ≠ [].

(** The entry of the literal table under [k], if any, is a constant
    whose data has the empty shape. *)
Definition literal_entry_scalar (s : state) (k : positive) : Prop :=
  ∀ r, literals_db s !! k = Some r → r ∈ dom (results s) ∧ scalar_constant s r.

(** [scalar_switch(normal_f, scalar_f, scalar_f_reverse)(x, y)] *)
Definition scalar_switch {A} (normal_f scalar_f : rid → rid → M state A)
    (scalar_f_reverse : option (rid → rid → M state A))
    (x y : pyvalue) : M state A :=
  x ← wrap x;
  y ← wrap y;
  constant_without_shape y ≫= λ y_scalar : bool,
  if y_scalar then scalar_f x y
  else
    constant_without_shape x ≫= λ x_scalar : bool,
    if x_scalar
    then match scalar_f_reverse with
         | Some reverse => reverse y x
         | None => raise (TypeError "You cannot do this operation on a scalar.")
         end
    else normal_f x y.
End objects.

(** ** Specification inference *)

Section inference.
Context `{Numpy}.

(** [upcast]: add zero-dimensional zeros of each dtype, read the dtype of
    the sum. *)
Definition upcast (d : dtype) (dtypes : list dtype) : result dtype :=
  z ← foldl (λ z d', z ← z; np_add z (np_zeros [] d')) (Ok (np_zeros [] d)) dtypes;
  Ok (nd_dtype z).

(** What a [specs] rule returns: one specification, or a list of them. *)
Inductive specs_value : Type :=
| OneSpec (sp : option Spec)
| SpecList (l : list (option Spec)).

(** An elementwise operator instance with its output count and its [specs]
    rule. The rule of an operator that does not define one raises
    [NotImplementedError]. *)
Record elemwise_node := {
  node_op :> elemwise;
  nout : nat;
  specs : list (option Spec) → result specs_value;
}.

Definition not_in_loop_message (class_name oname : string) : string :=
  "cannot infer a specification automatically for variable " +:+
  class_name +:+ "." +:+ oname +:+
  " because it is not part of the elementwise loop - " +:+
  "please override the specs method".

Definition no_shape_message : string :=
  "cannot infer a specification automatically for output variables " +:+
  "because there is no input variable in the loop from which to get the shape, " +:+
  "or their shape is unknown".

(** The first loop of the fallback: every output name is a loop variable. *)
Definition check_outputs_in_loop (class_name : string) (onames lonames : list string)
    : result unit :=
  foldl (λ acc oname,
           _ ← acc;
           if bool_decide (oname ∈ lonames) then Ok tt
           else Raise (Exception (not_in_loop_message class_name oname)))
        (Ok tt) onames.

(** The second loop: [shape = input.spec[2]] for each loop input whose
    spec is set, a later one overriding an earlier one. *)
Definition infer_shape (linames : list string) (named_inputs : list (string * Result))
    : option (list nat) :=
  foldl (λ shape p,
           if bool_decide (p.1 ∈ linames)
           then match spec p.2 with
                | Some sp => sp.2
                | None => shape
                end
           else shape)
        None named_inputs.

(** [[input.spec[1] for iname, input in zip(inames, self.inputs)
      if isinstance(input, NumpyR)]] *)
Definition numpy_input_dtypes (named_inputs : list (string * Result))
    : result (list dtype) :=
  foldr (λ p acc,
           match r_class p.2 with
           | NumpyR =>
               match spec p.2 with
               | Some sp => ds ← acc; Ok (sp.1.2 :: ds)
               | None => Raise (TypeError "'NoneType' object is unsubscriptable")
               end
           | _ => acc
           end)
        (Ok []) named_inputs.

(** The dtype of the fallback: [upcast] of those dtypes, an [IndexError]
    turned into the "not all numpy inputs are specified" exception. *)
Definition infer_dtype (named_inputs : list (string * Result)) : result dtype :=
  let attempt :=
    ds ← numpy_input_dtypes named_inputs;
    match ds with
    | [] => Raise (TypeError "upcast() takes at least 1 argument (0 given)")
    | d :: ds' => upcast d ds'
    end in
  match attempt with
  | Raise IndexError => Raise (Exception "not all numpy inputs are specified")
  | r => r
  end.

(** The last loop: a destroyed output takes the spec of the input it
    destroys, any other output the inferred [(numpy.ndarray, dtype, shape)]. *)
Definition output_spec (s : state) (dmap : gmap rid (list rid)) (d : dtype)
    (shape : list nat) (output : rid) : result (option Spec) :=
  match default [] (dmap !! output) with
  | [] => Ok (Some (numpy_ndarray, d, Some shape))
  | input :: rest =>
      _ ← py_assert (bool_decide (rest = []));
      Ok (spec (results s !!! input))
  end.

Fixpoint output_specs (s : state) (dmap : gmap rid (list rid)) (d : dtype)
    (shape : list nat) (outs : list rid) : result (list (option Spec)) :=
  match outs with
  | [] => Ok []
  | output :: outs' =>
      sp ← output_spec s dmap d shape output;
      res ← output_specs s dmap d shape outs';
      Ok (sp :: res)
  end.

(** The fallback of [elemwise._specs], taken when [specs] raises
    [NotImplementedError]. *)
Definition _specs_fallback (op : elemwise_node) (s : state) : result specs_value :=
  names ← variable_names op;
  lnames ← loop_variables op;
  _ ← check_outputs_in_loop (op_name op) names.2 lnames.2;
  let named_inputs := zip names.1 ((λ r, results s !!! r) <$> inputs op) in
  match infer_shape lnames.1 named_inputs with
  | None => Raise (Exception no_shape_message)
  | Some shape =>
      d ← infer_dtype named_inputs;
      dmap ← (if is_inplace op then destroy_map op else Ok ∅);
      res ← output_specs s dmap d shape (outputs op);
      if decide (nout op = 1)
      then sp ← list_getitem res 0; Ok (OneSpec sp)
      else Ok (SpecList res)
  end.

(** [elemwise._specs] *)
Definition _specs (op : elemwise_node) (s : state) : result specs_value :=
  match specs op ((λ r, spec (results s !!! r)) <$> inputs op) with
  | Raise NotImplementedError => _specs_fallback op s
  | r => r
  end.

End inference.

(** ** Allocation and the derived in-place operators *)

(** [for b in l: a = f(a, b)] *)
Fixpoint foldM {S A B} (f : A → B → M S A) (a : A) (l : list B) : M S A :=
  match l with
  | [] => mret a
  | b :: l' => a' ← f a b; foldM f a' l'
  end.

(** What an interpreted implementation returns: one value, a list or a
    tuple of values. *)
Inductive impl_value : Type :=
| One (v : pyvalue)
| PyList (l : list pyvalue)
| PyTuple (l : list pyvalue).

(** The value an implementation returned for output [o]. *)
Definition impl_item (v : impl_value) (o : nat) : option pyvalue :=
  match v with
  | One x => [x] !! o
  | PyList l | PyTuple l => l !! o
  end.

Section inplace.
Context `{Numpy}.

(** An interpreted implementation, called on the data of the inputs. *)
Definition implementation : Type := list pyvalue → M state impl_value.

(** The methods [core.py] calls on [gof.PythonOp] and on Results that are
    not [NumpyR]; they are not in [core.py]. *)
Variable PythonOp_alloc : omega_op → list rid → M state unit.
Variable PythonR_set_value : rid → pyvalue → M state unit.

(** [output.set_value(value)], by the class of [output]. *)
Definition set_value (r : rid) (value : pyvalue) : M state unit :=
  o ← get_result r;
  match r_class o with
  | NumpyR => NumpyR_set_value r value
  | _ => PythonR_set_value r value
  end.

(** The data [numpy.asarray] hands back as it is: the sentinel (which
    [set_value] stores directly) or an array of class [ndarray]. *)
Definition plain_data (s : state) (v : pyvalue) : Prop :=
  v = UNCOMPUTED ∨ ∃ a, v = VNdarray a ∧ nd_exact (arrays s !!! a) = true.

(** What [elemwise.alloc] relies on once [gof.PythonOp.alloc] has run: each
    destroyed output is a [NumpyR] and destroys exactly one input, which is
    not itself a destroyed output and holds the sentinel or an array of
    class [ndarray]. *)
Definition alloc_ready (s : state) (dmap : gmap rid (list rid)) : Prop :=
  ∀ out ins, dmap !! out = Some ins →
    ∃ input, ins = [input] ∧ r_class (results s !!! out) = NumpyR ∧
      dmap !! input = None ∧ plain_data s (data (results s !!! input)).

(** The body of the loop of [elemwise.alloc] over [dmap.items()]. *)
Definition alloc_output (except_list : list rid) (entry : rid * list rid)
    : M state unit :=
  match entry.2 with
  | [input] =>
      if bool_decide (entry.1 ∈ except_list) then mret tt
      else o ← get_result input; set_value entry.1 (data o)
  | _ => raise (ValueError "unpack")
  end.

(** [elemwise.alloc] *)
Definition elemwise_alloc (op : elemwise) (except_list : list rid) : M state unit :=
  dmap ← lift (if is_inplace op then destroy_map op else Ok ∅);
  _ ← PythonOp_alloc op (except_list ++ (map_to_list dmap).*1);
  for_each (alloc_output except_list) (map_to_list dmap).

(** Modelled from the spec: [gof.PythonOp._impl] is not in [core.py]. The
    interpreted implementation operates directly on the bound buffers: it
    is called on the data of the inputs. *)
Definition PythonOp__impl (impl : implementation) (ins : list rid) : M state impl_value :=
  s ← gets id;
  impl ((λ r, data (results s !!! r)) <$> ins).

(** [a[:] = v] *)
Definition setslice (a v : pyvalue) : M state unit :=
  match a with
  | VNdarray la =>
      ca ← get_array la;
      cv ← match v with
           | VNdarray lv => get_array lv
           | _ => lift (np_array v)
           end;
      c' ← lift (np_setslice ca cv);
      set_array la c'
  | _ => lift (py_setslice a v)
  end.

(** The body of the loop of the derived [_impl] over [dmap.items()], on
    [res] as a pair: whether it is a tuple, and its items. *)
Definition inplace_step (ins : list rid) (res : bool * list pyvalue) (p : nat * nat)
    : M state (bool * list pyvalue) :=
  input ← lift (list_getitem ins p.2);
  o ← get_result input;
  let a := data o in
  v ← lift (list_getitem res.2 p.1);
  _ ← setslice a v;
  if res.1 then raise (TypeError "'tuple' object does not support item assignment")
  else mret (false, <[p.1 := a]> res.2).

(** [isinstance(res, (list, tuple))]: [copy.copy(res)], else [[res]]. *)
Definition as_sequence (res : impl_value) : bool * list pyvalue :=
  match res with
  | PyList l => (false, l)
  | PyTuple l => (true, l)
  | One v => (false, [v])
  end.

(** The [_impl] of the class [inplace_version] derives: the user's own
    implementation when one was set, else the base implementation followed
    by the copy into the aliased inputs. *)
Definition inplace__impl (base_impl : implementation) (own_impl : option implementation)
    (dmap : gmap nat nat) (ins : list rid) : M state impl_value :=
  match own_impl with
  | Some impl => PythonOp__impl impl ins
  | None =>
      res ← PythonOp__impl base_impl ins;
      foldM (inplace_step ins) (as_sequence res) (map_to_list dmap)
        ≫= λ res : bool * list pyvalue,
      match res.2 with
      | [v] => mret (One v)
      | l => mret (if res.1 then PyTuple l else PyList l)
      end
  end.

(** The copy the derived [_impl] makes for the entry [o: i] of [dmap]: from
    the array [b] the base implementation returned for output [o] into the
    array [a] held by input [i], leaving the contents [c] there. *)
Definition copies_into (s : state) (ins : list rid) (items : list pyvalue)
    (o i : nat) (a b : loc) (c : array) : Prop :=
  ∃ r ca cb, ins !! i = Some r ∧ data (results s !!! r) = VNdarray a ∧
    items !! o = Some (VNdarray b) ∧
    arrays s !! a = Some ca ∧ arrays s !! b = Some cb ∧
    np_setslice ca cb = Ok c ∧ nd_elems c = nd_elems cb.

(** The [destroy_map] of the derived class. *)
Definition inplace_destroy_map (cls : elemwise) (dmap : gmap nat nat)
    : result (gmap rid (list rid)) :=
  ret ← (if is_inplace cls then destroy_map cls else Ok ∅);
  foldl (λ ret p,
           ret ← ret;
           output ← list_getitem (outputs cls) p.1;
           input ← list_getitem (inputs cls) p.2;
           Ok (<[output := [input]]> ret))
        (Ok ret) (map_to_list dmap).

(** [inplace_version], on an instance: the instance of the derived class.
    [dmap_repr] is ["%s" % dmap]. *)
Definition inplace_version (cls : elemwise) (dmap : gmap nat nat) (dmap_repr : string)
    : result elemwise :=
  names ← variable_names cls;
  lnames ← loop_variables cls;
  _ ← py_assert (forallb (λ p, match dmap !! p.1 with
                               | Some _ => bool_decide (p.2 ∈ lnames.2)
                               | None => true
                               end)
                   (imap (λ i oname, (i, oname)) names.2));
  let suffix := if decide (dmap = {[ 0 := 0 ]}) then "_inplace"
                else "_inplace" +:+ dmap_repr in
  Ok {| base := {| op_name := op_name cls +:+ suffix;
                   inputs := inputs cls; outputs := outputs cls;
                   c_impl := c_impl cls; c_impl_argspec := c_impl_argspec cls;
                   c_headers := c_headers cls; c_libs := c_libs cls;
                   c_support_code := c_support_code cls |};
        c_init := c_init cls; c_foreach := c_foreach cls; c_finalize := c_finalize cls;
        variable_names := variable_names cls;
        loop_variables := loop_variables cls;
        is_inplace := true;
        destroy_map := inplace_destroy_map cls dmap |}.

End inplace.

(** ** Gradient accumulation *)

(** [[f(x) for x in l]], stopping at the first call that raises. *)
Fixpoint map_result {A B} (f : A → result B) (l : list A) : result (list B) :=
  match l with
  | [] => Ok []
  | a :: l' => b ← f a; bs ← map_result f l'; Ok (b :: bs)
  end.

Section gradient.
(** The accumulator [grad_d] and the gradients it holds belong to the
    gradient module, not to [core.py]: [grad_getitem] is [grad_d[output]]
    and [grad_add] is [grad_d.add(input, inputg)]. *)
Context {GradD G : Type}.
Variable grad_getitem : GradD → rid → result G.
Variable grad_add : rid → G → M GradD unit.

(** What a gradient rule returns, as [update_gradient] tells it apart: an
    instance of [gof.PythonR] (which has no length), a sequence, or any
    other object without a length, such as the [UNDEFINED] sentinel. *)
Inductive grad_return : Type :=
| BareResult (g : G)
| Sequence (gs : list G)
| Unsized.

(** [update_gradient], for an operator with these inputs, outputs and
    gradient rule. *)
Definition update_gradient (ins outs : list rid)
    (grad : list rid → list G → result grad_return) : M GradD unit :=
  gz ← (λ grad_d, (map_result (grad_getitem grad_d) outs, grad_d));
  inputgs ← lift (grad ins gz);
  (match inputgs with
   | BareResult g =>
       if decide (length ins = 1) then mret [g]
       else raise (TypeError "object of type 'PythonR' has no len()")
   | Sequence gs =>
       _ ← lift (py_assert (bool_decide (length gs = length ins)));
       mret gs
   | Unsized => raise (TypeError "len() of unsized object")
   end) ≫= λ inputgs : list G,
  for_each (λ p, grad_add p.1 p.2) (zip ins inputgs).

End gradient.

(** ** Memoised environment lookups *)

(** [_constant(f)]: the attribute [f.rval] holds the value of the first
    call of [f] that returned; the state is that of [f] with the attribute,
    [None] while it is not set. *)
Definition _constant {S Args A} (f : Args → M S A) (args : Args) : M (S * option A) A :=
  λ st,
    match st.2 with
    | Some rval => (Ok rval, st)
    | None =>
        match f args st.1 with
        | (Ok v, s') => (Ok v, (s', Some v))
        | (Raise e, s') => (Raise e, (s', None))
        end
    end.

(** The process environment, read with [os.getenv]. *)
Definition environ : Type := gmap string string.

(** [_blas_headers], before [@_constant]. *)
Definition _blas_headers (_ : unit) : M environ (list string) :=
  envvar ← gets (λ env : environ, env !! "OMEGA_CBLAS_H");
  match envvar with
  | None => mret []
  | Some header => mret [header]
  end.

(** ** Wrappers of interpreted implementations *)

Section impl_wrappers.
Context `{Numpy}.

(** The loop of [assert_same_shapes] over the other arguments. *)
Definition check_same_shape (shape : list nat) (other : pyvalue) : M state unit :=
  oshape ← data_shape other;
  if bool_decide (oshape = shape) then mret tt
  else raise (ValueError "The dimensions of the inputs do not match.").

(** [assert_same_shapes(impl)] *)
Definition assert_same_shapes (impl : implementation) : implementation := λ args,
  match args with
  | [] => raise (TypeError "ret() takes at least 1 argument (0 given)")
  | x :: rest =>
      shape ← data_shape x;
      _ ← for_each (check_same_shape shape) rest;
      impl (x :: rest)
  end.

(** [tensor_scalar_impl(impl)]; [impl_repr] is ["%s" % impl]. *)
Definition tensor_scalar_impl (impl : implementation) (impl_repr : string)
    : implementation := λ args,
  match args with
  | [x; a] =>
      shape ← data_shape a;
      if bool_decide (shape = []) then impl [x; a]
      else raise (ValueError
                    ("The second argument to " +:+ impl_repr +:+ " must be a scalar."))
  | _ => raise (TypeError "ret() takes exactly 2 arguments")
  end.
End impl_wrappers.

(** ** Specification rules of the matrix operators *)

Section matrix_specs.
Context `{Numpy}.

(** [x[1]] and [x[2][i]] for a specification [x]; a spec or a shape that
    is [None] cannot be subscripted. *)
Definition spec_dtype (x : option Spec) : result dtype :=
  match x with
  | Some sp => Ok sp.1.2
  | None => Raise (TypeError "'NoneType' object is unsubscriptable")
  end.

Definition spec_dim (x : option Spec) (i : nat) : result nat :=
  match x with
  | Some sp =>
      match sp.2 with
      | Some shape => list_getitem shape i
      | None => Raise (TypeError "'NoneType' object is unsubscriptable")
      end
  | None => Raise (TypeError "'NoneType' object is unsubscriptable")
  end.

(** [dot.specs] *)
Definition dot_specs (x y : option Spec) : result Spec :=
  x1 ← spec_dim x 1;
  y0 ← spec_dim y 0;
  _ ← py_assert (bool_decide (x1 = y0));
  x0 ← spec_dim x 0;
  y1 ← spec_dim y 1;
  dx ← spec_dtype x;
  dy ← spec_dtype y;
  d ← upcast dx [dy];
  Ok (numpy_ndarray, d, Some [x0; y1]).

(** [transpose.specs] *)
Definition transpose_specs (x : option Spec) : result Spec :=
  d ← spec_dtype x;
  x1 ← spec_dim x 1;
  x0 ← spec_dim x 0;
  Ok (numpy_ndarray, d, Some [x1; x0]).

(** The specifications of the two operators [dot.grad] builds,
    [dot(gz, transpose(y))] and [dot(transpose(x), gz)]. *)
Definition dot_grad_specs (x y gz : option Spec) : result (Spec * Spec) :=
  ty ← transpose_specs y;
  gx ← dot_specs gz (Some ty);
  tx ← transpose_specs x;
  gy ← dot_specs (Some tx) gz;
  Ok (gx, gy).
End matrix_specs.

(** ** Invariants of the object store *)

Section store_invariants.
Context `{Numpy}.

(** The entry [literal] looks up for [x]: under its dictionary key when
    [x] is hashable, under its [id] otherwise. *)
Definition literal_entry (x : pyvalue) (s : state) : option rid :=
  match py_key x with
  | Some k => literals_db s !! k
  | None => literals_id_db s !! py_id x
  end.

(** The state after [r.constant = True] and the registration of [r] for
    [x]. *)
Definition registered (x : pyvalue) (r : rid) (s : state) : state :=
  {| results := <[r := set_constant true (results s !!! r)]> (results s);
     arrays := arrays s;
     literals_db := match py_key x with
                    | Some k => <[k := r]> (literals_db s)
                    | None => literals_db s
                    end;
     literals_id_db := match py_key x with
                       | Some _ => literals_id_db s
                       | None => <[py_id x := r]> (literals_id_db s)
                       end |}.

(** The specification of the Result [r] agrees with the array it holds. *)
Definition spec_in_step (s : state) (r : rid) : Prop :=
  ∀ a, data (results s !!! r) = VNdarray a →
    spec (results s !!! r)
    = Some (numpy_ndarray, nd_dtype (arrays s !!! a), Some (nd_shape (arrays s !!! a))).

(** Every entry of the two literal tables names an existing Result that is
    marked constant. *)
Definition literals_wf (s : state) : Prop :=
  (∀ k r, literals_db s !! k = Some r →
     r ∈ dom (results s) ∧ constant (results s !!! r) = true) ∧
  (∀ k r, literals_id_db s !! k = Some r →
     r ∈ dom (results s) ∧ constant (results s !!! r) = true).
End store_invariants.

(** ** Concrete operators and collaborators *)

(** [add_elemwise_inplace(x, x)], as [x += x] builds it: the Result [1] at
    both input positions, the fresh output [2] destroying input 0. *)
Definition add_elemwise_inplace_x_x : elemwise := {|
  base := {| op_name := "add_elemwise_inplace";
             inputs := [1%positive; 1%positive]; outputs := [2%positive];
             c_impl := Raise NotImplementedError;
             c_impl_argspec := ([], []);
             c_headers := []; c_libs := []; c_support_code := "" |};
  c_init := Ok "";
  c_foreach := Ok "z_i = x_i + y_i;";
  c_finalize := Ok "";
  variable_names := elemwise_variable_names (["x_i"; "y_i"], ["z_i"]) None None;
  loop_variables := Ok (elemwise_loop_variables (["x_i"; "y_i"], ["z_i"]));
  is_inplace := true;
  destroy_map := Ok {[ 2%positive := [1%positive] ]};
|}.

(** [add_elemwise_inplace(x, y)] on two distinct Results. *)
Definition add_elemwise_inplace_x_y : elemwise := {|
  base := {| op_name := "add_elemwise_inplace";
             inputs := [1%positive; 2%positive]; outputs := [3%positive];
             c_impl := Raise NotImplementedError;
             c_impl_argspec := ([], []);
             c_headers := []; c_libs := []; c_support_code := "" |};
  c_init := Ok "";
  c_foreach := Ok "z_i = x_i + y_i;";
  c_finalize := Ok "";
  variable_names := elemwise_variable_names (["x_i"; "y_i"], ["z_i"]) None None;
  loop_variables := Ok (elemwise_loop_variables (["x_i"; "y_i"], ["z_i"]));
  is_inplace := true;
  destroy_map := Ok {[ 3%positive := [1%positive] ]};
|}.

(** A stand-in toolchain: every variable is described by its name alone,
    one converter, and the digest of a text is the text. *)
Definition name_only_spec (name : string) : c_spec := {|
  spec_name := name;
  struct_members_code := "PyArrayObject* " +:+ name +:+ ";" +:+ nl;
  struct_support_code := "";
  struct_typedefs := "";
  struct_import_code := "__STRUCT_P->" +:+ name +:+ " = " +:+ name +:+ ";" +:+ nl;
  use_ref_count := true;
|}.

Definition transparent_toolchain : Toolchain := {|
  Data := unit;
  converter := unit;
  type_spec_default := [tt];
  is_omega_type_converter_extension := λ _, true;
  assign_variable_types := λ names _ _, name_only_spec <$> names;
  md5_hexdigest := λ text, text;
|}.

(** Two operators of one class that differ only in [c_support_code]. *)
Definition dot_like (support : string) : omega_op := {|
  op_name := "dot";
  inputs := [1%positive; 2%positive]; outputs := [3%positive];
  c_impl := Ok "gemm(_x, _y, _z);";
  c_impl_argspec := (["_x"; "_y"], ["_z"]);
  c_headers := []; c_libs := ["mkl"; "m"];
  c_support_code := support;
|}.

(** A stand-in [numpy] over integer elements: two dtypes, addition and
    slice assignment between arrays of equal shape, integer numbers only. *)
Inductive sample_dtype : Type := Int32 | Float64.

#[global] Instance sample_dtype_eq_dec : EqDecision sample_dtype.
Proof. solve_decision. Defined.

Definition sample_promote (a b : sample_dtype) : sample_dtype :=
  match a, b with
  | Int32, Int32 => Int32
  | _, _ => Float64
  end.

Definition sample_add (a b : ndarray sample_dtype Z) : result (ndarray sample_dtype Z) :=
  if decide (nd_shape a = nd_shape b)
  then Ok {| nd_exact := true; nd_dtype := sample_promote (nd_dtype a) (nd_dtype b);
             nd_shape := nd_shape a;
             nd_elems := zip_with Z.add (nd_elems a) (nd_elems b) |}
  else Raise (ValueError "shape mismatch").

Definition sample_iadd_number (z : ndarray sample_dtype Z) (x : pynumber)
    : result (ndarray sample_dtype Z) :=
  match x with
  | PyInt n => Ok {| nd_exact := nd_exact z; nd_dtype := nd_dtype z;
                     nd_shape := nd_shape z;
                     nd_elems := Z.add n <$> nd_elems z |}
  | PyFloat _ => Raise (TypeError "integers only")
  end.

Definition sample_setslice (a b : ndarray sample_dtype Z) : result (ndarray sample_dtype Z) :=
  if decide (nd_shape a = nd_shape b)
  then Ok {| nd_exact := nd_exact a; nd_dtype := nd_dtype a; nd_shape := nd_shape a;
             nd_elems := nd_elems b |}
  else Raise (ValueError "shape mismatch").

Definition sample_array (v : pyvalue) : result (ndarray sample_dtype Z) :=
  match v with
  | VNumber (PyInt n) =>
      Ok {| nd_exact := true; nd_dtype := Int32; nd_shape := []; nd_elems := [n] |}
  | _ => Raise (TypeError "integers only")
  end.

Definition sample_key (v : pyvalue) : option positive :=
  match v with
  | VNumber (PyInt n) => Some (encode (n, 0%Z))
  | VNumber (PyFloat b) => Some (encode (b, 1%Z))
  | VResult r => Some (encode (Zpos r, 2%Z))
  | _ => None
  end.

Definition sample_id (v : pyvalue) : positive :=
  match v with
  | VNdarray a => a~0
  | VObject o => (obj_id o)~1
  | _ => 1
  end.

#[global] Instance integer_numpy : Numpy := {|
  dtype := sample_dtype;
  scalar := Z;
  float64 := Float64;
  np_zero := λ _, 0%Z;
  np_add := sample_add;
  np_iadd_number := sample_iadd_number;
  np_setslice := sample_setslice;
  np_array := sample_array;
  py_key := sample_key;
  py_id := sample_id;
  py_str := λ _, "<object>";
  py_setslice := λ _ _, Raise (TypeError "object does not support item assignment");
|}.

(** The state with no objects. *)
Definition empty_state : state := {|
  results := ∅; arrays := ∅; literals_db := ∅; literals_id_db := ∅;
|}.

(** A state with one Result, [1]: a [NumpyR] that is not constant and holds
    the array [1] of shape [(2,)]. *)
Definition tensor_state : state := {|
  results := {[ 1%positive :=
    {| r_class := NumpyR; data := VNdarray 1;
       spec := Some (numpy_ndarray, Float64, Some [2]);
       constant := false; up_to_date := true |} ]};
  arrays := {[ 1%positive :=
    {| nd_exact := true; nd_dtype := Float64; nd_shape := [2];
       nd_elems := [1%Z; 2%Z] |} ]};
  literals_db := ∅;
  literals_id_db := ∅;
|}.

(** Variants that only tell which one was called. *)
Definition variant (name : string) : rid → rid → M state string :=
  λ _ _, mret name.

(** A state with two computed tensors of shape [(2,)], [1] of dtype
    [Int32] and [2] of dtype [Float64], and the fresh output [3]. *)
Definition tensor_result (a : loc) (d : sample_dtype) : Result := {|
  r_class := NumpyR; data := VNdarray a;
  spec := Some (numpy_ndarray, d, Some [2]);
  constant := false; up_to_date := true;
|}.

Definition two_tensor_state : state := {|
  results := {[ 1%positive := tensor_result 1 Int32;
                2%positive := tensor_result 2 Float64;
                3%positive := {| r_class := NumpyR; data := UNCOMPUTED; spec := None;
                                 constant := false; up_to_date := false |} ]};
  arrays := {[ 1%positive := {| nd_exact := true; nd_dtype := Int32; nd_shape := [2];
                                nd_elems := [1%Z; 2%Z] |};
               2%positive := {| nd_exact := true; nd_dtype := Float64; nd_shape := [2];
                                nd_elems := [10%Z; 20%Z] |} ]};
  literals_db := ∅;
  literals_id_db := ∅;
|}.

(** [add_elemwise(x, y)] on those tensors; the class defines no [specs]. *)
Definition add_elemwise_x_y : elemwise := {|
  base := {| op_name := "add_elemwise";
             inputs := [1%positive; 2%positive]; outputs := [3%positive];
             c_impl := Raise NotImplementedError;
             c_impl_argspec := ([], []);
             c_headers := []; c_libs := []; c_support_code := "" |};
  c_init := Ok "";
  c_foreach := Ok "z_i = x_i + y_i;";
  c_finalize := Ok "";
  variable_names := elemwise_variable_names (["x_i"; "y_i"], ["z_i"]) None None;
  loop_variables := Ok (elemwise_loop_variables (["x_i"; "y_i"], ["z_i"]));
  is_inplace := false;
  destroy_map := Ok ∅;
|}.

Definition add_elemwise_node : elemwise_node := {|
  node_op := add_elemwise_x_y;
  nout := 1;
  specs := λ _, Raise NotImplementedError;
|}.

(** An implementation with two outputs: fresh arrays holding [x + 1] and
    [x + 2]. *)
Definition shifted (n : Z) (c : ndarray sample_dtype Z) : ndarray sample_dtype Z :=
  {| nd_exact := true; nd_dtype := nd_dtype c; nd_shape := nd_shape c;
     nd_elems := Z.add n <$> nd_elems c |}.

Definition two_output_impl : implementation := λ args,
  match args with
  | [VNdarray x] =>
      c ← get_array x;
      b0 ← new_array (shifted 1 c);
      b1 ← new_array (shifted 2 c);
      mret (PyList [VNdarray b0; VNdarray b1])
  | _ => raise (TypeError "two_output_impl() takes exactly 1 argument")
  end.

(** An implementation with one output: a fresh array holding [x + x]. *)
Definition twice_impl : implementation := λ args,
  match args with
  | [VNdarray x] =>
      c ← get_array x;
      b ← new_array {| nd_exact := true; nd_dtype := nd_dtype c;
                       nd_shape := nd_shape c;
                       nd_elems := zip_with Z.add (nd_elems c) (nd_elems c) |};
      mret (One (VNdarray b))
  | _ => raise (TypeError "twice() takes exactly 1 argument")
  end.

(** A state with the tensor [1] and the output placeholder [2] that
    [gen_outputs] made for a unary operator. *)
Definition unary_state : state := {|
  results := {[ 1%positive := tensor_result 1 Float64;
                2%positive := {| r_class := NumpyR; data := UNCOMPUTED; spec := None;
                                 constant := false; up_to_date := false |} ]};
  arrays := {[ 1%positive := {| nd_exact := true; nd_dtype := Float64; nd_shape := [2];
                                nd_elems := [1%Z; 2%Z] |} ]};
  literals_db := ∅;
  literals_id_db := ∅;
|}.

(** [twice_inplace(x)]: [twice.inplace_version()], whose implementation is
    the derived one. *)
Definition twice_x : elemwise := {|
  base := {| op_name := "twice";
             inputs := [1%positive]; outputs := [2%positive];
             c_impl := Raise NotImplementedError;
             c_impl_argspec := ([], []);
             c_headers := []; c_libs := []; c_support_code := "" |};
  c_init := Ok "";
  c_foreach := Ok "None";
  c_finalize := Ok "";
  variable_names := elemwise_variable_names (["x_i"], ["z_i"]) None None;
  loop_variables := Ok (elemwise_loop_variables (["x_i"], ["z_i"]));
  is_inplace := false;
  destroy_map := Ok ∅;
|}.

(** A [gof.PythonOp.alloc] and a [gof.PythonR.set_value] for the examples:
    the first has nothing left to allocate, the second stores the value. *)
Definition no_alloc : omega_op → list rid → M state unit := λ _ _, mret tt.

Definition store_value : rid → pyvalue → M state unit :=
  λ r v, update_result r (set_data v).

(** The instance of [twice_inplace] on [x]: output [2] destroys input [1]. *)
Definition twice_inplace_x : elemwise := {|
  base := {| op_name := "twice_inplace";
             inputs := [1%positive]; outputs := [2%positive];
             c_impl := Raise NotImplementedError;
             c_impl_argspec := ([], []);
             c_headers := []; c_libs := []; c_support_code := "" |};
  c_init := Ok "";
  c_foreach := Ok "None";
  c_finalize := Ok "";
  variable_names := elemwise_variable_names (["x_i"], ["z_i"]) None None;
  loop_variables := Ok (elemwise_loop_variables (["x_i"], ["z_i"]));
  is_inplace := true;
  destroy_map := inplace_destroy_map twice_x {[ 0 := 0 ]};
|}.

(** The array [x + x] for the tensor of [tensor_state]. *)
Definition doubled : ndarray sample_dtype Z :=
  {| nd_exact := true; nd_dtype := Float64; nd_shape := [2]; nd_elems := [2%Z; 4%Z] |}.

(** An accumulator that records the calls of [add], holding the gradient 1
    for every output. *)
Definition recorded_add : rid → Z → M (list (rid * Z)) unit :=
  λ r g, modify (λ calls, calls ++ [(r, g)]).

Definition unit_gradient : list (rid * Z) → rid → result Z := λ _ _, Ok 1%Z.

(** The gradient rule of [add_elemwise]: [gz, gz]. *)
Definition add_grad : list rid → list Z → result (@grad_return Z) :=
  λ _ gz,
    match gz with
    | [g] => Ok (Sequence [g; g])
    | _ => Raise (TypeError "grad() takes exactly 3 arguments")
    end.

(** A stand-in toolchain in which the data bound to a kernel variable is
    the identity of its Result. *)
Definition handle_toolchain : Toolchain := {|
  Data := rid;
  converter := unit;
  type_spec_default := [tt];
  is_omega_type_converter_extension := λ _, true;
  assign_variable_types := λ names _ _, name_only_spec <$> names;
  md5_hexdigest := λ text, text;
|}.

(** An elementwise operator that also defines [c_impl]. *)
Definition add_elemwise_with_c_impl : elemwise := {|
  base := {| op_name := "add_elemwise";
             inputs := [1%positive; 2%positive]; outputs := [3%positive];
             c_impl := Ok "z = x + y;";
             c_impl_argspec := (["x"; "y"], ["z"]);
             c_headers := []; c_libs := []; c_support_code := "" |};
  c_init := Ok "";
  c_foreach := Ok "z_i = x_i + y_i;";
  c_finalize := Ok "";
  variable_names := elemwise_variable_names (["x_i"; "y_i"], ["z_i"]) None None;
  loop_variables := Ok (elemwise_loop_variables (["x_i"; "y_i"], ["z_i"]));
  is_inplace := false;
  destroy_map := Ok ∅;
|}.

(** A reduction in the manner of [sum], whose output is not a loop
    variable, on the tensor [1]; the class defines no [specs]. *)
Definition reduction_node : elemwise_node := {|
  node_op := {|
    base := {| op_name := "total";
               inputs := [1%positive]; outputs := [3%positive];
               c_impl := Raise NotImplementedError;
               c_impl_argspec := ([], []);
               c_headers := []; c_libs := []; c_support_code := "" |};
    c_init := Ok "total_dtype* totalp = ((total_dtype*)PyArray_DATA(total)); totalp[0] = 0;";
    c_foreach := Ok "totalp[0] += x_i;";
    c_finalize := Ok "";
    variable_names :=
      elemwise_variable_names (["x_i"], ["total"]) (Some (["x"], ["total"])) None;
    loop_variables := Ok (elemwise_loop_variables (["x_i"], ["total"]));
    is_inplace := false;
    destroy_map := Ok ∅;
  |};
  nout := 1;
  specs := λ _, Raise NotImplementedError;
|}.

(** A state in which the Results [1], [2] and [3] are [NumpyR]
    placeholders that have not been computed and have no specification. *)
Definition placeholder : Result := {|
  r_class := NumpyR; data := UNCOMPUTED; spec := None;
  constant := false; up_to_date := false;
|}.

Definition unspecified_state : state := {|
  results := {[ 1%positive := placeholder; 2%positive := placeholder;
                3%positive := placeholder ]};
  arrays := ∅;
  literals_db := ∅;
  literals_id_db := ∅;
|}.

(** [add_elemwise_inplace(x, y)] with a destroy map that lists both inputs
    for the output. *)
Definition add_elemwise_inplace_both : elemwise := {|
  base := {| op_name := "add_elemwise_inplace";
             inputs := [1%positive; 2%positive]; outputs := [3%positive];
             c_impl := Raise NotImplementedError;
             c_impl_argspec := ([], []);
             c_headers := []; c_libs := []; c_support_code := "" |};
  c_init := Ok "";
  c_foreach := Ok "z_i = x_i + y_i;";
  c_finalize := Ok "";
  variable_names := elemwise_variable_names (["x_i"; "y_i"], ["z_i"]) None None;
  loop_variables := Ok (elemwise_loop_variables (["x_i"; "y_i"], ["z_i"]));
  is_inplace := true;
  destroy_map := Ok {[ 3%positive := [1%positive; 2%positive] ]};
|}.

(** An implementation that returns its one result, a fresh array holding
    [x + x], in a tuple. *)
Definition twice_tuple_impl : implementation := λ args,
  match args with
  | [VNdarray x] =>
      c ← get_array x;
      b ← new_array {| nd_exact := true; nd_dtype := nd_dtype c;
                       nd_shape := nd_shape c;
                       nd_elems := zip_with Z.add (nd_elems c) (nd_elems c) |};
      mret (PyTuple [VNdarray b])
  | _ => raise (TypeError "twice() takes exactly 1 argument")
  end.

(** An implementation of addition: a fresh array holding [x + y]. *)
Definition add_impl : implementation := λ args,
  match args with
  | [VNdarray x; VNdarray y] =>
      cx ← get_array x;
      cy ← get_array y;
      c ← lift (sample_add cx cy);
      b ← new_array c;
      mret (One (VNdarray b))
  | _ => raise (TypeError "add() takes exactly 2 arguments")
  end.

(** A state with the arrays [1] and [2] of shape [(2,)] and the
    zero-dimensional array [3]. *)
Definition shapes_state : state := {|
  results := ∅;
  arrays := {[ 1%positive := {| nd_exact := true; nd_dtype := Float64; nd_shape := [2];
                                nd_elems := [1%Z; 2%Z] |};
               2%positive := {| nd_exact := true; nd_dtype := Float64; nd_shape := [2];
                                nd_elems := [10%Z; 20%Z] |};
               3%positive := {| nd_exact := true; nd_dtype := Float64; nd_shape := [];
                                nd_elems := [5%Z] |} ]};
  literals_db := ∅;
  literals_id_db := ∅;
|}.

(** * Properties *)

(** ** Strings *)

Lemma append_assoc (a b c : string) : (a +:+ b) +:+ c = a +:+ (b +:+ c).
Proof. induction a as [|x a IH]; [done|]. exact (f_equal (String x) IH). Qed.

Lemma append_nil_r (a : string) : a +:+ "" = a.
Proof. induction a as [|x a IH]; [done|]. exact (f_equal (String x) IH). Qed.

Lemma join_app (l1 l2 : list string) : join (l1 ++ l2) = join l1 +:+ join l2.
Proof.
  induction l1 as [|s l1 IH]; [done|].
  cbn. unfold join in IH. by rewrite IH, append_assoc.
Qed.

(** ** The dual-path kernel *)

Lemma contiguity_check_text (vars : list string) :
  join (contiguity_check_line <$> vars)
  = join (print_check_stmt <$> contiguity_check_stmts vars).
Proof.
  induction vars as [|v vars IH]; [done|].
  unfold contiguity_check_stmts, join in *. cbn. rewrite IH.
  unfold contiguity_check_line. by rewrite !append_assoc.
Qed.

Section layout_facts.
Variables ISC ISF : string → bool.

Lemma exec_check_stmts_flags (vars : list string) (flags : bool * bool) :
  foldl (exec_check_stmt ISC ISF) flags (contiguity_check_stmts vars)
  = (flags.1 && forallb ISC vars, flags.2 && forallb ISF vars).
Proof.
  revert flags. induction vars as [|v vars IH]; intros [c f]; cbn.
  - by rewrite !andb_true_r.
  - unfold contiguity_check_stmts in IH. rewrite IH. cbn.
    by rewrite !andb_assoc.
Qed.

Lemma takes_contiguous_loop_spec (vars : list string) :
  takes_contiguous_loop ISC ISF (contiguity_check_stmts vars) = true
  ↔ (∀ v, v ∈ vars → ISC v = true) ∨ (∀ v, v ∈ vars → ISF v = true).
Proof.
  unfold takes_contiguous_loop. rewrite exec_check_stmts_flags. cbn.
  rewrite orb_true_iff, !forallb_forall.
  by setoid_rewrite <- list_elem_of_In.
Qed.
End layout_facts.


(** ** Folds of fallible steps *)

Lemma foldl_result_inv {A B} (f : result A → B → result A)
    (I : list B → A → Prop) (l : list B) :
  (∀ pre b post a, l = pre ++ b :: post → I pre a →
     ∃ a', f (Ok a) b = Ok a' ∧ I (pre ++ [b]) a') →
  ∀ a0, I [] a0 → ∃ a', foldl f (Ok a0) l = Ok a' ∧ I l a'.
Proof.
  intros Hstep.
  cut (∀ post pre a, l = pre ++ post → I pre a →
         ∃ a', foldl f (Ok a) post = Ok a' ∧ I l a').
  { intros Hcut a0 H0. by apply (Hcut l [] a0). }
  induction post as [|b post IH]; intros pre a Hl Hpre.
  - rewrite app_nil_r in Hl. subst. by exists a.
  - destruct (Hstep pre b post a Hl Hpre) as (a' & Hf & Ha').
    cbn. rewrite Hf. apply (IH (pre ++ [b])); [|done].
    by rewrite <- app_assoc.
Qed.

Lemma index_of_Some `{EqDecision A} (x : A) (l : list A) (i : nat) :
  index_of x l = Some i → l !! i = Some x ∧ ∀ j, l !! j = Some x → i ≤ j.
Proof.
  revert i. induction l as [|y l IH]; intros i; [done|].
  cbn. case_decide as Hxy.
  - intros [= <-]. subst. split; [done|]. lia.
  - destruct (index_of x l) as [k|]; [|done].
    intros [= <-]. destruct (IH k eq_refl) as [Hk Hmin].
    split; [done|]. intros [|j]; cbn; [congruence|].
    intros Hj. apply Hmin in Hj. lia.
Qed.

Lemma index_of_elem `{EqDecision A} (x : A) (l : list A) :
  x ∈ l → ∃ i, index_of x l = Some i ∧ i < length l.
Proof.
  induction l as [|y l IH]; [by intros ?%elem_of_nil|].
  intros Hin. cbn. case_decide as Hxy.
  - exists 0. split; [done|]. cbn. lia.
  - apply elem_of_cons in Hin as [?|Hin]; [done|].
    destruct (IH Hin) as (i & -> & Hi). exists (S i). split; [done|]. cbn. lia.
Qed.

(** ** The alias table of [elemwise.c_code] *)

Section aliases.
Variables (dmap : gmap rid (list rid)) (inames lonames : list string)
          (ins : list rid).
Hypothesis Hlen : length ins ≤ length inames.

Local Abbreviation names_input := (names_input inames ins).

Lemma names_input_exists (inp : rid) : inp ∈ ins → ∃ n, names_input inp n.
Proof.
  intros (k & Hk & Hlt)%index_of_elem.
  destruct (lookup_lt_is_Some_2 inames k) as [n Hn]; [lia|].
  exists n, k. done.
Qed.

Lemma alias_input_fold (o : string) (l : list rid) (a0 : gmap string string) :
  l ⊆ ins →
  ∃ a, foldl (alias_input inames ins o) (Ok a0) l = Ok a ∧
    (∀ n o', a !! n = Some o' →
       a0 !! n = Some o' ∨ (o' = o ∧ ∃ inp, inp ∈ l ∧ names_input inp n)) ∧
    (∀ inp n, inp ∈ l → names_input inp n → a !! n = Some o) ∧
    (∀ n, is_Some (a0 !! n) → is_Some (a !! n)).
Proof.
  intros Hsub.
  apply (foldl_result_inv _ (λ pre a,
    (∀ n o', a !! n = Some o' →
       a0 !! n = Some o' ∨ (o' = o ∧ ∃ inp, inp ∈ pre ∧ names_input inp n)) ∧
    (∀ inp n, inp ∈ pre → names_input inp n → a !! n = Some o) ∧
    (∀ n, is_Some (a0 !! n) → is_Some (a !! n)))).
  - intros pre inp post a -> (Hsound & Hcompl & Hmono).
    assert (inp ∈ ins) as Hin by (apply Hsub; set_solver).
    destruct (names_input_exists inp Hin) as (m & k & Hk & Hm).
    exists (<[m := o]> a). split.
    { unfold alias_input, list_index. cbn. rewrite Hk. cbn.
      unfold list_getitem. by rewrite Hm. }
    split; [|split].
    + intros n o' Hn. destruct (decide (m = n)) as [->|Hne].
      * rewrite lookup_insert_eq in Hn. injection Hn as <-.
        right. split; [done|]. exists inp. split; [set_solver|]. by exists k.
      * rewrite lookup_insert_ne in Hn by done.
        destruct (Hsound n o' Hn) as [?|(-> & inp' & ? & ?)]; [by left|].
        right. split; [done|]. exists inp'. split; [set_solver|done].
    + intros inp' n [Hpre| ->%list_elem_of_singleton]%elem_of_app Hname.
      * destruct (decide (m = n)) as [->|Hne].
        -- by rewrite lookup_insert_eq.
        -- rewrite lookup_insert_ne by done. by apply (Hcompl inp').
      * destruct Hname as (k' & Hk' & Hn). simplify_eq.
        by rewrite lookup_insert_eq.
    + intros n Hn. destruct (decide (m = n)) as [->|Hne].
      * rewrite lookup_insert_eq. by eexists.
      * rewrite lookup_insert_ne by done. by apply Hmono.
  - split; [|split]; [by left|by intros ?? ?%elem_of_nil|done].
Qed.

Local Abbreviation destroys := (destroys dmap lonames).

Lemma alias_output_fold (l : list (string * rid)) :
  (∀ o out ins', (o, out) ∈ l → dmap !! out = Some ins' → ins' ⊆ ins) →
  ∃ a, foldl (alias_output dmap inames lonames ins) (Ok ∅) l = Ok a ∧
    (∀ n o, a !! n = Some o → ∃ inp, destroys l o inp ∧ names_input inp n) ∧
    (∀ o inp n, destroys l o inp → names_input inp n → is_Some (a !! n)).
Proof.
  intros Hwf.
  apply (foldl_result_inv _ (λ pre a,
    (∀ n o, a !! n = Some o → ∃ inp, destroys pre o inp ∧ names_input inp n) ∧
    (∀ o inp n, destroys pre o inp → names_input inp n → is_Some (a !! n)))).
  - intros pre [o out] post a -> (Hsound & Hcompl).
    unfold alias_output. cbn.
    case_bool_decide as Hloop.
    + assert (default [] (dmap !! out) ⊆ ins) as Hsub.
      { destruct (dmap !! out) as [ins'|] eqn:Hout; cbn; [|set_solver].
        apply (Hwf o out); [set_solver|done]. }
      destruct (alias_input_fold o _ a Hsub) as (a' & -> & Hs & Hc & Hm).
      exists a'. split; [done|]. split.
      * intros n o' Hn. destruct (Hs n o' Hn) as [Hold|(-> & inp & Hinp & Hname)].
        -- destruct (Hsound n o' Hold) as (inp & (out' & ins' & ? & ? & ? & ?) & ?).
           exists inp. split; [|done]. exists out', ins'. set_solver.
        -- exists inp. split; [|done].
           destruct (dmap !! out) as [ins'|] eqn:Hout; cbn in Hinp;
             [|by apply elem_of_nil in Hinp].
           exists out, ins'. set_solver.
      * intros o' inp n (out' & ins' & Hin & Hlo & Hd & Hinp) Hname.
        apply elem_of_app in Hin as [Hin|Hin%list_elem_of_singleton].
        -- apply Hm, (Hcompl o' inp); [|done]. by exists out', ins'.
        -- simplify_eq. exists o. apply (Hc inp); [|done]. by rewrite Hd.
    + exists a. split; [done|]. split.
      * intros n o' Hn.
        destruct (Hsound n o' Hn) as (inp & (out' & ins' & ? & ? & ? & ?) & ?).
        exists inp. split; [|done]. exists out', ins'. set_solver.
      * intros o' inp n (out' & ins' & Hin & Hlo & Hd & Hinp) Hname.
        apply elem_of_app in Hin as [Hin|Hin%list_elem_of_singleton].
        -- apply (Hcompl o' inp); [|done]. by exists out', ins'.
        -- by simplify_eq.
  - split; [by intros ?? ?%lookup_empty_Some|].
    by intros ??? (? & ? & ?%elem_of_nil & _).
Qed.
End aliases.

Lemma dict_of_pairs_lookup `{Countable K} {V} (l : list (K * V)) (k : K) (v : V) :
  dict_of_pairs l !! k = Some v → (k, v) ∈ l.
Proof.
  unfold dict_of_pairs.
  cut (∀ d : gmap K V,
         foldl (λ d p, <[p.1 := p.2]> d) d l !! k = Some v → (k, v) ∈ l ∨ d !! k = Some v).
  { intros Hcut Hl. destruct (Hcut ∅ Hl) as [?|?%lookup_empty_Some]; done. }
  induction l as [|[k' v'] l IH]; intros d; cbn; [by right|].
  intros [Hin|Hd]%IH; [left; set_solver|].
  destruct (decide (k' = k)) as [->|Hne].
  - rewrite lookup_insert_eq in Hd. injection Hd as ->. left. set_solver.
  - rewrite lookup_insert_ne in Hd by done. by right.
Qed.

Lemma bound_result_position (names : list string) (vals : list rid)
    (name : string) (r : rid) :
  bound_result names vals name = Some r →
  ∃ p, names !! p = Some name ∧ vals !! p = Some r.
Proof.
  intros Hin%dict_of_pairs_lookup.
  apply list_elem_of_lookup in Hin as [p Hp].
  apply lookup_zip_with_Some in Hp as (n & v & [= <- <-] & ? & ?). by exists p.
Qed.

Lemma filter_eq_length_notin `{EqDecision A} (x : A) (l : list A) :
  x ∉ l → length (filter (λ y, y = x) l) = 0.
Proof.
  induction l as [|y l IH]; [done|].
  intros Hx. rewrite filter_cons. case_decide; [set_solver|].
  apply IH. set_solver.
Qed.

Lemma filter_eq_length_NoDup `{EqDecision A} (x : A) (l : list A) :
  NoDup l → x ∈ l → length (filter (λ y, y = x) l) = 1.
Proof.
  induction 1 as [|y l Hy Hnd IH]; [by intros ?%elem_of_nil|].
  intros Hx. rewrite filter_cons. case_decide as Hyx.
  - subst. cbn. by rewrite filter_eq_length_notin.
  - apply IH. set_solver.
Qed.




(** ** The compiled-module key *)

Section module_key.
Context `{Toolchain}.
Variable data_of : rid → Data.

Lemma cgen_code (name behavior : string) (names : list string) (vals : list rid)
    (converters : option (list converter)) (g : cgen_result) :
  cgen data_of name behavior names vals converters = Ok g →
  ∃ specs : list c_spec,
    cg_code g = instantiate_code
                  (struct_name_of name (struct_contents_of specs behavior))
                  (join (struct_import_code <$> specs)).
Proof.
  unfold cgen.
  destruct (py_assert _); [|done]. cbn.
  intros [= <-]. by eexists.
Qed.

End module_key.



(** ** Stateful computations *)

Lemma bind_Ok {S A B} (m : M S A) (f : A → M S B) (s s1 : S) (a : A) :
  m s = (Ok a, s1) → (m ≫= f) s = f a s1.
Proof. intros Hm. unfold mbind, M_bind. by rewrite Hm. Qed.

Lemma bind_Raise {S A B} (m : M S A) (f : A → M S B) (s s1 : S) (e : exn) :
  m s = (Raise e, s1) → (m ≫= f) s = (Raise e, s1).
Proof. intros Hm. unfold mbind, M_bind. by rewrite Hm. Qed.

Lemma bind_Ok_inv {S A B} (m : M S A) (f : A → M S B) (s s' : S) (b : B) :
  (m ≫= f) s = (Ok b, s') → ∃ a s1, m s = (Ok a, s1) ∧ f a s1 = (Ok b, s').
Proof.
  unfold mbind, M_bind. destruct (m s) as [[a|e] s1]; [|done].
  intros Hf. by exists a, s1.
Qed.

(** ** Result and array objects *)

Section object_facts.
Context `{Numpy}.

Lemma state_extends_refl (s : state) : state_extends s s.
Proof. by split. Qed.

Lemma state_extends_result (s s' : state) (r : rid) :
  state_extends s s' → r ∈ dom (results s) → results s' !!! r = results s !!! r.
Proof. intros [Hr _] Hin. unfold lookup_total, map_lookup_total. by rewrite Hr. Qed.

Lemma new_array_spec (c : array) (s : state) :
  ∃ a s', new_array c s = (Ok a, s') ∧ (a ∉ dom (arrays s)) ∧
    arrays s' = <[a := c]> (arrays s) ∧ results s' = results s ∧
    literals_db s' = literals_db s ∧ literals_id_db s' = literals_id_db s.
Proof. eexists _, _. split; [done|]. split; [apply is_fresh|done]. Qed.

Lemma NumpyR_new_array (z : loc) (s : state) :
  ∃ r a s',
    NumpyR_new (VNdarray z) s = (Ok r, s') ∧
    (r ∉ dom (results s)) ∧
    state_extends s s' ∧
    literals_db s' = literals_db s ∧ literals_id_db s' = literals_id_db s ∧
    results s' !! r
    = Some {| r_class := NumpyR; data := VNdarray a;
              spec := Some (numpy_ndarray, nd_dtype (arrays s !!! z),
                            Some (nd_shape (arrays s !!! z)));
              constant := false; up_to_date := true |} ∧
    nd_shape (arrays s' !!! a) = nd_shape (arrays s !!! z).
Proof.
  unfold NumpyR_new, new_result, NumpyR_set_value, np_asarray, NumpyR_refresh,
    update_result, get_result, get_array, new_array, modify, gets.
  unfold mbind, M_bind, mret, M_ret. cbn.
  pose proof (is_fresh (dom (results s))) as Hr.
  pose proof (is_fresh (dom (arrays s))) as Ha.
  destruct (nd_exact (arrays s !!! z)) eqn:Hex; cbn;
    rewrite ?lookup_total_insert_eq; cbn;
    rewrite ?lookup_total_insert_eq; cbn;
    rewrite !insert_insert_eq.
  - exists (fresh (dom (results s))), z. eexists. split; [done|]. cbn.
    split; [done|]. split.
    { split; cbn; [|done]. intros r' Hr'. rewrite lookup_insert_ne; [done|].
      by intros <-. }
    split; [done|]. split; [done|].
    by rewrite lookup_insert_eq.
  - exists (fresh (dom (results s))), (fresh (dom (arrays s))). eexists.
    split; [done|]. cbn.
    split; [done|]. split.
    { split; cbn.
      - intros r' Hr'. rewrite lookup_insert_ne; [done|]. by intros <-.
      - intros a' Ha'. rewrite lookup_insert_ne; [done|]. by intros <-. }
    split; [done|]. split; [done|].
    by rewrite lookup_insert_eq, lookup_total_insert_eq.
Qed.

Lemma input_Ok (x : pyvalue) (s s' : state) (r : rid) :
  input x s = (Ok r, s') →
  (r ∉ dom (results s)) ∧ state_extends s s' ∧
  literals_db s' = literals_db s ∧ literals_id_db s' = literals_id_db s ∧
  ∃ o, results s' !! r = Some o ∧ constant o = false ∧
    match x with
    | VNdarray _ => r_class o = NumpyR
    | VNumber n =>
        r_class o = NumpyR ∧
        ∃ a c', np_iadd_number (np_zeros [] float64) n = Ok c' ∧
          data o = VNdarray a ∧ nd_shape (arrays s' !!! a) = nd_shape c'
    | VResult _ => False
    | _ => r_class o = PythonR ∧ data o = x
    end.
Proof.
  assert (∀ v, PythonR_new v s = (Ok r, s') →
    (r ∉ dom (results s)) ∧ state_extends s s' ∧
    literals_db s' = literals_db s ∧ literals_id_db s' = literals_id_db s ∧
    ∃ o, results s' !! r = Some o ∧ constant o = false ∧
      r_class o = PythonR ∧ data o = v) as Hpy.
  { intros v [= <- <-]. cbn. split; [apply is_fresh|]. split.
    { split; cbn; [|done]. intros r' Hr'. rewrite lookup_insert_ne; [done|].
      intros <-. by apply is_fresh in Hr'. }
    split; [done|]. split; [done|]. eexists. rewrite lookup_insert_eq. done. }
  destruct x as [|z|n|r0|out|o]; cbn [input].
  - intros Hrun. destruct (Hpy _ Hrun) as (? & ? & ? & ? & o & ? & ? & ? & ?).
    repeat (split; [done|]). by exists o.
  - intros Hrun.
    destruct (NumpyR_new_array z s) as (r' & a & s'' & Hnew & Hfr & Hext & Hdb & Hid & Hres & _).
    rewrite Hnew in Hrun. injection Hrun as <- <-.
    repeat (split; [done|]). eexists. done.
  - intros Hrun.
    destruct (new_array_spec (np_zeros [] float64) s) as (z & s1 & Hz & Hzf & Ha1 & Hr1 & Hd1 & Hi1).
    rewrite (bind_Ok _ _ _ _ _ Hz) in Hrun.
    assert (get_array z s1 = (Ok (np_zeros [] float64), s1)) as Hget.
    { unfold get_array, gets. by rewrite Ha1, lookup_total_insert_eq. }
    rewrite (bind_Ok _ _ _ _ _ Hget) in Hrun.
    destruct (np_iadd_number (np_zeros [] float64) n) as [c'|e] eqn:Hadd; swap 1 2;
      [by rewrite (bind_Raise (lift (Raise e)) _ s1 s1 e eq_refl) in Hrun|].
    rewrite (bind_Ok (lift (Ok c')) _ s1 s1 c' eq_refl) in Hrun.
    rewrite (bind_Ok (set_array z c') _ s1 _ tt eq_refl) in Hrun.
    match type of Hrun with NumpyR_new _ ?s2 = _ =>
      destruct (NumpyR_new_array z s2)
        as (r' & a & s'' & Hnew & Hfr & Hext & Hdb & Hid & Hres & Hshape) end.
    rewrite Hnew in Hrun. injection Hrun as <- <-. cbn in *.
    split; [by rewrite <- Hr1|]. split.
    { destruct Hext as [Hexr Hexa]. cbn in *. split.
      - intros r0 Hr0. rewrite Hexr by (by rewrite Hr1). by rewrite Hr1.
      - intros a0 Ha0.
        assert (a0 ≠ z) by (by intros ->).
        rewrite Hexa.
        + rewrite Ha1. by rewrite !lookup_insert_ne.
        + rewrite Ha1. rewrite !dom_insert. set_solver. }
    split; [congruence|]. split; [congruence|].
    eexists. split; [done|]. split; [done|]. split; [done|].
    exists a, c'. split; [done|]. split; [done|].
    by rewrite Hshape, lookup_total_insert_eq.
  - done.
  - intros Hrun. destruct (Hpy _ Hrun) as (? & ? & ? & ? & o & ? & ? & ? & ?).
    repeat (split; [done|]). by exists o.
  - intros Hrun. destruct (Hpy _ Hrun) as (? & ? & ? & ? & o' & ? & ? & ? & ?).
    repeat (split; [done|]). by exists o'.
Qed.

Lemma constant_without_shape_true (s : state) (r : rid) :
  scalar_constant s r → constant_without_shape r s = (Ok true, s).
Proof.
  intros [Hc Hs]. unfold constant_without_shape.
  rewrite (bind_Ok (get_result r) _ s s _ eq_refl), Hc.
  by rewrite (bind_Ok _ _ _ _ _ Hs).
Qed.

Lemma constant_without_shape_false (s : state) (r : rid) :
  tensor_operand s r → constant_without_shape r s = (Ok false, s).
Proof.
  intros Ht. unfold constant_without_shape.
  rewrite (bind_Ok (get_result r) _ s s _ eq_refl). cbn beta.
  destruct (constant (results s !!! r)) eqn:Hc; [|done].
  destruct Ht as [?|(shape & Hs & Hne)]; [congruence|].
  rewrite (bind_Ok _ _ _ _ _ Hs). cbn. by rewrite bool_decide_eq_false_2.
Qed.

Lemma scalar_switch_wrapped {A} (normal_f scalar_f : rid → rid → M state A)
    (scalar_f_reverse : option (rid → rid → M state A))
    (x y : pyvalue) (s s1 s2 : state) (rx ry : rid) :
  wrap x s = (Ok rx, s1) → wrap y s1 = (Ok ry, s2) →
  (scalar_constant s2 ry →
     scalar_switch normal_f scalar_f scalar_f_reverse x y s = scalar_f rx ry s2) ∧
  (tensor_operand s2 ry → scalar_constant s2 rx →
     scalar_switch normal_f scalar_f scalar_f_reverse x y s
     = match scalar_f_reverse with
       | Some reverse => reverse ry rx s2
       | None => (Raise (TypeError "You cannot do this operation on a scalar."), s2)
       end) ∧
  (tensor_operand s2 ry → tensor_operand s2 rx →
     scalar_switch normal_f scalar_f scalar_f_reverse x y s = normal_f rx ry s2).
Proof.
  intros Hx Hy. unfold scalar_switch.
  rewrite (bind_Ok _ _ _ _ _ Hx), (bind_Ok _ _ _ _ _ Hy).
  split; [|split].
  - intros Hs. by rewrite (bind_Ok _ _ _ _ _ (constant_without_shape_true _ _ Hs)).
  - intros Hty Hsx.
    rewrite (bind_Ok _ _ _ _ _ (constant_without_shape_false _ _ Hty)).
    rewrite (bind_Ok _ _ _ _ _ (constant_without_shape_true _ _ Hsx)).
    by destruct scalar_f_reverse.
  - intros Hty Htx.
    rewrite (bind_Ok _ _ _ _ _ (constant_without_shape_false _ _ Hty)).
    by rewrite (bind_Ok _ _ _ _ _ (constant_without_shape_false _ _ Htx)).
Qed.

Lemma wrap_number (n : pynumber) (k : positive) (c' : array) (s : state) :
  py_key (VNumber n) = Some k →
  np_iadd_number (np_zeros [] float64) n = Ok c' → nd_shape c' = [] →
  literal_entry_scalar s k →
  ∃ r s', wrap (VNumber n) s = (Ok r, s') ∧ state_extends s s' ∧
    scalar_constant s' r.
Proof.
  intros Hk Hadd Hshape Hentry. cbn [wrap]. unfold literal, _hashable.
  rewrite bool_decide_eq_true_2 by (by rewrite Hk).
  unfold _literal_hashable. rewrite Hk.
  rewrite (bind_Ok (gets literals_db) _ s s _ eq_refl).
  destruct (literals_db s !! k) as [r|] eqn:Hdb.
  - exists r, s. split; [done|]. split; [apply state_extends_refl|].
    by apply Hentry.
  - destruct (input (VNumber n) s) as [[r|e] s1] eqn:Hin.
    + apply input_Ok in Hin as Hin'.
      destruct Hin' as (Hfr & Hext & _ & _ & o & Ho & Hc & _ & a & c'' & Hadd' & Hd & Hsh).
      rewrite (bind_Ok _ _ _ _ _ Hin).
      rewrite (bind_Ok (update_result r _) _ s1 _ tt eq_refl).
      rewrite (bind_Ok (set_literals_db k r) _ _ _ tt eq_refl).
      eexists _, _. split; [done|]. cbn. split.
      * destruct Hext as [Hexr Hexa]. split; cbn; [|done].
        intros r' Hr'. rewrite lookup_insert_ne; [by apply Hexr|].
        by intros <-.
      * unfold scalar_constant. cbn. rewrite lookup_total_insert_eq.
        unfold lookup_total, map_lookup_total. rewrite Ho. cbn.
        split; [done|]. rewrite Hd. cbn.
        unfold get_array, gets, mbind, M_bind. cbn.
        rewrite Hsh. assert (c'' = c') as -> by congruence. by rewrite Hshape.
    + exfalso. revert Hin. cbn [input].
      destruct (new_array_spec (np_zeros [] float64) s) as (z & s0 & Hz & _ & Ha1 & _).
      rewrite (bind_Ok _ _ _ _ _ Hz).
      assert (get_array z s0 = (Ok (np_zeros [] float64), s0)) as Hget.
      { unfold get_array, gets. by rewrite Ha1, lookup_total_insert_eq. }
      rewrite (bind_Ok _ _ _ _ _ Hget), Hadd.
      rewrite (bind_Ok (lift (Ok c')) _ s0 s0 c' eq_refl).
      rewrite (bind_Ok (set_array z c') _ s0 _ tt eq_refl).
      match goal with |- NumpyR_new _ ?s2 = _ → _ =>
        destruct (NumpyR_new_array z s2) as (r' & a & s'' & Hnew & _) end.
      by rewrite Hnew.
Qed.

Lemma wrap_result (r : rid) (s : state) :
  r_class (results s !!! r) = NumpyR ∨ r_class (results s !!! r) = PythonR →
  wrap (VResult r) s = (Ok r, s).
Proof.
  intros Hc. cbn [wrap]. rewrite (bind_Ok (get_result r) _ s s _ eq_refl).
  by destruct Hc as [-> | ->].
Qed.
End object_facts.

(** ** Wrapping and dispatch *)

(** C10. [input] raises [TypeError] on every value that is already a
    [gof.Result], whatever its class, and leaves the state as it was; and
    whenever [input] returns, what it returns is a Result object that did
    not exist before the call, wrapping a value that is not a Result: a
    [NumpyR] for an array or a number, a [PythonR] holding the value for
    anything else, with every earlier object unchanged. *)
Theorem input_rejects_results `{Numpy} :
  (∀ (r0 : rid) (s : state),
     input (VResult r0) s
     = (Raise (TypeError (py_str (VResult r0) +:+ " is already a result.")), s)) ∧
  (∀ (x : pyvalue) (s s' : state) (r : rid),
     input x s = (Ok r, s') →
     (r ∉ dom (results s)) ∧ (∀ r0, x ≠ VResult r0) ∧ state_extends s s' ∧
     ∃ o, results s' !! r = Some o ∧ constant o = false ∧
       match x with
       | VNdarray _ | VNumber _ => r_class o = NumpyR
       | _ => r_class o = PythonR ∧ data o = x
       end).
Proof.
  split; [done|].
  intros x s s' r Hin.
  destruct (input_Ok x s s' r Hin) as (Hfr & Hext & _ & _ & o & Ho & Hc & Hx).
  split; [done|]. split; [by intros r0 ->|]. split; [done|].
  exists o. split; [done|]. split; [done|].
  destruct x; try done. by destruct Hx.
Qed.

(** C10, witness: [input(5)] in the empty state returns the new Result [1]. *)
Lemma input_rejects_results_witness :
  input (VNumber (PyInt 5)) empty_state = (Ok 1%positive, (input (VNumber (PyInt 5)) empty_state).2) ∧
  (1%positive ∉ dom (results empty_state)) ∧
  input (VResult 1) (input (VNumber (PyInt 5)) empty_state).2
  = (Raise (TypeError "<object> is already a result."),
     (input (VNumber (PyInt 5)) empty_state).2).
Proof.
  split; [reflexivity|]. split.
  - exact (proj1 (proj2 (input_rejects_results (H := integer_numpy))
                   (VNumber (PyInt 5)) empty_state _ 1%positive eq_refl)).
  - exact (proj1 (input_rejects_results (H := integer_numpy)) 1%positive _).
Defined.

(** C7, as the code has it. After both operands are wrapped: a right
    operand that is a constant with data of empty shape selects the
    tensor-scalar variant on (left, right); otherwise a left operand that is
    a constant with data of empty shape selects the reverse variant on
    (right, left) when one was supplied, and raises [TypeError] when none
    was; otherwise the tensor-tensor variant is called. A number on the
    right of a Result is dispatched to the tensor-scalar variant, and a
    number on the left of a Result that is not constant to the reverse
    variant, both with the Result first. *)
Theorem scalar_switch_dispatch `{Numpy} {A} (normal_f scalar_f : rid → rid → M state A)
    (scalar_f_reverse : option (rid → rid → M state A)) :
  (∀ (x y : pyvalue) (s s1 s2 : state) (rx ry : rid),
     wrap x s = (Ok rx, s1) → wrap y s1 = (Ok ry, s2) →
     (scalar_constant s2 ry →
        scalar_switch normal_f scalar_f scalar_f_reverse x y s = scalar_f rx ry s2) ∧
     (tensor_operand s2 ry → scalar_constant s2 rx →
        scalar_switch normal_f scalar_f scalar_f_reverse x y s
        = match scalar_f_reverse with
          | Some reverse => reverse ry rx s2
          | None => (Raise (TypeError "You cannot do this operation on a scalar."), s2)
          end) ∧
     (tensor_operand s2 ry → tensor_operand s2 rx →
        scalar_switch normal_f scalar_f scalar_f_reverse x y s = normal_f rx ry s2)) ∧
  (∀ (t : rid) (n : pynumber) (k : positive) (c' : array) (s : state),
     r_class (results s !!! t) = NumpyR ∨ r_class (results s !!! t) = PythonR →
     py_key (VNumber n) = Some k →
     np_iadd_number (np_zeros [] float64) n = Ok c' → nd_shape c' = [] →
     literal_entry_scalar s k →
     ∃ r s', wrap (VNumber n) s = (Ok r, s') ∧
       scalar_switch normal_f scalar_f scalar_f_reverse (VResult t) (VNumber n) s
       = scalar_f t r s') ∧
  (∀ (t : rid) (n : pynumber) (k : positive) (c' : array) (s : state)
     (reverse : rid → rid → M state A),
     scalar_f_reverse = Some reverse →
     t ∈ dom (results s) →
     r_class (results s !!! t) = NumpyR ∨ r_class (results s !!! t) = PythonR →
     constant (results s !!! t) = false →
     py_key (VNumber n) = Some k →
     np_iadd_number (np_zeros [] float64) n = Ok c' → nd_shape c' = [] →
     literal_entry_scalar s k →
     ∃ r s', wrap (VNumber n) s = (Ok r, s') ∧
       scalar_switch normal_f scalar_f scalar_f_reverse (VNumber n) (VResult t) s
       = reverse t r s').
Proof.
  split; [|split].
  - intros x y s s1 s2 rx ry Hx Hy.
    exact (scalar_switch_wrapped normal_f scalar_f scalar_f_reverse
             x y s s1 s2 rx ry Hx Hy).
  - intros t n k c' s Hcls Hk Hadd Hshape Hentry.
    destruct (wrap_number n k c' s Hk Hadd Hshape Hentry) as (r & s' & Hw & _ & Hsc).
    exists r, s'. split; [done|].
    by apply (scalar_switch_wrapped normal_f scalar_f scalar_f_reverse
                (VResult t) (VNumber n) s s s' t r (wrap_result t s Hcls) Hw).
  - intros t n k c' s reverse -> Hdom Hcls Hconst Hk Hadd Hshape Hentry.
    destruct (wrap_number n k c' s Hk Hadd Hshape Hentry) as (r & s' & Hw & Hext & Hsc).
    exists r, s'. split; [done|].
    assert (results s' !!! t = results s !!! t) as Ht
      by by apply state_extends_result.
    assert (wrap (VResult t) s' = (Ok t, s')) as Hwt.
    { apply wrap_result. by rewrite Ht. }
    destruct (scalar_switch_wrapped normal_f scalar_f (Some reverse)
                (VNumber n) (VResult t) s s' s' r t Hw Hwt) as (_ & Hrev & _).
    apply Hrev; [|done]. left. by rewrite Ht.
Qed.

(** C7, witness: [add(x, 5)] and [add(5, x)] on the tensor [x]. *)
Lemma scalar_switch_dispatch_witness :
  (scalar_switch (variant "add_elemwise") (variant "add_scalar")
     (Some (variant "add_scalar_reverse")) (VResult 1) (VNumber (PyInt 5)) tensor_state).1
  = Ok "add_scalar" ∧
  (scalar_switch (variant "add_elemwise") (variant "add_scalar")
     (Some (variant "add_scalar_reverse")) (VNumber (PyInt 5)) (VResult 1) tensor_state).1
  = Ok "add_scalar_reverse".
Proof.
  pose proof (scalar_switch_dispatch (H := integer_numpy)
                (variant "add_elemwise") (variant "add_scalar")
                (Some (variant "add_scalar_reverse"))) as (_ & Hright & Hleft).
  assert (literal_entry_scalar tensor_state (encode (5%Z, 0%Z))) as Hentry.
  { intros r Hr. cbn in Hr. by rewrite lookup_empty in Hr. }
  split.
  - destruct (Hright 1%positive (PyInt 5) _ _ tensor_state
                (or_introl eq_refl) eq_refl eq_refl eq_refl Hentry)
      as (r & s' & _ & ->).
    reflexivity.
  - destruct (Hleft 1%positive (PyInt 5) _ _ tensor_state _ eq_refl
                ltac:(by apply elem_of_dom; eexists; apply lookup_singleton_eq)
                (or_introl eq_refl) eq_refl eq_refl eq_refl eq_refl Hentry)
      as (r & s' & _ & ->).
    reflexivity.
Defined.

(** C7, counterexample. [add_inplace = scalar_switch(add_elemwise_inplace,
    add_scalar_inplace)] has no reverse variant; in [add_inplace(5, x)] the
    right operand is not a scalar constant and it is not the case that the
    left operand is one and a reverse variant was supplied, yet the
    tensor-tensor variant is not called: the call raises. *)
Lemma scalar_switch_without_reverse_raises :
  ¬ (∀ (N : Numpy) (normal_f scalar_f : rid → rid → M state string)
       (scalar_f_reverse : option (rid → rid → M state string))
       (x y : pyvalue) (s s1 s2 : state) (rx ry : rid),
       wrap x s = (Ok rx, s1) → wrap y s1 = (Ok ry, s2) →
       tensor_operand s2 ry →
       ¬ (scalar_constant s2 rx ∧ is_Some scalar_f_reverse) →
       scalar_switch normal_f scalar_f scalar_f_reverse x y s = normal_f rx ry s2).
Proof.
  intros Hclaim.
  pose (s1 := (wrap (H := integer_numpy) (VNumber (PyInt 5)) tensor_state).2).
  assert (wrap (VNumber (PyInt 5)) tensor_state = (Ok 2%positive, s1)) as Hx
    by (vm_compute; reflexivity).
  assert (wrap (VResult 1) s1 = (Ok 1%positive, s1)) as Hy
    by (vm_compute; reflexivity).
  assert (tensor_operand s1 1%positive) as Ht
    by (left; vm_compute; reflexivity).
  assert (¬ (scalar_constant s1 2%positive
             ∧ is_Some (@None (rid → rid → M state string)))) as Hnone.
  { intros [_ [? Hsome]]. discriminate Hsome. }
  pose proof (Hclaim integer_numpy (variant "add_elemwise_inplace")
                (variant "add_scalar_inplace") None
                (VNumber (PyInt 5)) (VResult 1) tensor_state s1 s1
                2%positive 1%positive Hx Hy Ht Hnone) as Heq.
  clear -Heq. vm_compute in Heq. discriminate Heq.
Qed.

(** C8, as the code has it. When no reverse variant was supplied, the left
    operand is a constant with data of empty shape and the right operand is
    not, the call raises the built-in [TypeError] with a fixed message, in
    the state reached by wrapping the two operands: no variant is called. *)
Theorem scalar_switch_missing_reverse `{Numpy} {A}
    (normal_f scalar_f : rid → rid → M state A)
    (x y : pyvalue) (s s1 s2 : state) (rx ry : rid) :
  wrap x s = (Ok rx, s1) → wrap y s1 = (Ok ry, s2) →
  scalar_constant s2 rx → tensor_operand s2 ry →
  ∃ e, scalar_switch normal_f scalar_f None x y s = (Raise e, s2) ∧
    e = TypeError "You cannot do this operation on a scalar." ∧
    class_of e = CTypeError.
Proof.
  intros Hx Hy Hsx Hty. eexists. split; [|done].
  by apply (scalar_switch_wrapped normal_f scalar_f None x y s s1 s2 rx ry Hx Hy).
Qed.

(** C8, witness: [add_inplace(5, x)]. *)
Lemma scalar_switch_missing_reverse_witness :
  (scalar_switch (variant "add_elemwise_inplace") (variant "add_scalar_inplace") None
     (VNumber (PyInt 5)) (VResult 1) tensor_state).1
  = Raise (TypeError "You cannot do this operation on a scalar.").
Proof.
  pose (s1 := (wrap (H := integer_numpy) (VNumber (PyInt 5)) tensor_state).2).
  assert (wrap (VNumber (PyInt 5)) tensor_state = (Ok 2%positive, s1)) as Hx
    by (vm_compute; reflexivity).
  assert (wrap (VResult 1) s1 = (Ok 1%positive, s1)) as Hy
    by (vm_compute; reflexivity).
  assert (scalar_constant s1 2%positive) as Hs
    by (split; vm_compute; reflexivity).
  assert (tensor_operand s1 1%positive) as Ht
    by (left; vm_compute; reflexivity).
  destruct (scalar_switch_missing_reverse (H := integer_numpy)
              (variant "add_elemwise_inplace") (variant "add_scalar_inplace")
              (VNumber (PyInt 5)) (VResult 1) tensor_state s1 s1
              2%positive 1%positive Hx Hy Hs Ht)
    as (e & -> & -> & _).
  reflexivity.
Defined.

(** C8, counterexample. The error [add_inplace(5, x)] raises is of the
    class [input] raises for a value that is already a Result: it is the
    built-in [TypeError], not an error of the dispatcher's own. *)
Lemma scalar_switch_error_not_dedicated :
  ¬ (∀ (N : Numpy) (normal_f scalar_f : rid → rid → M state string)
       (x y : pyvalue) (s s1 s2 : state) (rx ry : rid),
       wrap x s = (Ok rx, s1) → wrap y s1 = (Ok ry, s2) →
       scalar_constant s2 rx → tensor_operand s2 ry →
       ∃ e, scalar_switch normal_f scalar_f None x y s = (Raise e, s2) ∧
         ∀ (x' : pyvalue) (s' s'' : state) (e' : exn),
           input x' s' = (Raise e', s'') → class_of e' ≠ class_of e).
Proof.
  intros Hclaim.
  pose (s1 := (wrap (H := integer_numpy) (VNumber (PyInt 5)) tensor_state).2).
  assert (wrap (VNumber (PyInt 5)) tensor_state = (Ok 2%positive, s1)) as Hx
    by (vm_compute; reflexivity).
  assert (wrap (VResult 1) s1 = (Ok 1%positive, s1)) as Hy
    by (vm_compute; reflexivity).
  assert (scalar_constant s1 2%positive) as Hs
    by (split; vm_compute; reflexivity).
  assert (tensor_operand s1 1%positive) as Ht
    by (left; vm_compute; reflexivity).
  destruct (Hclaim integer_numpy (variant "add_elemwise_inplace")
              (variant "add_scalar_inplace")
              (VNumber (PyInt 5)) (VResult 1) tensor_state s1 s1
              2%positive 1%positive Hx Hy Hs Ht)
    as (e & He & Hded).
  assert (e = TypeError "You cannot do this operation on a scalar.") as ->.
  { clear -He. vm_compute in He. by injection He. }
  apply (Hded (VResult 1) tensor_state tensor_state
           (TypeError "<object> is already a result.")); reflexivity.
Qed.

(** ** Specification inference *)

Section inference_facts.
Context `{Numpy}.

Lemma infer_shape_source (linames : list string) (l : list (string * Result))
    (shape : list nat) :
  infer_shape linames l = Some shape →
  ∃ iname input k d, (iname, input) ∈ l ∧ iname ∈ linames ∧
    spec input = Some (k, d, Some shape).
Proof.
  unfold infer_shape.
  cut (∀ acc,
         foldl (λ shape p,
                  if bool_decide (p.1 ∈ linames)
                  then match spec p.2 with Some sp => sp.2 | None => shape end
                  else shape) acc l = Some shape →
         acc = Some shape ∨
         ∃ iname input k d, (iname, input) ∈ l ∧ iname ∈ linames ∧
           spec input = Some (k, d, Some shape)).
  { intros Hcut Hl. by destruct (Hcut None Hl). }
  induction l as [|[iname input] l IH]; intros acc; cbn; [by left|].
  intros Hl. apply IH in Hl as [Hacc|(i' & r' & k & d & Hin & ? & ?)].
  - case_bool_decide as Hloop; [|by left].
    destruct (spec input) as [[[k d] sh]|] eqn:Hsp; [|by left].
    cbn in Hacc. subst sh. right. exists iname, input, k, d.
    split; [apply list_elem_of_here|done].
  - right. exists i', r', k, d. split; [by apply list_elem_of_further|done].
Qed.

Lemma numpy_input_dtypes_spec (l : list (string * Result)) (ds : list dtype) :
  numpy_input_dtypes l = Ok ds →
  Forall2 (λ p d, ∃ k shape, spec p.2 = Some (k, d, shape))
    (filter (λ p, r_class p.2 = NumpyR) l) ds.
Proof.
  revert ds. induction l as [|[iname input] l IH]; intros ds.
  - intros [= <-]. constructor.
  - rewrite filter_cons. unfold numpy_input_dtypes. cbn [foldr snd].
    fold (numpy_input_dtypes l). case_decide as Hcls.
    + rewrite Hcls. destruct (spec input) as [[[k d] sh]|] eqn:Hsp; [|done].
      destruct (numpy_input_dtypes l) as [ds'|]; [|done].
      intros [= <-]. constructor; [by exists k, sh|by apply IH].
    + destruct (r_class input); [done|by apply IH..].
Qed.

Lemma infer_dtype_upcast (l : list (string * Result)) (d : dtype) :
  infer_dtype l = Ok d →
  ∃ d0 ds, numpy_input_dtypes l = Ok (d0 :: ds) ∧ upcast d0 ds = Ok d.
Proof.
  unfold infer_dtype.
  destruct (numpy_input_dtypes l) as [[|d0 ds]|e]; cbn.
  - done.
  - destruct (upcast d0 ds) as [d'|e] eqn:Hup.
    + intros [= <-]. by exists d0, ds.
    + by destruct e.
  - by destruct e.
Qed.

Lemma output_specs_spec (s : state) (dmap : gmap rid (list rid)) (d : dtype)
    (shape : list nat) (outs : list rid) (res : list (option Spec)) :
  output_specs s dmap d shape outs = Ok res →
  length res = length outs ∧
  ∀ i output, outs !! i = Some output →
    (default [] (dmap !! output) = [] →
       res !! i = Some (Some (numpy_ndarray, d, Some shape))) ∧
    (∀ input, dmap !! output = Some [input] →
       res !! i = Some (spec (results s !!! input))).
Proof.
  revert res. induction outs as [|o outs IH]; intros res; cbn.
  - intros [= <-]. split; [done|]. by intros i output ?.
  - destruct (output_spec s dmap d shape o) as [sp|] eqn:Hsp; [|done]. cbn.
    destruct (output_specs s dmap d shape outs) as [res'|]; [|done]. cbn.
    intros [= <-]. destruct (IH res' eq_refl) as [Hlen Hres].
    split; [by cbn; rewrite Hlen|].
    intros [|i] output; cbn; [|by apply Hres].
    intros [= <-]. unfold output_spec in Hsp. split.
    + intros Hnone. rewrite Hnone in Hsp. by injection Hsp as <-.
    + intros input Hin. rewrite Hin in Hsp. cbn in Hsp. by injection Hsp as <-.
Qed.

Lemma output_specs_Ok (s : state) (dmap : gmap rid (list rid)) (d : dtype)
    (shape : list nat) (outs : list rid) :
  (∀ output ins, output ∈ outs → dmap !! output = Some ins → length ins ≤ 1) →
  ∃ res, output_specs s dmap d shape outs = Ok res.
Proof.
  induction outs as [|o outs IH]; intros Hwf; cbn; [by eexists|].
  destruct IH as [res Hres].
  { intros output ins Hin. apply Hwf. by apply list_elem_of_further. }
  rewrite Hres. unfold output_spec.
  destruct (dmap !! o) as [[|input [|? ?]]|] eqn:Ho; cbn; try by eexists.
  specialize (Hwf o _ (list_elem_of_here _ _) Ho). cbn in Hwf. lia.
Qed.

Lemma check_outputs_in_loop_Ok (class_name : string) (onames lonames : list string) :
  onames ⊆ lonames → check_outputs_in_loop class_name onames lonames = Ok tt.
Proof.
  unfold check_outputs_in_loop. induction onames as [|o onames IH]; [done|].
  intros Hsub. cbn. rewrite bool_decide_eq_true_2.
  - apply IH. intros x Hx. apply Hsub. by apply list_elem_of_further.
  - apply Hsub, list_elem_of_here.
Qed.

End inference_facts.



(** ** Loops of stateful steps *)

Lemma foldM_inv {S A B} (f : A → B → M S A) (I : list B → A → S → Prop) (l : list B) :
  (∀ pre b post a s, l = pre ++ b :: post → I pre a s →
     ∃ a' s', f a b s = (Ok a', s') ∧ I (pre ++ [b]) a' s') →
  ∀ a0 s0, I [] a0 s0 → ∃ a' s', foldM f a0 l s0 = (Ok a', s') ∧ I l a' s'.
Proof.
  intros Hstep.
  cut (∀ post pre a s, l = pre ++ post → I pre a s →
         ∃ a' s', foldM f a post s = (Ok a', s') ∧ I l a' s').
  { intros Hcut a0 s0 H0. by apply (Hcut l [] a0 s0). }
  induction post as [|b post IH]; intros pre a s Hl Hpre.
  - rewrite app_nil_r in Hl. subst. by exists a, s.
  - destruct (Hstep pre b post a s Hl Hpre) as (a' & s' & Hf & Ha').
    cbn. rewrite (bind_Ok _ _ _ _ _ Hf). apply (IH (pre ++ [b])); [|done].
    by rewrite <- app_assoc.
Qed.

Lemma foldM_sound {S A B} (f : A → B → M S A) (I : list B → A → S → Prop) (l : list B) :
  (∀ pre b post a s a' s', l = pre ++ b :: post → I pre a s →
     f a b s = (Ok a', s') → I (pre ++ [b]) a' s') →
  ∀ a0 s0 a' s', I [] a0 s0 → foldM f a0 l s0 = (Ok a', s') → I l a' s'.
Proof.
  intros Hstep.
  cut (∀ post pre a s a' s', l = pre ++ post → I pre a s →
         foldM f a post s = (Ok a', s') → I l a' s').
  { intros Hcut a0 s0 a' s' H0. by apply (Hcut l [] a0 s0). }
  induction post as [|b post IH]; intros pre a s a' s' Hl Hpre.
  - rewrite app_nil_r in Hl. subst. by intros [= <- <-].
  - cbn. intros Hrun. apply bind_Ok_inv in Hrun as (a1 & s1 & Hf & Hrun).
    apply (IH (pre ++ [b]) a1 s1); [by rewrite <- app_assoc| |done].
    by eapply Hstep.
Qed.

Lemma for_each_inv {S B} (body : B → M S unit) (I : list B → S → Prop) (l : list B) :
  (∀ pre b post s, l = pre ++ b :: post → I pre s →
     ∃ s', body b s = (Ok tt, s') ∧ I (pre ++ [b]) s') →
  ∀ s0, I [] s0 → ∃ s', for_each body l s0 = (Ok tt, s') ∧ I l s'.
Proof.
  intros Hstep.
  cut (∀ post pre s, l = pre ++ post → I pre s →
         ∃ s', for_each body post s = (Ok tt, s') ∧ I l s').
  { intros Hcut s0 H0. by apply (Hcut l [] s0). }
  induction post as [|b post IH]; intros pre s Hl Hpre.
  - rewrite app_nil_r in Hl. subst. by exists s.
  - destruct (Hstep pre b post s Hl Hpre) as (s' & Hf & Hs').
    cbn. rewrite (bind_Ok _ _ _ _ _ Hf). apply (IH (pre ++ [b])); [|done].
    by rewrite <- app_assoc.
Qed.

(** ** Allocation of destroyed outputs *)

Section alloc_facts.
Context `{Numpy}.
Variable PythonOp_alloc : omega_op → list rid → M state unit.
Variable PythonR_set_value : rid → pyvalue → M state unit.

Lemma NumpyR_set_value_plain (r : rid) (v : pyvalue) (s : state) :
  plain_data s v →
  ∃ o' s', NumpyR_set_value r v s = (Ok tt, s') ∧
    results s' = <[r := o']> (results s) ∧ arrays s' = arrays s ∧
    data o' = v ∧ r_class o' = r_class (results s !!! r).
Proof.
  intros [->|(a & -> & Hex)];
    unfold NumpyR_set_value, np_asarray, NumpyR_refresh, update_result,
      get_result, get_array, modify, gets;
    unfold mbind, M_bind, mret, M_ret; cbn;
    rewrite ?Hex; cbn; rewrite ?lookup_total_insert_eq; cbn;
    rewrite ?lookup_total_insert_eq; cbn; rewrite !insert_insert_eq;
    eexists _, _; (split; [done|]); cbn; done.
Qed.

Lemma elem_of_map_to_list_fst `{Countable K} {V} (m : gmap K V) (k : K) :
  k ∈ (map_to_list m).*1 ↔ is_Some (m !! k).
Proof.
  rewrite list_elem_of_fmap. split.
  - intros ([k' v] & -> & Hin). apply elem_of_map_to_list in Hin. by exists v.
  - intros [v Hv]. exists (k, v). split; [done|]. by apply elem_of_map_to_list.
Qed.

Lemma lookup_total_eq (m1 m2 : gmap rid Result) (r : rid) :
  m1 !! r = m2 !! r → m1 !!! r = m2 !!! r.
Proof. intros Heq. unfold lookup_total, map_lookup_total. by rewrite Heq. Qed.

Lemma alloc_loop (dmap : gmap rid (list rid)) (except_list : list rid) (s0 : state) :
  alloc_ready s0 dmap →
  ∃ s1,
    for_each (alloc_output PythonR_set_value except_list) (map_to_list dmap) s0
    = (Ok tt, s1) ∧
    arrays s1 = arrays s0 ∧
    (∀ r, dmap !! r = None → results s1 !! r = results s0 !! r) ∧
    (∀ out inp, dmap !! out = Some [inp] → out ∉ except_list →
       data (results s1 !!! out) = data (results s0 !!! inp)).
Proof.
  intros Hready.
  pose proof (NoDup_fst_map_to_list dmap) as Hnd.
  destruct (for_each_inv (alloc_output PythonR_set_value except_list)
    (λ pre s,
       arrays s = arrays s0 ∧
       (∀ r, r ∉ pre.*1 → results s !! r = results s0 !! r) ∧
       (∀ out inp, (out, [inp]) ∈ pre → out ∉ except_list →
          data (results s !!! out) = data (results s0 !!! inp)) ∧
       (∀ r, r_class (results s !!! r) = r_class (results s0 !!! r)))
    (map_to_list dmap)) with (s0 := s0) as (s1 & Hrun & Harr & Hout & Hdata & _).
  - intros pre [out ins] post s Hl (Harr & Hout & Hdata & Hcls).
    assert (dmap !! out = Some ins) as Hentry.
    { apply elem_of_map_to_list. rewrite Hl. set_solver. }
    destruct (Hready out ins Hentry) as (input & -> & Hnumpy & Hin & Hplain).
    assert (out ∉ pre.*1) as Hfresh.
    { rewrite Hl, fmap_app in Hnd. apply NoDup_app in Hnd as (_ & Hdis & _).
      intros Hc. apply (Hdis out Hc). cbn. set_solver. }
    assert (input ∉ pre.*1) as Hinfresh.
    { intros Hc. assert (input ∈ (map_to_list dmap).*1) as Hc'.
      { rewrite Hl, fmap_app. set_solver. }
      apply elem_of_map_to_list_fst in Hc' as [? ?]. congruence. }
    unfold alloc_output. cbn [fst snd]. case_bool_decide as Hex.
    + exists s. split; [done|]. split; [done|]. split; [|split; [|done]].
      * intros r Hr. apply Hout. rewrite fmap_app in Hr. set_solver.
      * intros out' inp'. rewrite elem_of_app, list_elem_of_singleton.
        intros [Hpre|[= -> ->]] Hne; [by apply Hdata|done].
    + rewrite (bind_Ok (get_result input) _ s s _ eq_refl).
      unfold set_value. rewrite (bind_Ok (get_result out) _ s s _ eq_refl).
      rewrite Hcls, Hnumpy.
      assert (results s !!! input = results s0 !!! input) as Hsame
        by by apply lookup_total_eq, Hout.
      destruct (NumpyR_set_value_plain out (data (results s !!! input)) s)
        as (o' & s' & Hset & Hres & Harr' & Hd & Hc).
      { rewrite Hsame. unfold plain_data in *. by rewrite Harr. }
      exists s'. split; [done|]. split; [congruence|].
      split; [|split].
      * intros r Hr. rewrite fmap_app in Hr. rewrite Hres, lookup_insert_ne.
        -- apply Hout. set_solver.
        -- intros <-. set_solver.
      * intros out' inp'. rewrite elem_of_app, list_elem_of_singleton.
        intros [Hpre|[= -> ->]] Hne.
        -- rewrite Hres, lookup_total_insert_ne; [by apply Hdata|].
           intros <-. apply Hfresh. apply list_elem_of_fmap.
           by exists (out, [inp']).
        -- by rewrite Hres, lookup_total_insert_eq, Hd, Hsame.
      * intros r. rewrite Hres. destruct (decide (r = out)) as [->|Hne].
        -- by rewrite lookup_total_insert_eq, Hc.
        -- by rewrite lookup_total_insert_ne.
  - split; [done|]. split; [done|]. split; [|done].
    by intros ?? ?%elem_of_nil.
  - exists s1. split; [done|]. split; [done|]. split.
    + intros r Hr. apply Hout. intros [? ?]%elem_of_map_to_list_fst. congruence.
    + intros out inp Hentry. apply Hdata. by apply elem_of_map_to_list.
Qed.
End alloc_facts.

(** ** The derived in-place implementation *)

Section inplace_facts.
Context `{Numpy}.

Lemma lookup_total_Some (m : gmap loc array) (a : loc) (c : array) :
  m !! a = Some c → m !!! a = c.
Proof. intros Ha. unfold lookup_total, map_lookup_total. by rewrite Ha. Qed.

Lemma setslice_results (a v : pyvalue) (s s' : state) (res : result unit) :
  setslice a v s = (res, s') → results s' = results s.
Proof.
  destruct a as [|la|n|r|out|o]; cbn;
    try (unfold lift; by intros [= _ <-]).
  unfold mbind, M_bind, get_array, gets, lift, set_array, modify.
  destruct v as [|lv|n|r|out|o]; cbn;
    repeat match goal with
           | |- context [np_array ?x] => destruct (np_array x)
           | |- context [np_setslice ?x ?y] => destruct (np_setslice x y)
           end; cbn; by intros [= _ <-].
Qed.

Lemma setslice_arrays (a b : loc) (ca cb c : array) (s : state) :
  arrays s !! a = Some ca → arrays s !! b = Some cb → np_setslice ca cb = Ok c →
  setslice (VNdarray a) (VNdarray b) s
  = (Ok tt, {| results := results s; arrays := <[a := c]> (arrays s);
               literals_db := literals_db s; literals_id_db := literals_id_db s |}).
Proof.
  intros Ha Hb Hc. cbn.
  unfold mbind, M_bind, get_array, gets, lift, set_array, modify. cbn.
  by rewrite (lookup_total_Some _ _ _ Ha), (lookup_total_Some _ _ _ Hb), Hc.
Qed.

(** Whenever the loop of the derived [_impl] completes, the Results are as
    before and the item of every destroyed output is the data of its
    input: the same object. *)
Lemma inplace_loop_handles (dmap : gmap nat nat) (ins : list rid)
    (seq0 seq1 : bool * list pyvalue) (s0 s1 : state) :
  foldM (inplace_step ins) seq0 (map_to_list dmap) s0 = (Ok seq1, s1) →
  results s1 = results s0 ∧
  ∀ o i r, dmap !! o = Some i → ins !! i = Some r →
    seq1.2 !! o = Some (data (results s0 !!! r)).
Proof.
  intros Hrun.
  pose proof (NoDup_fst_map_to_list dmap) as Hnd.
  destruct (foldM_sound (inplace_step ins)
    (λ pre seq s,
       results s = results s0 ∧
       ∀ o i r, (o, i) ∈ pre → ins !! i = Some r →
         seq.2 !! o = Some (data (results s0 !!! r)))
    (map_to_list dmap)) with (a0 := seq0) (s0 := s0) (a' := seq1) (s' := s1)
    as [Hres Hitems]; [| |done|].
  - intros pre [o i] post [tup items] s seq' s' Hl [Hres Hitems] Hstep.
    assert (o ∉ pre.*1) as Hfresh.
    { rewrite Hl, fmap_app in Hnd. apply NoDup_app in Hnd as (_ & Hdis & _).
      intros Hc. apply (Hdis o Hc). cbn. set_solver. }
    unfold inplace_step in Hstep. cbn [fst snd] in Hstep.
    apply bind_Ok_inv in Hstep as (input & s2 & Hin & Hstep).
    unfold lift in Hin. injection Hin as Hin <-.
    apply bind_Ok_inv in Hstep as (ob & s2 & Hob & Hstep).
    injection Hob as <- <-.
    apply bind_Ok_inv in Hstep as (v & s2 & Hv & Hstep).
    unfold lift in Hv. injection Hv as Hv <-.
    apply bind_Ok_inv in Hstep as ([] & s2 & Hset & Hstep).
    apply setslice_results in Hset as Hres2.
    destruct tup; [done|]. injection Hstep as <- <-.
    split; [congruence|]. cbn [snd].
    unfold list_getitem in Hin, Hv.
    destruct (ins !! i) as [input'|] eqn:Hi; [|done]. injection Hin as ->.
    destruct (items !! o) as [v'|] eqn:Ho; [|done].
    apply lookup_lt_Some in Ho.
    intros o' i' r. rewrite elem_of_app, list_elem_of_singleton.
    intros [Hpre|[= -> ->]] Hr.
    + rewrite list_lookup_insert_ne; [by eapply Hitems|].
      intros <-. apply Hfresh. apply list_elem_of_fmap. by exists (o, i').
    + rewrite list_lookup_insert_eq by done. rewrite Hres. congruence.
  - split; [done|]. by intros ??? ?%elem_of_nil.
  - split; [done|]. intros o i r Hentry. apply Hitems.
    by apply elem_of_map_to_list.
Qed.

(** The loop completes when the copies go from fresh results into
    pairwise distinct buffers; the buffers then hold what was copied. *)
Lemma inplace_loop_runs (dmap : gmap nat nat) (ins : list rid)
    (items0 : list pyvalue) (s0 : state) (buf fr : nat → loc) (new : nat → array) :
  (∀ o i, dmap !! o = Some i →
     copies_into s0 ins items0 o i (buf o) (fr o) (new o)) →
  (∀ o o', is_Some (dmap !! o) → is_Some (dmap !! o') → o ≠ o' → buf o ≠ buf o') →
  (∀ o o', is_Some (dmap !! o) → is_Some (dmap !! o') → buf o ≠ fr o') →
  ∃ items1 s1,
    foldM (inplace_step ins) (false, items0) (map_to_list dmap) s0
    = (Ok (false, items1), s1) ∧
    length items1 = length items0 ∧
    (∀ o, is_Some (dmap !! o) →
       items1 !! o = Some (VNdarray (buf o)) ∧ arrays s1 !! buf o = Some (new o)) ∧
    (∀ o, dmap !! o = None → items1 !! o = items0 !! o) ∧
    (∀ l, (∀ o, is_Some (dmap !! o) → l ≠ buf o) → arrays s1 !! l = arrays s0 !! l).
Proof.
  intros Hcopy Hdistinct Hfresh.
  pose proof (NoDup_fst_map_to_list dmap) as Hnd.
  destruct (foldM_inv (inplace_step ins)
    (λ pre seq s,
       seq.1 = false ∧ results s = results s0 ∧ length seq.2 = length items0 ∧
       (∀ o, o ∈ pre.*1 →
          seq.2 !! o = Some (VNdarray (buf o)) ∧ arrays s !! buf o = Some (new o)) ∧
       (∀ o, o ∉ pre.*1 → seq.2 !! o = items0 !! o) ∧
       (∀ l, (∀ o, o ∈ pre.*1 → l ≠ buf o) → arrays s !! l = arrays s0 !! l))
    (map_to_list dmap)) with (a0 := (false, items0)) (s0 := s0)
    as ([tup items1] & s1 & Hrun & Htup & _ & Hlen & Hdone & Hrest & Hframe).
  - intros pre [o i] post [tup items] s Hl (Htup & Hres & Hlen & Hdone & Hrest & Hframe).
    cbn [fst snd] in *. subst tup.
    assert (∀ o', o' ∈ pre.*1 → is_Some (dmap !! o')) as Hpre.
    { intros o' Ho'. apply elem_of_map_to_list_fst. rewrite Hl, fmap_app. set_solver. }
    assert (dmap !! o = Some i) as Hentry.
    { apply elem_of_map_to_list. rewrite Hl. set_solver. }
    assert (o ∉ pre.*1) as Hnew.
    { rewrite Hl, fmap_app in Hnd. apply NoDup_app in Hnd as (_ & Hdis & _).
      intros Hc. apply (Hdis o Hc). cbn. set_solver. }
    destruct (Hcopy o i Hentry) as (r & ca & cb & Hi & Hdata & Ho & Ha & Hb & Hset & _).
    assert (arrays s !! buf o = Some ca) as Ha'.
    { rewrite Hframe; [done|]. intros o' Ho' Heq.
      apply (Hdistinct o o'); [by eexists|by apply Hpre|by intros ->|done]. }
    assert (arrays s !! fr o = Some cb) as Hb'.
    { rewrite Hframe; [done|]. intros o' Ho' Heq.
      apply (Hfresh o' o); [by apply Hpre|by eexists|done]. }
    assert (items !! o = Some (VNdarray (fr o))) as Ho' by by rewrite Hrest.
    eexists (false, <[o := VNdarray (buf o)]> items), _. split.
    { unfold inplace_step. cbn [fst snd].
      unfold list_getitem. rewrite Hi, Ho'.
      rewrite (bind_Ok (lift (Ok r)) _ s s r eq_refl).
      rewrite (bind_Ok (get_result r) _ s s _ eq_refl).
      rewrite (bind_Ok (lift (Ok (VNdarray (fr o)))) _ s s _ eq_refl).
      rewrite Hres, Hdata.
      by rewrite (bind_Ok _ _ _ _ _ (setslice_arrays _ _ _ _ _ s Ha' Hb' Hset)). }
    cbn [fst snd results arrays].
    split; [done|]. split; [done|]. split; [by rewrite length_insert|].
    apply lookup_lt_Some in Ho'.
    split; [|split].
    + intros o'. rewrite fmap_app, elem_of_app. cbn.
      rewrite list_elem_of_singleton.
      intros [Hin| ->].
      * assert (o' ≠ o) by (by intros ->).
        rewrite list_lookup_insert_ne by done.
        rewrite lookup_insert_ne.
        -- by apply Hdone.
        -- apply (Hdistinct o o'); [by eexists|by apply Hpre|done].
      * by rewrite list_lookup_insert_eq, lookup_insert_eq.
    + intros o' Ho''. rewrite fmap_app, elem_of_app in Ho''. cbn in Ho''.
      rewrite list_elem_of_singleton in Ho''.
      rewrite list_lookup_insert_ne by (intros ->; tauto).
      apply Hrest. tauto.
    + intros l Hl'. rewrite lookup_insert_ne.
      * apply Hframe. intros o' Ho''. apply Hl'. rewrite fmap_app. set_solver.
      * intros <-. apply (Hl' o); [|done]. rewrite fmap_app. set_solver.
  - cbn. split; [done|]. split; [done|]. split; [done|].
    split; [by intros ? ?%elem_of_nil|]. split; [done|done].
  - cbn [fst snd] in *. subst tup. exists items1, s1.
    split; [done|]. split; [done|]. split; [|split].
    + intros o Ho. by apply Hdone, elem_of_map_to_list_fst.
    + intros o Ho. apply Hrest. intros [? ?]%elem_of_map_to_list_fst. congruence.
    + intros l Hl. apply Hframe. intros o Ho. by apply Hl, elem_of_map_to_list_fst.
Qed.

(** [impl_item] of what the derived [_impl] returns from the final items. *)
Lemma impl_item_return (tup : bool) (items : list pyvalue) (o : nat) :
  impl_item (match items with
             | [v] => One v
             | l => if tup then PyTuple l else PyList l
             end) o = items !! o.
Proof. destruct items as [|v [|w items]]; by destruct tup. Qed.

Lemma impl_item_as_sequence (v : impl_value) (o : nat) :
  (as_sequence v).2 !! o = impl_item v o.
Proof. by destruct v. Qed.

End inplace_facts.

Section derived_class.
Context `{Numpy}.

Lemma inplace_destroy_map_entries (cls : elemwise) (dmap : gmap nat nat) :
  is_inplace cls = false →
  NoDup (outputs cls) →
  (∀ o i, dmap !! o = Some i → o < length (outputs cls) ∧ i < length (inputs cls)) →
  ∃ m, inplace_destroy_map cls dmap = Ok m ∧
    ∀ out ins, m !! out = Some ins ↔
      ∃ o i inp, dmap !! o = Some i ∧ outputs cls !! o = Some out ∧
        inputs cls !! i = Some inp ∧ ins = [inp].
Proof.
  intros Hbase Hnd Hrange. unfold inplace_destroy_map. rewrite Hbase. cbn.
  pose proof (NoDup_fst_map_to_list dmap) as Hkeys.
  destruct (foldl_result_inv
    (λ ret p,
       ret ← ret;
       output ← list_getitem (outputs cls) p.1;
       input ← list_getitem (inputs cls) p.2;
       Ok (<[output := [input]]> ret))
    (λ pre (m : gmap rid (list rid)),
       ∀ out ins, m !! out = Some ins ↔
         ∃ o i inp, (o, i) ∈ pre ∧ outputs cls !! o = Some out ∧
           inputs cls !! i = Some inp ∧ ins = [inp])
    (map_to_list dmap)) with (a0 := (∅ : gmap rid (list rid))) as (m & Hm & Hspec).
  - intros pre [o i] post m Hl Hinv.
    assert (dmap !! o = Some i) as Hentry.
    { apply elem_of_map_to_list. rewrite Hl. set_solver. }
    destruct (Hrange o i Hentry) as [Ho Hi].
    destruct (lookup_lt_is_Some_2 _ _ Ho) as [out Hout].
    destruct (lookup_lt_is_Some_2 _ _ Hi) as [inp Hinp].
    exists (<[out := [inp]]> m). split.
    { cbn. unfold list_getitem. by rewrite Hout, Hinp. }
    assert (o ∉ pre.*1) as Hnew.
    { rewrite Hl, fmap_app in Hkeys. apply NoDup_app in Hkeys as (_ & Hdis & _).
      intros Hc. apply (Hdis o Hc). cbn. set_solver. }
    intros out' ins'. destruct (decide (out = out')) as [<-|Hne].
    + rewrite lookup_insert_eq. split.
      * intros [= <-]. exists o, i, inp. set_solver.
      * intros (o' & i' & inp' & Hin & Hout' & Hinp' & ->).
        assert (o' = o) as -> by by apply (NoDup_lookup _ _ _ _ Hnd Hout' Hout).
        apply elem_of_app in Hin as [Hin|[= ->]%list_elem_of_singleton].
        -- exfalso. apply Hnew. apply list_elem_of_fmap. by exists (o, i').
        -- congruence.
    + rewrite lookup_insert_ne by done. rewrite Hinv. split.
      * intros (o' & i' & inp' & ? & ? & ? & ?). exists o', i', inp'. set_solver.
      * intros (o' & i' & inp' & Hin & Hout' & ? & ?).
        apply elem_of_app in Hin as [Hin|[= -> ->]%list_elem_of_singleton].
        -- by exists o', i', inp'.
        -- congruence.
  - intros out ins. rewrite lookup_empty. split; [done|].
    by intros (? & ? & ? & ?%elem_of_nil & _).
  - exists m. split; [done|]. intros out ins. rewrite Hspec. split.
    + intros (o & i & inp & Hin%elem_of_map_to_list & ?). by exists o, i, inp.
    + intros (o & i & inp & Hin%elem_of_map_to_list & ?). by exists o, i, inp.
Qed.
End derived_class.



Lemma twice_impl_copies :
  ∃ s0, PythonOp__impl twice_impl [1%positive] tensor_state
        = (Ok (One (VNdarray 2)), s0) ∧
    ∀ o i, ({[ 0 := 0 ]} : gmap nat nat) !! o = Some i →
      copies_into s0 [1%positive] [VNdarray 2] o i 1%positive 2%positive doubled.
Proof.
  exists (PythonOp__impl twice_impl [1%positive] tensor_state).2.
  split; [by vm_compute|].
  intros o i [<- <-]%lookup_singleton_Some.
  eexists 1%positive, _, _.
  split; [reflexivity|]. split; [by vm_compute|]. split; [reflexivity|].
  split; [by vm_compute|]. split; [by vm_compute|]. split; by vm_compute.
Qed.




(** ** Gradient accumulation *)

Lemma map_result_length {A B} (f : A → result B) (l : list A) (bs : list B) :
  map_result f l = Ok bs →
  length bs = length l ∧ ∀ i a, l !! i = Some a → ∃ b, f a = Ok b ∧ bs !! i = Some b.
Proof.
  revert bs. induction l as [|a l IH]; intros bs; cbn.
  - intros [= <-]. split; [done|]. by intros i a ?.
  - destruct (f a) as [b|] eqn:Hb; [|done]. cbn.
    destruct (map_result f l) as [bs'|]; [|done]. cbn. intros [= <-].
    destruct (IH bs' eq_refl) as [Hlen Hitems].
    split; [by cbn; rewrite Hlen|].
    intros [|i] a'; cbn; [|by apply Hitems].
    intros [= <-]. by exists b.
Qed.



(** * Further properties of [core.py] *)

(** ** Names of loop variables *)

Lemma substring_full (s : string) : String.substring 0 (String.length s) s = s.
Proof. induction s as [|c s IH]; [done|]. exact (f_equal (String c) IH). Qed.

Lemma substring_split (s : string) (k : nat) :
  k ≤ String.length s →
  String.substring 0 k s +:+ String.substring k (String.length s - k) s = s.
Proof.
  revert k. induction s as [|c s IH]; intros [|k] Hk; cbn in Hk; try done; try lia.
  - exact (substring_full (String c s)).
  - exact (f_equal (String c) (IH k ltac:(lia))).
Qed.

Lemma substring_length (s : string) (k : nat) :
  k ≤ String.length s → String.length (String.substring 0 k s) = k.
Proof.
  revert k. induction s as [|c s IH]; intros [|k] Hk; cbn in *; try done; try lia.
  rewrite IH; lia.
Qed.

Lemma extract_name_loop_var (name : string) :
  is_loop_var name = true → extract_name name +:+ "_i" = name.
Proof.
  intros Hloop. unfold extract_name. rewrite Hloop.
  unfold is_loop_var in Hloop. cbn zeta in Hloop.
  apply andb_true_iff in Hloop as [Hlen Hsuffix].
  apply Nat.leb_le in Hlen. apply String.eqb_eq in Hsuffix.
  pose proof (substring_split name (String.length name - 2) ltac:(lia)) as Hsplit.
  replace (String.length name - (String.length name - 2)) with 2 in Hsplit by lia.
  by rewrite Hsuffix in Hsplit.
Qed.

Lemma fmap_extract_name_loop_vars (l : list string) :
  (λ v, v +:+ "_i") <$> (extract_name <$> filter (λ n, is_loop_var n = true) l)
  = filter (λ n, is_loop_var n = true) l.
Proof.
  induction l as [|n l IH]; [done|].
  rewrite filter_cons. case_decide as Hn; [|done].
  cbn. by rewrite IH, extract_name_loop_var.
Qed.

(** X1. The C identifiers the loop body declares for the loop variables are
    the parameter names of [c_foreach] that end in [_i], in order: stripping
    the suffix in [loop_variables] and printing [%(loop_var)s_i] in
    [elemwise_loopcode] cancel out. A name without the suffix is kept as it
    is by [extract_name], and a name with it loses exactly two characters. *)
Theorem loop_variables_declare_foreach_names (foreach_args : list string * list string) :
  let lv := elemwise_loop_variables foreach_args in
  (λ v, v +:+ "_i") <$> lv.1 = filter (λ n, is_loop_var n = true) foreach_args.1 ∧
  (λ v, v +:+ "_i") <$> lv.2 = filter (λ n, is_loop_var n = true) foreach_args.2 ∧
  (∀ acquire v, ∃ rest,
     idef_line acquire v = v +:+ "_dtype " +:+ (v +:+ "_i") +:+ rest ∧
     odef_line acquire v = v +:+ "_dtype& " +:+ (v +:+ "_i") +:+ rest) ∧
  ∀ name,
    if is_loop_var name
    then extract_name name +:+ "_i" = name ∧
         String.length (extract_name name) + 2 = String.length name
    else extract_name name = name.
Proof.
  cbn zeta. unfold elemwise_loop_variables. cbn [fst snd].
  split; [apply fmap_extract_name_loop_vars|].
  split; [apply fmap_extract_name_loop_vars|].
  split.
  { intros acquire v. exists (" = " +:+ acquire v +:+ ";" +:+ nl).
    unfold idef_line, odef_line. by rewrite !append_assoc. }
  intros name. destruct (is_loop_var name) eqn:Hloop.
  - split; [by apply extract_name_loop_var|].
    unfold extract_name. rewrite Hloop.
    unfold is_loop_var in Hloop. cbn zeta in Hloop.
    apply andb_true_iff in Hloop as [Hlen _]. apply Nat.leb_le in Hlen.
    rewrite substring_length; lia.
  - unfold extract_name. by rewrite Hloop.
Qed.

(** X2. [variable_names] returns the stripped parameter names of [c_foreach],
    or raises [AssertionError] when [c_init] or [c_finalize] is overridden
    with other parameter names; whenever it returns, the loop variables of
    [loop_variables] are among the variable names, inputs among inputs and
    outputs among outputs, in the same order. *)
Theorem loop_variables_among_variable_names (foreach_args : list string * list string)
    (init_args finalize_args : option (list string * list string)) :
  let stripped := (extract_name <$> foreach_args.1, extract_name <$> foreach_args.2) in
  let lv := elemwise_loop_variables foreach_args in
  match elemwise_variable_names foreach_args init_args finalize_args with
  | Ok names =>
      names = stripped ∧
      (∀ a, init_args = Some a → a = stripped) ∧
      (∀ a, finalize_args = Some a → a = stripped) ∧
      lv.1 `sublist_of` names.1 ∧ lv.2 `sublist_of` names.2
  | Raise e =>
      e = AssertionError ∧
      ∃ a, (init_args = Some a ∨ finalize_args = Some a) ∧ a ≠ stripped
  end.
Proof.
  cbn zeta. unfold elemwise_variable_names, elemwise_loop_variables, argspec_eqb, py_assert.
  cbn [fst snd].
  assert (∀ l : list string,
    extract_name <$> filter (λ n, is_loop_var n = true) l `sublist_of` extract_name <$> l)
    as Hsub by (intros l; apply fmap_sublist, sublist_filter).
  destruct init_args as [a|]; [case_bool_decide as Ha|];
    (destruct finalize_args as [b|]; [case_bool_decide as Hb|]); cbn;
    try (split; [done|]; split; [by intros ? [= <-]|]; split; [by intros ? [= <-]|];
         split; apply Hsub);
    try (split; [done|]; split; [by intros ? [= <-]|]; split; [done|]; split; apply Hsub);
    try (split; [done|]; split; [done|]; split; [by intros ? [= <-]|]; split; apply Hsub);
    try (split; [done|]; split; [done|]; split; [done|]; split; apply Hsub).
  all: split; [done|];
    first [ exists a; split; [by left|congruence]
          | exists b; split; [by right|congruence] ].
Qed.

(** ** Binding of kernel variables *)

Lemma foldl_insert_notin `{Countable K} {V} (l : list (K * V)) (d : gmap K V) (k : K) :
  k ∉ l.*1 → foldl (λ d p, <[p.1 := p.2]> d) d l !! k = d !! k.
Proof.
  revert d. induction l as [|[k' v'] l IH]; intros d Hk; [done|].
  cbn. rewrite IH by set_solver. rewrite lookup_insert_ne; [done|]. set_solver.
Qed.

Lemma dict_of_pairs_NoDup `{Countable K} {V} (l : list (K * V)) (k : K) (v : V) :
  NoDup l.*1 → (k, v) ∈ l → dict_of_pairs l !! k = Some v.
Proof.
  unfold dict_of_pairs. generalize (∅ : gmap K V).
  induction l as [|[k' v'] l IH]; intros d Hnd Hin; [by apply elem_of_nil in Hin|].
  cbn in Hnd. apply NoDup_cons in Hnd as [Hk' Hnd].
  apply elem_of_cons in Hin as [[= -> ->]|Hin]; cbn.
  - rewrite foldl_insert_notin by done. by rewrite lookup_insert_eq.
  - by apply IH.
Qed.

Lemma foldl_insert_None `{Countable K} {V} (l : list (K * V)) (d : gmap K V) (k : K) :
  foldl (λ d p, <[p.1 := p.2]> d) d l !! k = None → d !! k = None ∧ k ∉ l.*1.
Proof.
  revert d. induction l as [|[k' v'] l IH]; intros d; cbn.
  - intros Hd. split; [done|]. apply not_elem_of_nil.
  - intros [[Hd Hne]%lookup_insert_None Hl]%IH. cbn in Hne.
    split; [done|]. set_solver.
Qed.

Lemma dict_of_pairs_None `{Countable K} {V} (l : list (K * V)) (k : K) :
  dict_of_pairs l !! k = None ↔ k ∉ l.*1.
Proof.
  unfold dict_of_pairs. split.
  - by intros [_ ?]%foldl_insert_None.
  - intros Hk. by rewrite foldl_insert_notin.
Qed.

Lemma fst_zip_take {A B} (l : list A) (k : list B) :
  (zip l k).*1 = take (length k) l.
Proof.
  revert k. induction l as [|a l IH]; intros [|b k]; cbn; try done.
  by rewrite IH.
Qed.

Section binding.
Context `{Toolchain}.
Variable data_of : rid → Data.

Lemma cgen_Ok (name behavior : string) (names : list string) (vals : list rid)
    (converters : option (list converter)) (g : cgen_result) :
  cgen data_of name behavior names vals converters = Ok g →
  cg_names g = names ∧ cg_d g = dict_of_pairs (zip names (data_of <$> vals)).
Proof.
  unfold cgen, py_assert.
  destruct (forallb _ _); cbn; [|done]. by intros [= <-].
Qed.

(** X3. Whenever [elemwise.c_code] returns, the names it hands on are the input
    names followed by the output names, and, these being distinct, each is
    bound to the data of the Result at the same position of
    [self.inputs + self.outputs]; a name past the last Result is not bound.
    So an output name is bound to its output when there are as many input
    names as inputs. *)
Theorem c_code_binds_names_by_position (op : elemwise)
    (converters : option (list converter)) (g : cgen_result)
    (inames onames : list string) :
  elemwise_c_code data_of op converters = Ok g →
  variable_names op = Ok (inames, onames) →
  NoDup (inames ++ onames) →
  cg_names g = inames ++ onames ∧
  (∀ p n r, (inames ++ onames) !! p = Some n →
     (inputs op ++ outputs op) !! p = Some r →
     cg_d g !! n = Some (data_of r)) ∧
  (∀ n, cg_d g !! n = None
     ↔ n ∉ take (length (inputs op ++ outputs op)) (inames ++ onames)) ∧
  (length inames = length (inputs op) →
   ∀ j n r, onames !! j = Some n → outputs op !! j = Some r →
     cg_d g !! n = Some (data_of r)).
Proof.
  intros Hcode Hnames Hnd. unfold elemwise_c_code in Hcode.
  destruct (elemwise_behavior op) as [behavior|]; [|done]. cbn in Hcode.
  rewrite Hnames in Hcode. cbn in Hcode.
  apply cgen_Ok in Hcode as [Hn Hd].
  assert (∀ p n r, (inames ++ onames) !! p = Some n →
     (inputs op ++ outputs op) !! p = Some r →
     cg_d g !! n = Some (data_of r)) as Hpos.
  { intros p n r Hp Hr. rewrite Hd. apply dict_of_pairs_NoDup.
    - rewrite fst_zip_take. eapply sublist_NoDup; [done|apply sublist_take].
    - apply list_elem_of_lookup. exists p. apply lookup_zip_Some.
      split; [done|]. by rewrite list_lookup_fmap, Hr. }
  split; [done|]. split; [done|]. split.
  - intros n. rewrite Hd, dict_of_pairs_None, fst_zip_take. by rewrite length_fmap.
  - intros Hlen j n r Hj Hr. apply (Hpos (length inames + j)).
    + by rewrite lookup_app_r, Nat.add_sub' by lia.
    + rewrite Hlen. by rewrite lookup_app_r, Nat.add_sub' by lia.
Qed.

(** X4. [elemwise.c_code] refuses an operator that defines [c_impl]; it hands
    on whatever [c_foreach] raises, so an operator that leaves [c_foreach]
    undefined has no native code; and whenever it returns, [c_impl] was
    undefined, [c_init], [c_foreach] and [c_finalize] returned, and at
    least one loop variable keeps an iterator. *)
Theorem elemwise_c_code_requirements (op : elemwise)
    (converters : option (list converter)) :
  (∀ b, c_impl op = Ok b →
     elemwise_c_code data_of op converters
     = Raise (Exception
         "c_impl is not used by elemwise ops - define behavior in c_foreach instead")) ∧
  (∀ before e, c_impl op = Raise NotImplementedError → c_init op = Ok before →
     c_foreach op = Raise e →
     elemwise_c_code data_of op converters = Raise e) ∧
  (∀ g, elemwise_c_code data_of op converters = Ok g →
     c_impl op = Raise NotImplementedError ∧
     ∃ before during after names lnames aliases,
       c_init op = Ok before ∧ c_foreach op = Ok during ∧ c_finalize op = Ok after ∧
       variable_names op = Ok names ∧ loop_variables op = Ok lnames ∧
       c_code_aliases op names.1 names.2 lnames.2 = Ok aliases ∧
       independent_loop_vars lnames.1 aliases ++ lnames.2 ≠ []).
Proof.
  unfold elemwise_c_code, elemwise_behavior. split; [|split].
  - by intros b ->.
  - by intros before e -> -> ->.
  - intros g Hcode.
    destruct (c_impl op) as [b|[]]; try done.
    split; [done|].
    destruct (c_init op) as [before|]; [|done].
    destruct (c_foreach op) as [during|]; [|done].
    destruct (c_finalize op) as [after|]; [|done].
    destruct (variable_names op) as [names|]; [|done].
    destruct (loop_variables op) as [lnames|]; [|done].
    cbn in Hcode.
    destruct (c_code_aliases op names.1 names.2 lnames.2) as [aliases|] eqn:Hal; [|done].
    cbn in Hcode.
    exists before, during, after, names, lnames, aliases.
    repeat (split; [done|]).
    intros Hnil. unfold elemwise_wrap, list_getitem in Hcode.
    by rewrite Hnil in Hcode.
Qed.
End binding.

(** X3, witness: [add_elemwise(x, y)] under the stand-in toolchain binds [x] to
    the first input and [z] to the output. *)
Lemma c_code_binds_names_by_position_witness :
  ∃ g, elemwise_c_code (H := handle_toolchain) id add_elemwise_x_y None = Ok g ∧
    cg_names g = ["x"; "y"; "z"] ∧
    cg_d g !! "x" = Some 1%positive ∧ cg_d g !! "z" = Some 3%positive.
Proof.
  eexists. split; [reflexivity|].
  destruct (c_code_binds_names_by_position (H := handle_toolchain) id
              add_elemwise_x_y None _ ["x"; "y"] ["z"] eq_refl eq_refl)
    as (Hn & Hpos & _ & Hout).
  { apply (bool_decide_unpack _). by vm_compute. }
  split; [exact Hn|]. split.
  - exact (Hpos 0 "x" 1%positive eq_refl eq_refl).
  - exact (Hout eq_refl 0 "z" 3%positive eq_refl eq_refl).
Defined.

(** X4, witness: an elementwise operator that defines [c_impl] is refused. *)
Lemma elemwise_c_code_requirements_witness :
  elemwise_c_code (H := handle_toolchain) id add_elemwise_with_c_impl None
  = Raise (Exception
      "c_impl is not used by elemwise ops - define behavior in c_foreach instead").
Proof.
  exact (proj1 (elemwise_c_code_requirements (H := handle_toolchain) id
                  add_elemwise_with_c_impl None) "z = x + y;" eq_refl).
Defined.

(** ** Interning of literals *)

Section literal_facts.
Context `{Numpy}.

Lemma literal_run (x : pyvalue) (s : state) :
  literal x s
  = match literal_entry x s with
    | Some r => (Ok r, s)
    | None =>
        match input x s with
        | (Ok r, s') => (Ok r, registered x r s')
        | (Raise e, s') => (Raise e, s')
        end
    end.
Proof.
  unfold literal, _hashable, literal_entry, registered.
  destruct (py_key x) as [k|] eqn:Hk.
  - rewrite bool_decide_eq_true_2 by (by eexists).
    unfold _literal_hashable. rewrite Hk.
    rewrite (bind_Ok (gets literals_db) _ s s _ eq_refl).
    destruct (literals_db s !! k) as [r|]; [done|].
    destruct (input x s) as [[r|e] s'] eqn:Hin.
    + by rewrite (bind_Ok _ _ _ _ _ Hin).
    + by rewrite (bind_Raise _ _ _ _ _ Hin).
  - rewrite bool_decide_eq_false_2 by (by intros [? ?]).
    unfold _literal_unhashable.
    rewrite (bind_Ok (gets literals_id_db) _ s s _ eq_refl).
    destruct (literals_id_db s !! py_id x) as [r|]; [done|].
    destruct (input x s) as [[r|e] s'] eqn:Hin.
    + by rewrite (bind_Ok _ _ _ _ _ Hin).
    + by rewrite (bind_Raise _ _ _ _ _ Hin).
Qed.

Lemma input_Raise (x : pyvalue) (s s' : state) (e : exn) :
  input x s = (Raise e, s') →
  state_extends s s' ∧
  literals_db s' = literals_db s ∧ literals_id_db s' = literals_id_db s.
Proof.
  destruct x as [|z|n|r0|out|o]; cbn [input]; try done.
  - intros Hrun.
    destruct (NumpyR_new_array z s) as (r' & a & s'' & Hnew & _). congruence.
  - intros Hrun.
    destruct (new_array_spec (np_zeros [] float64) s)
      as (z & s1 & Hz & Hzf & Ha1 & Hr1 & Hd1 & Hi1).
    rewrite (bind_Ok _ _ _ _ _ Hz) in Hrun.
    rewrite (bind_Ok (get_array z) _ s1 s1 _ eq_refl) in Hrun.
    destruct (np_iadd_number (arrays s1 !!! z) n) as [c'|e'] eqn:Hadd.
    + rewrite (bind_Ok (lift (Ok c')) _ s1 s1 c' eq_refl) in Hrun.
      rewrite (bind_Ok (set_array z c') _ s1 _ tt eq_refl) in Hrun.
      match type of Hrun with NumpyR_new _ ?s2 = _ =>
        destruct (NumpyR_new_array z s2) as (r' & a & s'' & Hnew & _) end.
      congruence.
    + rewrite (bind_Raise (lift (Raise e')) _ s1 s1 e' eq_refl) in Hrun.
      injection Hrun as <- <-. split; [|done]. split.
      * intros r Hr. by rewrite Hr1.
      * intros a Ha. rewrite Ha1, lookup_insert_ne; [done|]. by intros <-.
  - intros [= <- <-]. split; [apply state_extends_refl|done].
Qed.

Lemma registered_extends (x : pyvalue) (r : rid) (s s' : state) :
  r ∉ dom (results s) → state_extends s s' → state_extends s (registered x r s').
Proof.
  intros Hr [Hres Harr]. split; cbn; [|done].
  intros r' Hr'. rewrite lookup_insert_ne; [by apply Hres|]. by intros <-.
Qed.

(** X5. [literal] interns: whenever it returns a Result for [x], that Result is
    registered under the key of [x] (its dictionary key when [x] is
    hashable, its [id] otherwise), and a further call for [x], or for any
    value with the same key, returns the same Result and changes nothing.
    When the key was not registered before, the Result is a new object,
    marked constant, and every earlier object is as it was. *)
Theorem literal_interns (x : pyvalue) (s s1 : state) (r : rid) :
  literal x s = (Ok r, s1) →
  literal_entry x s1 = Some r ∧
  (∀ y, (if _hashable x then py_key y = py_key x
         else _hashable y = false ∧ py_id y = py_id x) →
     literal y s1 = (Ok r, s1)) ∧
  (literal_entry x s = None →
     (r ∉ dom (results s)) ∧ constant (results s1 !!! r) = true ∧
     state_extends s s1).
Proof.
  intros Hrun.
  assert (literal_entry x s1 = Some r) as Hentry.
  { rewrite literal_run in Hrun.
    destruct (literal_entry x s) as [r'|] eqn:Hs; [congruence|].
    destruct (input x s) as [[r'|e] s'] eqn:Hin; [|done].
    injection Hrun as <- <-. unfold literal_entry, registered. cbn.
    destruct (py_key x); by rewrite lookup_insert_eq. }
  split; [done|]. split.
  - intros y Hy. rewrite literal_run.
    assert (literal_entry y s1 = Some r) as ->; [|done].
    unfold literal_entry, _hashable in *.
    destruct (py_key x) as [k|] eqn:Hk.
    + rewrite bool_decide_eq_true_2 in Hy by (by eexists). by rewrite Hy.
    + rewrite bool_decide_eq_false_2 in Hy by (by intros [? ?]).
      destruct Hy as [Hy Hid]. apply bool_decide_eq_false in Hy.
      destruct (py_key y) as [k|]; [exfalso; apply Hy; by eexists|]. by rewrite Hid.
  - intros Hnone. rewrite literal_run, Hnone in Hrun.
    destruct (input x s) as [[r'|e] s'] eqn:Hin; [|done].
    injection Hrun as <- <-.
    apply input_Ok in Hin as (Hfr & Hext & _ & _ & o & Ho & _).
    split; [done|]. split.
    + unfold registered. cbn. by rewrite lookup_total_insert_eq.
    + by apply registered_extends.
Qed.

Lemma literal_frame (x : pyvalue) (s s1 : state) (res : result rid) :
  literal x s = (res, s1) →
  state_extends s s1 ∧
  literals_db s ⊆ literals_db s1 ∧ literals_id_db s ⊆ literals_id_db s1 ∧
  (literals_wf s → literals_wf s1) ∧
  (∀ e, res = Raise e →
     literals_db s1 = literals_db s ∧ literals_id_db s1 = literals_id_db s).
Proof.
  rewrite literal_run.
  destruct (literal_entry x s) as [r'|] eqn:Hs.
  { intros [= <- <-]. split; [apply state_extends_refl|].
    split; [reflexivity|]. split; [reflexivity|]. by split. }
  destruct (input x s) as [[r'|e] s'] eqn:Hin; intros [= <- <-].
  - apply input_Ok in Hin as (Hfr & Hext & Hdb & Hid & o & Ho & _).
    split; [by apply registered_extends|].
    unfold literal_entry in Hs. unfold registered. cbn.
    split; [|split; [|split; [|done]]].
    + rewrite Hdb. destruct (py_key x); [by apply insert_subseteq|reflexivity].
    + rewrite Hid. destruct (py_key x); [reflexivity|by apply insert_subseteq].
    + intros [Hwf1 Hwf2].
      assert (∀ r, r ∈ dom (results s) →
        r ∈ dom (<[r' := set_constant true (results s' !!! r')]> (results s')) ∧
        (<[r' := set_constant true (results s' !!! r')]> (results s') !!! r
         = results s !!! r)) as Hold.
      { intros r Hr. split.
        - rewrite dom_insert. apply elem_of_union_r. apply elem_of_dom.
          destruct Hext as [Hext _]. rewrite Hext by done. by apply elem_of_dom.
        - rewrite lookup_total_insert_ne by (by intros <-).
          by apply state_extends_result. }
      assert (r' ∈ dom (<[r' := set_constant true (results s' !!! r')]> (results s')) ∧
        constant (<[r' := set_constant true (results s' !!! r')]> (results s') !!! r')
        = true) as Hnew.
      { split; [rewrite dom_insert; set_solver|]. by rewrite lookup_total_insert_eq. }
      split; cbn; intros k r.
      * rewrite Hdb. destruct (py_key x) as [kx|].
        -- destruct (decide (kx = k)) as [->|Hne].
           ++ rewrite lookup_insert_eq. by intros [= <-].
           ++ rewrite lookup_insert_ne by done. intros [Hr Hc]%Hwf1.
              destruct (Hold r Hr) as [? ->]. done.
        -- intros [Hr Hc]%Hwf1. destruct (Hold r Hr) as [? ->]. done.
      * rewrite Hid. destruct (py_key x) as [kx|].
        -- intros [Hr Hc]%Hwf2. destruct (Hold r Hr) as [? ->]. done.
        -- destruct (decide (py_id x = k)) as [->|Hne].
           ++ rewrite lookup_insert_eq. by intros [= <-].
           ++ rewrite lookup_insert_ne by done. intros [Hr Hc]%Hwf2.
              destruct (Hold r Hr) as [? ->]. done.
  - apply input_Raise in Hin as (Hext & Hdb & Hid).
    split; [done|]. rewrite Hdb, Hid. split; [reflexivity|]. split; [reflexivity|].
    split; [|done].
    intros [Hwf1 Hwf2]. split; intros k r.
    + rewrite Hdb. intros [Hr Hc]%Hwf1. split.
      * apply elem_of_dom. destruct Hext as [Hext _]. rewrite Hext by done.
        by apply elem_of_dom.
      * by rewrite (state_extends_result _ _ _ Hext Hr).
    + rewrite Hid. intros [Hr Hc]%Hwf2. split.
      * apply elem_of_dom. destruct Hext as [Hext _]. rewrite Hext by done.
        by apply elem_of_dom.
      * by rewrite (state_extends_result _ _ _ Hext Hr).
Qed.

(** X6. [wrap] never touches an object that exists: whatever it is given and
    whether it returns or raises, every Result and every array that was
    there is unchanged afterwards, the two literal tables have only grown,
    and if every table entry named an existing constant Result before, so
    it is after. When [wrap] raises, nothing was registered. *)
Theorem wrap_frame (x : pyvalue) (s s1 : state) (res : result rid) :
  wrap x s = (res, s1) →
  state_extends s s1 ∧
  literals_db s ⊆ literals_db s1 ∧ literals_id_db s ⊆ literals_id_db s1 ∧
  (literals_wf s → literals_wf s1) ∧
  (∀ e, res = Raise e →
     literals_db s1 = literals_db s ∧ literals_id_db s1 = literals_id_db s).
Proof.
  assert (∀ res', (res', s) = (res, s1) →
    state_extends s s1 ∧
    literals_db s ⊆ literals_db s1 ∧ literals_id_db s ⊆ literals_id_db s1 ∧
    (literals_wf s → literals_wf s1) ∧
    (∀ e, res = Raise e →
       literals_db s1 = literals_db s ∧ literals_id_db s1 = literals_id_db s)) as Hsame.
  { intros res' [= _ <-]. split; [apply state_extends_refl|].
    split; [reflexivity|]. split; [reflexivity|]. by split. }
  destruct x as [|z|n|r0|out|o]; cbn [wrap]; try apply literal_frame.
  - rewrite (bind_Ok (get_result r0) _ s s _ eq_refl).
    destruct (r_class (results s !!! r0)); try apply Hsame. apply literal_frame.
  - apply Hsame.
Qed.
End literal_facts.

(** X5, witness: [literal(5)] twice, from the empty state. *)
Lemma literal_interns_witness :
  literal (VNumber (PyInt 5)) (literal (VNumber (PyInt 5)) empty_state).2
  = (Ok 1%positive, (literal (VNumber (PyInt 5)) empty_state).2) ∧
  constant (results (literal (VNumber (PyInt 5)) empty_state).2 !!! 1%positive) = true.
Proof.
  pose (s1 := (literal (VNumber (PyInt 5)) empty_state).2).
  assert (literal (VNumber (PyInt 5)) empty_state = (Ok 1%positive, s1)) as Hrun
    by (vm_compute; reflexivity).
  destruct (literal_interns (H := integer_numpy) (VNumber (PyInt 5)) empty_state s1
              1%positive Hrun) as (_ & Hagain & Hnew).
  split.
  - exact (Hagain (VNumber (PyInt 5)) eq_refl).
  - exact (proj1 (proj2 (Hnew eq_refl))).
Defined.

(** X6, witness: [wrap(5)] next to an existing tensor. *)
Lemma wrap_frame_witness :
  state_extends tensor_state (wrap (VNumber (PyInt 5)) tensor_state).2 ∧
  literals_wf (wrap (VNumber (PyInt 5)) tensor_state).2.
Proof.
  destruct (wrap_frame (H := integer_numpy) (VNumber (PyInt 5)) tensor_state _ _
              (surjective_pairing _)) as (Hext & _ & _ & Hwf & _).
  split; [exact Hext|]. apply Hwf.
  split; intros k r Hk; cbn in Hk; by rewrite lookup_empty in Hk.
Defined.

(** ** Failures of the inference fallback *)

Section inference_failures.
Context `{Numpy}.

Lemma check_outputs_in_loop_Raise (class_name : string) (onames lonames : list string)
    (pre post : list string) (oname : string) :
  onames = pre ++ oname :: post → pre ⊆ lonames → oname ∉ lonames →
  check_outputs_in_loop class_name onames lonames
  = Raise (Exception (not_in_loop_message class_name oname)).
Proof.
  intros -> Hpre Hout. unfold check_outputs_in_loop. rewrite foldl_app.
  pose proof (check_outputs_in_loop_Ok class_name pre lonames Hpre) as Hok.
  unfold check_outputs_in_loop in Hok. rewrite Hok. cbn.
  rewrite bool_decide_eq_false_2 by done.
  induction post as [|o post IH]; [done|]. cbn. apply IH.
Qed.

Lemma infer_shape_None (linames : list string) (l : list (string * Result)) :
  (∀ iname input, (iname, input) ∈ l → iname ∈ linames → spec input = None) →
  infer_shape linames l = None.
Proof.
  unfold infer_shape. induction l as [|[iname input] l IH]; intros Hnone; [done|].
  cbn. case_bool_decide as Hloop.
  - rewrite (Hnone iname input) by (done || apply list_elem_of_here).
    apply IH. intros i' r' Hin. apply Hnone. by apply list_elem_of_further.
  - apply IH. intros i' r' Hin. apply Hnone. by apply list_elem_of_further.
Qed.

Lemma numpy_input_dtypes_nil (l : list (string * Result)) :
  (∀ p, p ∈ l → r_class p.2 ≠ NumpyR) → numpy_input_dtypes l = Ok [].
Proof.
  induction l as [|[iname input] l IH]; intros Hcls; [done|].
  unfold numpy_input_dtypes. cbn [foldr snd]. fold (numpy_input_dtypes l).
  rewrite IH by (intros p Hp; apply Hcls; by apply list_elem_of_further).
  pose proof (Hcls (iname, input) (list_elem_of_here _ _)) as Hne. cbn in Hne.
  by destruct (r_class input).
Qed.

Lemma numpy_input_dtypes_unset (l : list (string * Result)) :
  (∃ p, p ∈ l ∧ r_class p.2 = NumpyR ∧ spec p.2 = None) →
  ∃ msg, numpy_input_dtypes l = Raise (TypeError msg).
Proof.
  induction l as [|[iname input] l IH]; intros (p & Hin & Hcls & Hsp);
    [by apply elem_of_nil in Hin|].
  unfold numpy_input_dtypes. cbn [foldr snd]. fold (numpy_input_dtypes l).
  apply elem_of_cons in Hin as [->|Hin].
  - cbn in Hcls, Hsp. rewrite Hcls, Hsp. by eexists.
  - destruct IH as [msg Hmsg]; [by exists p|]. rewrite Hmsg.
    destruct (r_class input); [|by eexists..].
    destruct (spec input); by eexists.
Qed.

(** X7. How the inference fallback of [_specs] fails, for an operator without
    a [specs] rule. It first raises the exception that names the first
    output that is not a loop variable; with every output in the loop, it
    raises the "no input variable in the loop" exception when no loop input
    has its spec set; with a shape found, it raises [TypeError], and not
    the "not all numpy inputs are specified" exception, when no input is a
    [NumpyR] ([upcast] is then called without argument) and when a [NumpyR]
    input has no spec. *)
Theorem specs_fallback_failures (op : elemwise_node) (s : state)
    (inames onames linames lonames : list string) :
  let named_inputs := zip inames ((λ r, results s !!! r) <$> inputs op) in
  specs op ((λ r, spec (results s !!! r)) <$> inputs op) = Raise NotImplementedError →
  variable_names op = Ok (inames, onames) →
  loop_variables op = Ok (linames, lonames) →
  (∀ pre oname post, onames = pre ++ oname :: post → pre ⊆ lonames → oname ∉ lonames →
     _specs op s = Raise (Exception (not_in_loop_message (op_name op) oname))) ∧
  (onames ⊆ lonames →
   (∀ iname input, (iname, input) ∈ named_inputs → iname ∈ linames → spec input = None) →
   _specs op s = Raise (Exception no_shape_message)) ∧
  (onames ⊆ lonames → is_Some (infer_shape linames named_inputs) →
   (∀ p, p ∈ named_inputs → r_class p.2 ≠ NumpyR) ∨
   (∃ p, p ∈ named_inputs ∧ r_class p.2 = NumpyR ∧ spec p.2 = None) →
   ∃ msg, _specs op s = Raise (TypeError msg)).
Proof.
  intros named_inputs Hspecs Hnames Hloops.
  unfold _specs. rewrite Hspecs. unfold _specs_fallback.
  rewrite Hnames, Hloops. cbn [mbind result_bind fst snd].
  fold named_inputs. split; [|split].
  - intros pre oname post Hon Hpre Hout.
    by rewrite (check_outputs_in_loop_Raise _ _ _ _ _ _ Hon Hpre Hout).
  - intros Hsub Hnone.
    rewrite (check_outputs_in_loop_Ok _ _ _ Hsub).
    by rewrite (infer_shape_None _ _ Hnone).
  - intros Hsub [shape Hshape] Hin.
    rewrite (check_outputs_in_loop_Ok _ _ _ Hsub), Hshape.
    unfold infer_dtype. destruct Hin as [Hin|Hin].
    + rewrite (numpy_input_dtypes_nil _ Hin). by eexists.
    + destruct (numpy_input_dtypes_unset _ Hin) as [msg ->]. by eexists.
Qed.
End inference_failures.

(** X7, witness: a reduction without a [specs] rule, and [add_elemwise] on
    inputs without specification. *)
Lemma specs_fallback_failures_witness :
  _specs reduction_node two_tensor_state
  = Raise (Exception (not_in_loop_message "total" "total")) ∧
  _specs add_elemwise_node unspecified_state = Raise (Exception no_shape_message).
Proof.
  split.
  - destruct (specs_fallback_failures (H := integer_numpy) reduction_node
                two_tensor_state ["x"] ["total"] ["x"] [] eq_refl eq_refl eq_refl)
      as (Houtside & _).
    apply (Houtside [] "total" []); [done| |apply not_elem_of_nil].
    by intros ? ?%elem_of_nil.
  - destruct (specs_fallback_failures (H := integer_numpy) add_elemwise_node
                unspecified_state ["x"; "y"] ["z"] ["x"; "y"] ["z"]
                eq_refl eq_refl eq_refl) as (_ & Hshape & _).
    apply Hshape; [done|].
    intros iname input Hin _.
    assert (zip ["x"; "y"]
              ((λ r, results unspecified_state !!! r) <$> inputs add_elemwise_node)
            = [("x", placeholder); ("y", placeholder)]) as Hzip by by vm_compute.
    rewrite Hzip in Hin.
    apply elem_of_cons in Hin as [[= _ ->]|Hin]; [done|].
    apply list_elem_of_singleton in Hin as [= _ ->]. done.
Defined.

(** ** Derivation of in-place classes *)

Lemma inplace_version_assert (dmap : gmap nat nat) (onames lonames : list string) :
  forallb (λ p : nat * string,
             match dmap !! p.1 with
             | Some _ => bool_decide (p.2 ∈ lonames)
             | None => true
             end)
          (imap (λ i oname, (i, oname)) onames) = true
  ↔ ∀ p oname, onames !! p = Some oname → is_Some (dmap !! p) → oname ∈ lonames.
Proof.
  rewrite forallb_forall. split.
  - intros Hall p oname Hp [i Hi].
    specialize (Hall (p, oname)). cbn in Hall. rewrite Hi in Hall.
    eapply bool_decide_eq_true_1, Hall, list_elem_of_In, elem_of_lookup_imap.
    by exists p, oname.
  - intros Hall [p oname] Hin%list_elem_of_In.
    apply elem_of_lookup_imap in Hin as (p' & oname' & [= -> ->] & Hp). cbn.
    destruct (dmap !! p') as [i|] eqn:Hi; [|done].
    apply bool_decide_eq_true_2, (Hall p'); [done|by eexists].
Qed.

Lemma inplace_destroy_map_out_of_range (cls : elemwise) (dmap : gmap nat nat)
    (o i : nat) :
  is_inplace cls = false → dmap !! o = Some i →
  length (outputs cls) ≤ o ∨ length (inputs cls) ≤ i →
  inplace_destroy_map cls dmap = Raise IndexError.
Proof.
  intros Hbase Hentry Hrange. unfold inplace_destroy_map. rewrite Hbase. cbn.
  apply elem_of_map_to_list in Hentry. revert Hentry.
  generalize (map_to_list dmap). intros l Hin.
  set (f := λ (ret : result (gmap rid (list rid))) (p : nat * nat),
         ret ← ret;
         output ← list_getitem (outputs cls) p.1;
         input ← list_getitem (inputs cls) p.2;
         Ok (<[output := [input]]> ret)).
  assert (∀ l, foldl f (Raise IndexError) l = Raise IndexError) as Hraise.
  { clear. induction l as [|p l IH]; [done|]. cbn. apply IH. }
  generalize (∅ : gmap rid (list rid)).
  induction l as [|p l IH]; intros m; [by apply elem_of_nil in Hin|].
  cbn [foldl].
  assert (f (Ok m) p = Raise IndexError ∨ ∃ m', f (Ok m) p = Ok m') as [Hf|[m' Hf]].
  { unfold f, list_getitem. cbn.
    destruct (outputs cls !! p.1); cbn; [|by left].
    destruct (inputs cls !! p.2); cbn; [|by left]. right. by eexists. }
  - rewrite Hf. apply Hraise.
  - apply elem_of_cons in Hin as [<-|Hin].
    + exfalso. unfold f, list_getitem in Hf. cbn in Hf.
      destruct Hrange as [Ho|Hi].
      * by rewrite (lookup_ge_None_2 _ _ Ho) in Hf.
      * destruct (outputs cls !! o); [|done]. cbn in Hf.
        by rewrite (lookup_ge_None_2 _ _ Hi) in Hf.
    + rewrite Hf. by apply IH.
Qed.

(** X8. [inplace_version] accepts an aliasing map exactly when every output
    position it mentions that has a name names a loop output, and raises
    [AssertionError] otherwise. Positions past the output names and the
    input positions are not checked: the class is derived all the same, and
    it is [destroy_map], on an instance, that raises [IndexError]. *)
Theorem inplace_version_check (cls : elemwise) (dmap : gmap nat nat) (dmap_repr : string)
    (names lnames : list string * list string) :
  variable_names cls = Ok names →
  loop_variables cls = Ok lnames →
  ((∀ p oname, names.2 !! p = Some oname → is_Some (dmap !! p) → oname ∈ lnames.2) →
   ∃ C, inplace_version cls dmap dmap_repr = Ok C ∧
     inputs C = inputs cls ∧ outputs C = outputs cls ∧ is_inplace C = true ∧
     (is_inplace cls = false →
      ∀ o i, dmap !! o = Some i →
        length (outputs cls) ≤ o ∨ length (inputs cls) ≤ i →
        destroy_map C = Raise IndexError)) ∧
  (∀ p oname, names.2 !! p = Some oname → is_Some (dmap !! p) → oname ∉ lnames.2 →
     inplace_version cls dmap dmap_repr = Raise AssertionError).
Proof.
  intros Hnames Hloops. unfold inplace_version. rewrite Hnames, Hloops.
  cbn [mbind result_bind]. split.
  - intros Hall. rewrite (proj2 (inplace_version_assert dmap names.2 lnames.2) Hall). cbn.
    eexists. split; [done|]. cbn. repeat (split; [done|]).
    intros Hbase o i. by apply inplace_destroy_map_out_of_range.
  - intros p oname Hp Hd Hout.
    destruct (forallb _ _) eqn:Hall; [|done].
    pose proof (proj1 (inplace_version_assert dmap names.2 lnames.2) Hall) as Hall'.
    by destruct (Hout (Hall' p oname Hp Hd)).
Qed.

(** X8, witness: the map [{0: 0, 1: 0}] on the one-output class [twice]. *)
Lemma inplace_version_check_witness :
  ∃ C, inplace_version twice_x {[ 0 := 0; 1 := 0 ]} "{0: 0, 1: 0}" = Ok C ∧
    destroy_map C = Raise IndexError.
Proof.
  destruct (inplace_version_check twice_x {[ 0 := 0; 1 := 0 ]} "{0: 0, 1: 0}"
              (["x"], ["z"]) (["x"], ["z"]) eq_refl eq_refl) as [Haccepted _].
  destruct Haccepted as (C & HC & _ & _ & _ & Hdm).
  { intros [|p] oname; cbn; [|done]. intros [= <-] _. apply list_elem_of_here. }
  exists C. split; [exact HC|].
  apply (Hdm eq_refl 1 0); [by vm_compute|]. left. cbn. lia.
Defined.

Lemma alias_output_rest (dmap : gmap rid (list rid)) (inames lonames : list string)
    (ins : list rid) (l : list (string * rid)) (a : gmap string string) :
  (∀ p, p ∈ l → dmap !! p.2 = None) →
  foldl (alias_output dmap inames lonames ins) (Ok a) l = Ok a.
Proof.
  induction l as [|p l IH]; intros Hnone; [done|]. cbn [foldl].
  assert (alias_output dmap inames lonames ins (Ok a) p = Ok a) as ->.
  { unfold alias_output. cbn. rewrite (Hnone p) by apply list_elem_of_here.
    by case_bool_decide. }
  apply IH. intros q Hq. apply Hnone. by apply list_elem_of_further.
Qed.

(** X9. The default in-place version, [cls.inplace_version()] with the map
    [{0: 0}], of a class that is not in place and whose first output is a
    loop variable: the derived class is named [<cls>_inplace], its destroy
    map sends the first output to the first input, and its [c_code] binds
    the name of the first input as an alias of the first output, so the
    kernel keeps an iterator for every loop input but that one. *)
Theorem inplace_version_default_alias (cls : elemwise) (dmap_repr : string)
    (in0 on0 : string) (inames onames linames lonames : list string)
    (i0 o0 : rid) (ins outs : list rid) (before during after : string) :
  variable_names cls = Ok (in0 :: inames, on0 :: onames) →
  loop_variables cls = Ok (linames, lonames) →
  on0 ∈ lonames →
  is_inplace cls = false →
  inputs cls = i0 :: ins → outputs cls = o0 :: outs → o0 ∉ outs →
  c_impl cls = Raise NotImplementedError →
  c_init cls = Ok before → c_foreach cls = Ok during → c_finalize cls = Ok after →
  ∃ C, inplace_version cls {[ 0 := 0 ]} dmap_repr = Ok C ∧
    op_name C = op_name cls +:+ "_inplace" ∧
    destroy_map C = Ok {[ o0 := [i0] ]} ∧
    c_code_aliases C (in0 :: inames) (on0 :: onames) lonames = Ok {[ in0 := on0 ]} ∧
    (∀ n, n ∈ independent_loop_vars linames {[ in0 := on0 ]} ↔ n ∈ linames ∧ n ≠ in0) ∧
    elemwise_behavior C
    = elemwise_wrap before during after
        (independent_loop_vars linames {[ in0 := on0 ]}) lonames {[ in0 := on0 ]}.
Proof.
  intros Hnames Hloops Hon0 Hbase Hins Houts Hfresh Himpl Hinit Hforeach Hfinal.
  assert (inplace_destroy_map cls {[ 0 := 0 ]} = Ok {[ o0 := [i0] ]}) as Hdmap.
  { unfold inplace_destroy_map. rewrite Hbase. cbn.
    rewrite map_to_list_singleton. cbn. unfold list_getitem.
    rewrite Hins, Houts. cbn. by rewrite insert_empty. }
  set (C := {| base := {| op_name := op_name cls +:+ "_inplace";
                          inputs := inputs cls; outputs := outputs cls;
                          c_impl := c_impl cls; c_impl_argspec := c_impl_argspec cls;
                          c_headers := c_headers cls; c_libs := c_libs cls;
                          c_support_code := c_support_code cls |};
               c_init := c_init cls; c_foreach := c_foreach cls;
               c_finalize := c_finalize cls;
               variable_names := variable_names cls;
               loop_variables := loop_variables cls;
               is_inplace := true;
               destroy_map := inplace_destroy_map cls {[ 0 := 0 ]} |}).
  assert (inplace_version cls {[ 0 := 0 ]} dmap_repr = Ok C) as HC.
  { unfold inplace_version, C. rewrite Hnames, Hloops. cbn [mbind result_bind fst snd].
    rewrite (proj2 (inplace_version_assert {[ 0 := 0 ]} (on0 :: onames) lonames)).
    - cbn [py_assert mbind result_bind]. by rewrite decide_True.
    - intros [|p] oname; cbn.
      + by intros [= <-] _.
      + intros _ [i Hi]. by rewrite lookup_singleton_ne in Hi. }
  assert (c_code_aliases C (in0 :: inames) (on0 :: onames) lonames
          = Ok {[ in0 := on0 ]}) as Haliases.
  { unfold c_code_aliases, C. cbn [is_inplace destroy_map base inputs outputs].
    rewrite Hdmap, Hins, Houts. cbn [mbind result_bind zip zip_with foldl].
    assert (alias_output {[ o0 := [i0] ]} (in0 :: inames) lonames (i0 :: ins)
              (Ok ∅) (on0, o0) = Ok {[ in0 := on0 ]}) as ->.
    { unfold alias_output. cbn. rewrite bool_decide_eq_true_2 by done.
      rewrite lookup_singleton_eq. cbn. unfold alias_input, list_index. cbn.
      rewrite decide_True by done. cbn. by rewrite insert_empty. }
    apply alias_output_rest. intros [o r] Hin. cbn.
    apply lookup_singleton_ne. intros <-. apply Hfresh.
    apply list_elem_of_lookup in Hin as [j Hj].
    apply lookup_zip_Some in Hj as [_ Hj]. by apply list_elem_of_lookup_2 in Hj. }
  exists C. split; [done|]. split; [done|]. split; [done|]. split; [done|]. split.
  - intros n. unfold independent_loop_vars. rewrite list_elem_of_filter.
    rewrite lookup_singleton_None. naive_solver.
  - unfold elemwise_behavior.
    change (c_impl C) with (c_impl cls). change (c_init C) with (c_init cls).
    change (c_foreach C) with (c_foreach cls).
    change (c_finalize C) with (c_finalize cls).
    change (variable_names C) with (variable_names cls).
    change (loop_variables C) with (loop_variables cls).
    rewrite Himpl, Hinit, Hforeach, Hfinal, Hnames, Hloops.
    cbn [mbind result_bind fst snd]. by rewrite Haliases.
Qed.

(** X9, witness: [add_elemwise.inplace_version()]. *)
Lemma inplace_version_default_alias_witness :
  ∃ C, inplace_version add_elemwise_x_y {[ 0 := 0 ]} "{0: 0}" = Ok C ∧
    op_name C = "add_elemwise_inplace" ∧
    destroy_map C = Ok {[ 3%positive := [1%positive] ]} ∧
    c_code_aliases C ["x"; "y"] ["z"] ["z"] = Ok {[ "x" := "z" ]}.
Proof.
  destruct (inplace_version_default_alias add_elemwise_x_y "{0: 0}" "x" "z" ["y"] []
              ["x"; "y"] ["z"] 1%positive 3%positive [2%positive] []
              "" "z_i = x_i + y_i;" ""
              eq_refl eq_refl ltac:(apply list_elem_of_here) eq_refl eq_refl eq_refl
              ltac:(apply not_elem_of_nil) eq_refl eq_refl eq_refl eq_refl)
    as (C & HC & Hname & Hdm & Hal & _).
  exists C. split; [exact HC|]. split; [exact Hname|]. split; [exact Hdm|exact Hal].
Defined.

(** ** Edge cases of allocation and of the derived implementation *)

Section alloc_edges.
Context `{Numpy}.
Variable PythonOp_alloc : omega_op → list rid → M state unit.
Variable PythonR_set_value : rid → pyvalue → M state unit.

Lemma alloc_loop_excepted (except_list : list rid) (l : list (rid * list rid))
    (s : state) :
  (∀ p, p ∈ l → p.1 ∈ except_list ∧ length p.2 = 1) →
  for_each (alloc_output PythonR_set_value except_list) l s = (Ok tt, s).
Proof.
  induction l as [|[out ins] l IH]; intros Hall; [done|].
  destruct (Hall (out, ins) (list_elem_of_here _ _)) as [Hex Hlen]. cbn in Hex, Hlen.
  destruct ins as [|input [|? ?]]; try done.
  cbn [for_each].
  rewrite (bind_Ok (alloc_output PythonR_set_value except_list (out, [input])) _ s s tt).
  - apply IH. intros p Hp. apply Hall. by apply list_elem_of_further.
  - unfold alloc_output. cbn. by rewrite bool_decide_eq_true_2.
Qed.

Lemma alloc_loop_malformed (except_list : list rid) (l : list (rid * list rid))
    (s s' : state) (res : result unit) :
  (∃ p, p ∈ l ∧ length p.2 ≠ 1) →
  for_each (alloc_output PythonR_set_value except_list) l s = (res, s') →
  ∃ e, res = Raise e.
Proof.
  revert s. induction l as [|[out ins] l IH]; intros s (p & Hin & Hlen);
    [by apply elem_of_nil in Hin|].
  cbn [for_each]. unfold mbind, M_bind.
  destruct (alloc_output PythonR_set_value except_list (out, ins) s) as [[[]|e] s1] eqn:Hstep.
  - apply elem_of_cons in Hin as [->|Hin].
    + exfalso. unfold alloc_output in Hstep. cbn in Hstep, Hlen.
      by destruct ins as [|input [|? ?]].
    + apply IH. by exists p.
  - intros [= <- _]. by eexists.
Qed.

(** X10. Two edge cases of [elemwise.alloc]. When every destroyed output is in
    [except_list] and destroys exactly one input (as for an operator that
    is not in place, whose map is empty), it does what [gof.PythonOp.alloc]
    does, called with the destroyed outputs added to the exceptions, and
    nothing more. When an entry of the destroy map lists no input or
    several, it never completes, even if that output is excepted: the
    entry is unpacked before the exception list is looked at, and with one
    such entry alone the error is a [ValueError], raised after
    [gof.PythonOp.alloc] has run. *)
Theorem elemwise_alloc_edge_cases (op : elemwise) (except_list : list rid)
    (dmap : gmap rid (list rid)) (s : state) :
  (if is_inplace op then destroy_map op else Ok ∅) = Ok dmap →
  ((∀ out ins, dmap !! out = Some ins → out ∈ except_list ∧ length ins = 1) →
   elemwise_alloc PythonOp_alloc PythonR_set_value op except_list s
   = PythonOp_alloc op (except_list ++ (map_to_list dmap).*1) s) ∧
  ((∃ out ins, dmap !! out = Some ins ∧ length ins ≠ 1) →
   ∃ e s', elemwise_alloc PythonOp_alloc PythonR_set_value op except_list s
           = (Raise e, s')) ∧
  (∀ out ins s0, dmap = {[ out := ins ]} → length ins ≠ 1 →
     PythonOp_alloc op (except_list ++ [out]) s = (Ok tt, s0) →
     ∃ msg, elemwise_alloc PythonOp_alloc PythonR_set_value op except_list s
            = (Raise (ValueError msg), s0)).
Proof.
  intros Hdmap. unfold elemwise_alloc. rewrite Hdmap.
  rewrite (bind_Ok (lift (Ok dmap)) _ s s dmap eq_refl).
  split; [|split].
  - intros Hall. unfold mbind at 1, M_bind.
    destruct (PythonOp_alloc op (except_list ++ (map_to_list dmap).*1) s)
      as [[[]|e] s0]; [|done].
    apply alloc_loop_excepted. intros [out ins] Hin%elem_of_map_to_list.
    by apply Hall.
  - intros (out & ins & Hentry & Hlen). unfold mbind at 1, M_bind.
    destruct (PythonOp_alloc op (except_list ++ (map_to_list dmap).*1) s)
      as [[[]|e] s0]; [|by eexists _, _].
    destruct (for_each (alloc_output PythonR_set_value except_list) (map_to_list dmap) s0)
      as [res s'] eqn:Hloop.
    destruct (alloc_loop_malformed _ _ _ _ _
      (ex_intro _ (out, ins) (conj (proj2 (elem_of_map_to_list _ _ _) Hentry) Hlen)) Hloop)
      as [e ->].
    by eexists _, _.
  - intros out ins s0 -> Hlen Halloc. rewrite map_to_list_singleton. cbn [fmap list_fmap].
    rewrite (bind_Ok _ _ _ _ _ Halloc). cbn [for_each].
    unfold alloc_output. cbn [fst snd].
    destruct ins as [|input [|? ?]]; try done; by eexists.
Qed.
End alloc_edges.

(** X10, witness: [alloc] of [add_elemwise], which destroys nothing, and of an
    in-place operator whose destroy map lists two inputs for its output. *)
Lemma elemwise_alloc_edge_cases_witness :
  elemwise_alloc no_alloc store_value add_elemwise_x_y [] two_tensor_state
  = (Ok tt, two_tensor_state) ∧
  ∃ msg, elemwise_alloc no_alloc store_value add_elemwise_inplace_both
           [3%positive] two_tensor_state
         = (Raise (ValueError msg), two_tensor_state).
Proof.
  split.
  - destruct (elemwise_alloc_edge_cases (H := integer_numpy) no_alloc store_value
                add_elemwise_x_y [] ∅ two_tensor_state eq_refl) as (Hplain & _).
    rewrite Hplain; [reflexivity|].
    intros out ins Hl. by rewrite lookup_empty in Hl.
  - destruct (elemwise_alloc_edge_cases (H := integer_numpy) no_alloc store_value
                add_elemwise_inplace_both [3%positive]
                {[ 3%positive := [1%positive; 2%positive] ]} two_tensor_state eq_refl)
      as (_ & _ & Hbad).
    apply (Hbad 3%positive [1%positive; 2%positive] two_tensor_state eq_refl);
      [cbn; lia|reflexivity].
Defined.

Section tuple_results.
Context `{Numpy}.

(** X11. When the base implementation returns a tuple, the derived [_impl] of
    the default in-place version cannot return: it copies the value for the
    destroyed output into the buffer of the aliased input, and then raises
    [TypeError] on storing the buffer into the tuple. The input has been
    overwritten all the same. *)
Theorem inplace_impl_tuple_result (base_impl : implementation) (o i : nat)
    (ins : list rid) (items : list pyvalue) (s s1 : state) (r : rid) (a b : loc)
    (ca cb c : array) :
  PythonOp__impl base_impl ins s = (Ok (PyTuple items), s1) →
  ins !! i = Some r → data (results s1 !!! r) = VNdarray a →
  items !! o = Some (VNdarray b) →
  arrays s1 !! a = Some ca → arrays s1 !! b = Some cb → np_setslice ca cb = Ok c →
  inplace__impl base_impl None {[ o := i ]} ins s
  = (Raise (TypeError "'tuple' object does not support item assignment"),
     {| results := results s1; arrays := <[a := c]> (arrays s1);
        literals_db := literals_db s1; literals_id_db := literals_id_db s1 |}).
Proof.
  intros Hbase Hi Hdata Ho Ha Hb Hset. unfold inplace__impl.
  rewrite (bind_Ok _ _ _ _ _ Hbase). rewrite map_to_list_singleton.
  cbn [as_sequence].
  assert (inplace_step ins (true, items) (o, i) s1
          = (Raise (TypeError "'tuple' object does not support item assignment"),
             {| results := results s1; arrays := <[a := c]> (arrays s1);
                literals_db := literals_db s1; literals_id_db := literals_id_db s1 |}))
    as Hstep.
  { unfold inplace_step. cbn [fst snd]. unfold list_getitem. rewrite Hi, Ho.
    rewrite (bind_Ok (lift (Ok r)) _ s1 s1 r eq_refl).
    rewrite (bind_Ok (get_result r) _ s1 s1 _ eq_refl).
    rewrite (bind_Ok (lift (Ok (VNdarray b))) _ s1 s1 _ eq_refl).
    rewrite Hdata.
    by rewrite (bind_Ok _ _ _ _ _ (setslice_arrays _ _ _ _ _ s1 Ha Hb Hset)). }
  assert (foldM (inplace_step ins) (true, items) [(o, i)] s1
          = (Raise (TypeError "'tuple' object does not support item assignment"),
             {| results := results s1; arrays := <[a := c]> (arrays s1);
                literals_db := literals_db s1; literals_id_db := literals_id_db s1 |}))
    as Hloop by (cbn [foldM]; by rewrite (bind_Raise _ _ _ _ _ Hstep)).
  by rewrite (bind_Raise _ _ _ _ _ Hloop).
Qed.
End tuple_results.

(** X11, witness: the default in-place version of an operator whose
    implementation returns a one-element tuple. *)
Lemma inplace_impl_tuple_result_witness :
  ∃ s', inplace__impl twice_tuple_impl None {[ 0 := 0 ]} [1%positive] tensor_state
        = (Raise (TypeError "'tuple' object does not support item assignment"), s') ∧
    arrays s' !! 1%positive = Some doubled.
Proof.
  pose (s1 := (PythonOp__impl twice_tuple_impl [1%positive] tensor_state).2).
  assert (PythonOp__impl twice_tuple_impl [1%positive] tensor_state
          = (Ok (PyTuple [VNdarray 2]), s1)) as Hbase by (vm_compute; reflexivity).
  assert (arrays s1 !! 1%positive
          = Some {| nd_exact := true; nd_dtype := Float64; nd_shape := [2];
                    nd_elems := [1%Z; 2%Z] |}) as Ha by (vm_compute; reflexivity).
  assert (arrays s1 !! 2%positive = Some doubled) as Hb by (vm_compute; reflexivity).
  eexists. split.
  - exact (inplace_impl_tuple_result (H := integer_numpy) twice_tuple_impl 0 0
             [1%positive] [VNdarray 2] tensor_state s1 1%positive 1%positive 2%positive
             _ _ doubled Hbase eq_refl eq_refl eq_refl Ha Hb eq_refl).
  - cbn. apply lookup_insert_eq.
Defined.

(** ** Shape guards of the interpreted implementations *)

Section wrapper_facts.
Context `{Numpy}.

Lemma data_shape_state (v : pyvalue) (s s' : state) (res : result (list nat)) :
  data_shape v s = (res, s') → s' = s.
Proof.
  unfold data_shape, raise, mret, M_ret, mbind, M_bind, get_array, gets.
  destruct v as [|a|n|r|out|o]; try by intros [= _ <-].
  destruct (obj_shape o); by intros [= _ <-].
Qed.

Lemma check_same_shapes_Ok (shape : list nat) (rest : list pyvalue) (s : state) :
  (∀ other, other ∈ rest → data_shape other s = (Ok shape, s)) →
  for_each (check_same_shape shape) rest s = (Ok tt, s).
Proof.
  induction rest as [|other rest IH]; intros Hall; [done|].
  cbn [for_each].
  rewrite (bind_Ok (check_same_shape shape other) _ s s tt).
  - apply IH. intros v Hv. apply Hall. by apply list_elem_of_further.
  - unfold check_same_shape.
    rewrite (bind_Ok _ _ _ _ _ (Hall other (list_elem_of_here _ _))).
    by rewrite bool_decide_eq_true_2.
Qed.

(** X12. [assert_same_shapes(impl)] calls [impl] on the very arguments it was
    given when every argument has the shape of the first, and otherwise
    raises [ValueError] at the first argument whose shape differs, without
    calling [impl] and without any effect: shapes are never broadcast. *)
Theorem assert_same_shapes_guard (impl : implementation) (x : pyvalue)
    (rest : list pyvalue) (shape : list nat) (s : state) :
  data_shape x s = (Ok shape, s) →
  ((∀ other, other ∈ rest → data_shape other s = (Ok shape, s)) →
   assert_same_shapes impl (x :: rest) s = impl (x :: rest) s) ∧
  (∀ pre other post oshape, rest = pre ++ other :: post →
     (∀ v, v ∈ pre → data_shape v s = (Ok shape, s)) →
     data_shape other s = (Ok oshape, s) → oshape ≠ shape →
     assert_same_shapes impl (x :: rest) s
     = (Raise (ValueError "The dimensions of the inputs do not match."), s)).
Proof.
  intros Hx. unfold assert_same_shapes. rewrite (bind_Ok _ _ _ _ _ Hx). split.
  - intros Hall. by rewrite (bind_Ok _ _ _ _ _ (check_same_shapes_Ok _ _ _ Hall)).
  - intros pre other post oshape -> Hpre Hother Hne.
    assert (for_each (check_same_shape shape) (pre ++ other :: post) s
            = (Raise (ValueError "The dimensions of the inputs do not match."), s))
      as Hloop.
    { clear Hx. induction pre as [|v pre IH]; cbn [app for_each].
      - apply bind_Raise. unfold check_same_shape.
        rewrite (bind_Ok _ _ _ _ _ Hother).
        by rewrite bool_decide_eq_false_2.
      - rewrite (bind_Ok (check_same_shape shape v) _ s s tt).
        + apply IH. intros w Hw. apply Hpre. by apply list_elem_of_further.
        + unfold check_same_shape.
          rewrite (bind_Ok _ _ _ _ _ (Hpre v (list_elem_of_here _ _))).
          by rewrite bool_decide_eq_true_2. }
    by rewrite (bind_Raise _ _ _ _ _ Hloop).
Qed.

(** X13. [tensor_scalar_impl(impl)] looks at the shape of its second argument
    only: with the empty shape it calls [impl] on both arguments, with any
    other it raises [ValueError] without calling [impl]. An operand that
    [scalar_switch] took for a scalar constant passes this guard: the
    tensor-scalar variant never fails it on the data seen at dispatch. *)
Theorem tensor_scalar_impl_guard (impl : implementation) (impl_repr : string)
    (s : state) :
  (∀ x a, data_shape a s = (Ok [], s) →
     tensor_scalar_impl impl impl_repr [x; a] s = impl [x; a] s) ∧
  (∀ x a shape, data_shape a s = (Ok shape, s) → shape ≠ [] →
     tensor_scalar_impl impl impl_repr [x; a] s
     = (Raise (ValueError
                 ("The second argument to " +:+ impl_repr +:+ " must be a scalar.")),
        s)) ∧
  (∀ rx ry, scalar_constant s ry →
     PythonOp__impl (tensor_scalar_impl impl impl_repr) [rx; ry] s
     = PythonOp__impl impl [rx; ry] s).
Proof.
  assert (∀ x a, data_shape a s = (Ok [], s) →
     tensor_scalar_impl impl impl_repr [x; a] s = impl [x; a] s) as Hscalar.
  { intros x a Ha. unfold tensor_scalar_impl. by rewrite (bind_Ok _ _ _ _ _ Ha). }
  split; [done|]. split.
  - intros x a shape Ha Hne. unfold tensor_scalar_impl.
    rewrite (bind_Ok _ _ _ _ _ Ha). by rewrite bool_decide_eq_false_2.
  - intros rx ry [_ Hshape]. unfold PythonOp__impl.
    rewrite !(bind_Ok (gets id) _ s s s eq_refl). cbn [fmap list_fmap].
    by apply Hscalar.
Qed.
End wrapper_facts.

(** X12, witness: addition of two arrays of shape [(2,)], and of one of them
    and a zero-dimensional array. *)
Lemma assert_same_shapes_guard_witness :
  assert_same_shapes add_impl [VNdarray 1; VNdarray 2] shapes_state
  = add_impl [VNdarray 1; VNdarray 2] shapes_state ∧
  assert_same_shapes add_impl [VNdarray 1; VNdarray 3] shapes_state
  = (Raise (ValueError "The dimensions of the inputs do not match."), shapes_state).
Proof.
  split.
  - apply (proj1 (assert_same_shapes_guard (H := integer_numpy) add_impl (VNdarray 1)
                    [VNdarray 2] [2] shapes_state eq_refl)).
    intros other ->%list_elem_of_singleton. reflexivity.
  - apply (proj2 (assert_same_shapes_guard (H := integer_numpy) add_impl (VNdarray 1)
                    [VNdarray 3] [2] shapes_state eq_refl) [] (VNdarray 3) [] []);
      [done|by intros ? ?%elem_of_nil|reflexivity|done].
Defined.

(** X13, witness: the zero-dimensional array [3] as second argument, and the
    array [2] of shape [(2,)]. *)
Lemma tensor_scalar_impl_guard_witness :
  tensor_scalar_impl add_impl "<slot wrapper '__add__'>" [VNdarray 1; VNdarray 3]
    shapes_state
  = add_impl [VNdarray 1; VNdarray 3] shapes_state ∧
  tensor_scalar_impl add_impl "<slot wrapper '__add__'>" [VNdarray 1; VNdarray 2]
    shapes_state
  = (Raise (ValueError
       "The second argument to <slot wrapper '__add__'> must be a scalar."),
     shapes_state).
Proof.
  destruct (tensor_scalar_impl_guard (H := integer_numpy) add_impl
              "<slot wrapper '__add__'>" shapes_state) as (Hscalar & Htensor & _).
  split.
  - exact (Hscalar (VNdarray 1) (VNdarray 3) eq_refl).
  - exact (Htensor (VNdarray 1) (VNdarray 2) [2] eq_refl ltac:(done)).
Defined.

(** ** Values and specifications of [NumpyR] *)

Section set_value_facts.
Context `{Numpy}.

(** X14. [NumpyR.set_value] keeps the specification in step with the data.
    Whenever it returns, the Result is up to date, its class and constant
    flag are as before, and no other Result and no earlier array has
    changed; after [set_value(UNCOMPUTED)] the data is the sentinel and the
    specification is the old one; after any other value the data is an
    array, the one given when that is an array of class [ndarray] and a new
    one otherwise, and the specification is [(numpy.ndarray, dtype, shape)]
    of that array. When it raises, nothing has changed. *)
Theorem NumpyR_set_value_refreshes (r : rid) (v : pyvalue) (s s' : state)
    (res : result unit) :
  NumpyR_set_value r v s = (res, s') →
  match res with
  | Ok _ =>
      let o := results s !!! r in
      let o' := results s' !!! r in
      up_to_date o' = true ∧ r_class o' = r_class o ∧ constant o' = constant o ∧
      (∀ r', r' ≠ r → results s' !! r' = results s !! r') ∧
      (∀ a, a ∈ dom (arrays s) → arrays s' !! a = arrays s !! a) ∧
      match v with
      | UNCOMPUTED => data o' = UNCOMPUTED ∧ spec o' = spec o ∧ arrays s' = arrays s
      | _ =>
          ∃ a, data o' = VNdarray a ∧
            spec o' = Some (numpy_ndarray, nd_dtype (arrays s' !!! a),
                            Some (nd_shape (arrays s' !!! a))) ∧
            match v with
            | VNdarray a0 =>
                if nd_exact (arrays s !!! a0) then a = a0 ∧ arrays s' = arrays s
                else (a ∉ dom (arrays s)) ∧
                     nd_elems (arrays s' !!! a) = nd_elems (arrays s !!! a0)
            | _ => (a ∉ dom (arrays s)) ∧ np_array v = Ok (arrays s' !!! a)
            end
      end
  | Raise _ => s' = s
  end.
Proof.
  pose proof (is_fresh (dom (arrays s))) as Hfresh.
  assert (∀ (m : gmap loc array) a c a', a' ∈ dom m → a ∉ dom m →
            <[a := c]> m !! a' = m !! a') as Hframe.
  { intros m a c a' Ha' Ha. rewrite lookup_insert_ne; [done|]. by intros <-. }
  unfold NumpyR_set_value, np_asarray, NumpyR_refresh, update_result, get_result,
    get_array, new_array, lift, modify, gets.
  unfold mbind, M_bind, mret, M_ret.
  destruct v as [|a0|n|r0|out|o]; cbn.
  - rewrite !lookup_total_insert_eq. cbn. rewrite !lookup_total_insert_eq. cbn.
    intros [= <- <-]. cbn. rewrite !insert_insert_eq, lookup_total_insert_eq. cbn.
    repeat (split; [done|]). split.
    { intros r' Hne. by rewrite lookup_insert_ne. }
    done.
  - destruct (nd_exact (arrays s !!! a0)) eqn:Hex; cbn;
      rewrite !lookup_total_insert_eq; cbn; rewrite ?lookup_total_insert_eq; cbn;
      intros [= <- <-]; cbn; rewrite !insert_insert_eq, lookup_total_insert_eq; cbn.
    + repeat (split; [done|]). split.
      { intros r' Hne. by rewrite lookup_insert_ne. }
      split; [done|]. by exists a0.
    + repeat (split; [done|]). split.
      { intros r' Hne. by rewrite lookup_insert_ne. }
      split; [intros a Ha; by apply Hframe|].
      exists (fresh (dom (arrays s))). by rewrite !lookup_total_insert_eq.
  - destruct (np_array (VNumber n)) as [c|e] eqn:Harr; cbn; [|by intros [= <- <-]].
    rewrite !lookup_total_insert_eq. cbn. rewrite ?lookup_total_insert_eq. cbn.
    intros [= <- <-]. cbn. rewrite !insert_insert_eq, !lookup_total_insert_eq. cbn.
    repeat (split; [done|]). split.
    { intros r' Hne. by rewrite lookup_insert_ne. }
    split; [intros a Ha; by apply Hframe|].
    exists (fresh (dom (arrays s))). by rewrite !lookup_total_insert_eq.
  - destruct (np_array (VResult r0)) as [c|e] eqn:Harr; cbn; [|by intros [= <- <-]].
    rewrite !lookup_total_insert_eq. cbn. rewrite ?lookup_total_insert_eq. cbn.
    intros [= <- <-]. cbn. rewrite !insert_insert_eq, !lookup_total_insert_eq. cbn.
    repeat (split; [done|]). split.
    { intros r' Hne. by rewrite lookup_insert_ne. }
    split; [intros a Ha; by apply Hframe|].
    exists (fresh (dom (arrays s))). by rewrite !lookup_total_insert_eq.
  - destruct (np_array (VOp out)) as [c|e] eqn:Harr; cbn; [|by intros [= <- <-]].
    rewrite !lookup_total_insert_eq. cbn. rewrite ?lookup_total_insert_eq. cbn.
    intros [= <- <-]. cbn. rewrite !insert_insert_eq, !lookup_total_insert_eq. cbn.
    repeat (split; [done|]). split.
    { intros r' Hne. by rewrite lookup_insert_ne. }
    split; [intros a Ha; by apply Hframe|].
    exists (fresh (dom (arrays s))). by rewrite !lookup_total_insert_eq.
  - destruct (np_array (VObject o)) as [c|e] eqn:Harr; cbn; [|by intros [= <- <-]].
    rewrite !lookup_total_insert_eq. cbn. rewrite ?lookup_total_insert_eq. cbn.
    intros [= <- <-]. cbn. rewrite !insert_insert_eq, !lookup_total_insert_eq. cbn.
    repeat (split; [done|]). split.
    { intros r' Hne. by rewrite lookup_insert_ne. }
    split; [intros a Ha; by apply Hframe|].
    exists (fresh (dom (arrays s))). by rewrite !lookup_total_insert_eq.
Qed.
End set_value_facts.

(** X14, witness: [z.set_value(x.data)] for the placeholder [z] and the tensor
    [x]. *)
Lemma NumpyR_set_value_refreshes_witness :
  data (results (NumpyR_set_value 2 (VNdarray 1) unary_state).2 !!! 2%positive)
  = VNdarray 1 ∧
  spec (results (NumpyR_set_value 2 (VNdarray 1) unary_state).2 !!! 2%positive)
  = Some (numpy_ndarray, Float64, Some [2]).
Proof.
  pose (s' := (NumpyR_set_value 2 (VNdarray 1) unary_state).2).
  assert (NumpyR_set_value 2 (VNdarray 1) unary_state = (Ok tt, s')) as Hrun
    by (vm_compute; reflexivity).
  pose proof (NumpyR_set_value_refreshes (H := integer_numpy) 2%positive (VNdarray 1)
                unary_state s' (Ok tt) Hrun) as Hset.
  cbn zeta in Hset. destruct Hset as (_ & _ & _ & _ & _ & a & Hdata & Hspec & Hsame).
  assert (nd_exact (arrays unary_state !!! 1%positive) = true) as Hex by reflexivity.
  rewrite Hex in Hsame. destruct Hsame as [-> Harr].
  fold s'. split; [exact Hdata|].
  rewrite Hspec, Harr. reflexivity.
Defined.

(** ** Specification rules of [dot] and [transpose] *)

Section matrix_spec_facts.
Context `{Numpy}.

(** X15. [dot.specs] reads the first two dimensions only. On a left operand of
    shape [(m, n, ...)] and a right operand of shape [(n', p, ...)] it
    returns [(numpy.ndarray, upcast(dx, dy), (m, p))] when [n = n'] and
    raises [AssertionError] otherwise. It has no answer for a vector: a
    left operand with fewer than two dimensions raises [IndexError], and so
    does a right operand with one dimension that matches ([AssertionError]
    when it does not match). *)
Theorem dot_specs_cases (kx ky : kind) (dx dy : dtype) :
  (∀ m n n' p restx resty,
     dot_specs (Some (kx, dx, Some (m :: n :: restx)))
               (Some (ky, dy, Some (n' :: p :: resty)))
     = if decide (n = n')
       then d ← upcast dx [dy]; Ok (numpy_ndarray, d, Some [m; p])
       else Raise AssertionError) ∧
  (∀ shx y, length shx < 2 →
     dot_specs (Some (kx, dx, Some shx)) y = Raise IndexError) ∧
  (∀ m n n' restx,
     dot_specs (Some (kx, dx, Some (m :: n :: restx))) (Some (ky, dy, Some [n']))
     = if decide (n = n') then Raise IndexError else Raise AssertionError).
Proof.
  split; [|split].
  - intros m n n' p restx resty. unfold dot_specs. cbn.
    case_decide as Hn.
    + by rewrite bool_decide_eq_true_2.
    + by rewrite bool_decide_eq_false_2.
  - intros [|m [|n shx]] y Hlen; cbn in Hlen; try lia; done.
  - intros m n n' restx. unfold dot_specs. cbn.
    case_decide as Hn.
    + by rewrite bool_decide_eq_true_2.
    + by rewrite bool_decide_eq_false_2.
Qed.

(** X16. [transpose.specs] swaps the first two dimensions, keeps the dtype and
    answers with the kind [numpy.ndarray]; it raises [IndexError] on fewer
    than two dimensions and drops any dimension after the second. Applied
    twice to the specification of a matrix, it gives that specification
    back. *)
Theorem transpose_specs_involution (k : kind) (d : dtype) :
  (∀ m n rest,
     transpose_specs (Some (k, d, Some (m :: n :: rest)))
     = Ok (numpy_ndarray, d, Some [n; m])) ∧
  (∀ shape, length shape < 2 →
     transpose_specs (Some (k, d, Some shape)) = Raise IndexError) ∧
  (∀ m n,
     (sp ← transpose_specs (Some (numpy_ndarray, d, Some [m; n]));
      transpose_specs (Some sp))
     = Ok (numpy_ndarray, d, Some [m; n])).
Proof.
  split; [done|]. split; [|done].
  intros [|m [|n shape]] Hlen; cbn in Hlen; try lia; done.
Qed.

(** X17. The two operators [dot.grad] builds for [dot(x, y)] have the shapes of
    [x] and of [y]: with [x] of shape [(m, n)], [y] of shape [(n, p)] and
    the output gradient of shape [(m, p)], the specification of
    [dot(gz, transpose(y))] has shape [(m, n)] and that of
    [dot(transpose(x), gz)] has shape [(n, p)], whenever the dtypes can be
    promoted. *)
Theorem dot_grad_specs_shapes (kx ky kg : kind) (dx dy dg d1 d2 : dtype) (m n p : nat) :
  upcast dg [dy] = Ok d1 → upcast dx [dg] = Ok d2 →
  dot_grad_specs (Some (kx, dx, Some [m; n])) (Some (ky, dy, Some [n; p]))
                 (Some (kg, dg, Some [m; p]))
  = Ok ((numpy_ndarray, d1, Some [m; n]), (numpy_ndarray, d2, Some [n; p])).
Proof.
  intros Hd1 Hd2.
  unfold dot_grad_specs, transpose_specs, dot_specs. cbn.
  rewrite !bool_decide_eq_true_2 by done. cbn.
  unfold upcast in Hd1, Hd2. cbn in Hd1, Hd2.
  destruct (np_add (np_zeros [] dg) (np_zeros [] dy)) as [z1|]; [|done].
  cbn in *. injection Hd1 as ->.
  rewrite ?bool_decide_eq_true_2 by done. cbn.
  destruct (np_add (np_zeros [] dx) (np_zeros [] dg)) as [z2|]; [|done].
  cbn in *. by injection Hd2 as ->.
Qed.
End matrix_spec_facts.

(** X17, witness: [x] of shape [(2, 3)] and dtype [Int32], [y] of shape
    [(3, 4)] and dtype [Float64]. *)
Lemma dot_grad_specs_shapes_witness :
  dot_grad_specs (Some (numpy_ndarray, Int32, Some [2; 3]))
                 (Some (numpy_ndarray, Float64, Some [3; 4]))
                 (Some (numpy_ndarray, Float64, Some [2; 4]))
  = Ok ((numpy_ndarray, Float64, Some [2; 3]), (numpy_ndarray, Float64, Some [3; 4])).
Proof.
  exact (dot_grad_specs_shapes (H := integer_numpy) numpy_ndarray numpy_ndarray
           numpy_ndarray Int32 Float64 Float64 Float64 Float64 2 3 4 eq_refl eq_refl).
Defined.

(** ** Memoised lookups *)

(** X18. [_constant(f)] calls [f] until a call returns, then answers every call
    with that first value, whatever the arguments and the state, without
    calling [f] again; a call of [f] that raises leaves nothing cached. So
    the BLAS headers are read from [OMEGA_CBLAS_H] once: the list is empty
    when the variable is unset and holds its value otherwise, and a later
    change of the environment is not seen. *)
Theorem blas_headers_read_once {S Args A} (f : Args → M S A) :
  (∀ args s v s', f args s = (Ok v, s') →
     _constant f args (s, None) = (Ok v, (s', Some v)) ∧
     ∀ args2 s2, _constant f args2 (s2, Some v) = (Ok v, (s2, Some v))) ∧
  (∀ args s e s', f args s = (Raise e, s') →
     _constant f args (s, None) = (Raise e, (s', None))) ∧
  (∀ env1 env2 : environ,
     let headers := match env1 !! "OMEGA_CBLAS_H" with
                    | None => []
                    | Some header => [header]
                    end in
     _constant _blas_headers tt (env1, None) = (Ok headers, (env1, Some headers)) ∧
     _constant _blas_headers tt (env2, Some headers)
     = (Ok headers, (env2, Some headers))).
Proof.
  split; [|split].
  - intros args s v s' Hf. unfold _constant. cbn. by rewrite Hf.
  - intros args s e s' Hf. unfold _constant. cbn. by rewrite Hf.
  - intros env1 env2. cbn zeta. unfold _constant, _blas_headers. cbn.
    unfold mbind, M_bind, gets. cbn. by destruct (env1 !! "OMEGA_CBLAS_H").
Qed.

(** ** Numbers as inputs *)

(** X19. [input] turns every number, integer or not, into a new [NumpyR] that
    holds a new zero-dimensional array of dtype [float64], up to date and
    not constant, with the specification [(numpy.ndarray, float64, ())]:
    the number is added in place to [numpy.zeros((), 'float64')], and
    adding in place keeps the dtype and the shape of the array. *)
Theorem input_number_is_float64_scalar `{Numpy} (n : pynumber) (s : state) :
  (∀ c m c', np_iadd_number c m = Ok c' →
     nd_dtype c' = nd_dtype c ∧ nd_shape c' = nd_shape c ∧ nd_exact c' = nd_exact c) →
  ∀ c', np_iadd_number (np_zeros [] float64) n = Ok c' →
  ∃ r a s',
    input (VNumber n) s = (Ok r, s') ∧
    (r ∉ dom (results s)) ∧ (a ∉ dom (arrays s)) ∧
    results s' !! r
    = Some {| r_class := NumpyR; data := VNdarray a;
              spec := Some (numpy_ndarray, float64, Some []);
              constant := false; up_to_date := true |} ∧
    arrays s' !! a = Some c'.
Proof.
  intros Hkeep c' Hadd. cbn [input].
  destruct (Hkeep _ _ _ Hadd) as (Hd & Hs & Hex). cbn in Hd, Hs, Hex.
  unfold NumpyR_new, new_result, NumpyR_set_value, np_asarray, NumpyR_refresh,
    update_result, get_result, get_array, set_array, new_array, lift, modify, gets.
  unfold mbind, M_bind, mret, M_ret. cbn.
  rewrite !lookup_total_insert_eq, Hadd. cbn.
  repeat (rewrite ?lookup_total_insert_eq, ?insert_insert_eq, ?Hex, ?Hd, ?Hs; cbn).
  eexists _, _, _. split; [done|]. cbn.
  split; [apply is_fresh|]. split; [apply is_fresh|].
  by rewrite !lookup_insert_eq.
Qed.

(** X19, witness: [input(3)] in the empty state. *)
Lemma input_number_is_float64_scalar_witness :
  ∃ r a s',
    input (VNumber (PyInt 3)) empty_state = (Ok r, s') ∧
    results s' !! r
    = Some {| r_class := NumpyR; data := VNdarray a;
              spec := Some (numpy_ndarray, Float64, Some []);
              constant := false; up_to_date := true |} ∧
    nd_elems (arrays s' !!! a) = [3%Z].
Proof.
  destruct (input_number_is_float64_scalar (H := integer_numpy) (PyInt 3) empty_state)
    with (c' := {| nd_exact := true; nd_dtype := Float64; nd_shape := [];
                   nd_elems := [3%Z] |})
    as (r & a & s' & Hrun & _ & _ & Hres & Harr).
  - intros c [z|b] c'; cbn; [|done]. by intros [= <-].
  - reflexivity.
  - exists r, a, s'. split; [exact Hrun|]. split; [exact Hres|].
    unfold lookup_total, map_lookup_total. by rewrite Harr.
Defined.

(** ** Destroy maps of classes derived from in-place classes *)

Lemma inplace_destroy_map_from (cls : elemwise) (dmap : gmap nat nat)
    (m0 : gmap rid (list rid)) :
  NoDup (outputs cls) →
  (∀ o i, dmap !! o = Some i → o < length (outputs cls) ∧ i < length (inputs cls)) →
  ∃ m,
    foldl (λ ret p,
             ret ← ret;
             output ← list_getitem (outputs cls) p.1;
             input ← list_getitem (inputs cls) p.2;
             Ok (<[output := [input]]> ret))
          (Ok m0) (map_to_list dmap) = Ok m ∧
    (∀ o i out inp, dmap !! o = Some i → outputs cls !! o = Some out →
       inputs cls !! i = Some inp → m !! out = Some [inp]) ∧
    (∀ out, (∀ o, outputs cls !! o = Some out → dmap !! o = None) →
       m !! out = m0 !! out).
Proof.
  intros Hnd Hrange.
  pose proof (NoDup_fst_map_to_list dmap) as Hkeys.
  destruct (foldl_result_inv
    (λ ret p,
       ret ← ret;
       output ← list_getitem (outputs cls) p.1;
       input ← list_getitem (inputs cls) p.2;
       Ok (<[output := [input]]> ret))
    (λ pre (m : gmap rid (list rid)),
       (∀ o i out inp, (o, i) ∈ pre → outputs cls !! o = Some out →
          inputs cls !! i = Some inp → m !! out = Some [inp]) ∧
       (∀ out, (∀ o, outputs cls !! o = Some out → o ∉ pre.*1) →
          m !! out = m0 !! out))
    (map_to_list dmap)) with (a0 := m0) as (m & Hm & Hset & Hkeep).
  - intros pre [o i] post m Hl [Hset Hkeep].
    assert (dmap !! o = Some i) as Hentry.
    { apply elem_of_map_to_list. rewrite Hl. set_solver. }
    destruct (Hrange o i Hentry) as [Ho Hi].
    destruct (lookup_lt_is_Some_2 _ _ Ho) as [out Hout].
    destruct (lookup_lt_is_Some_2 _ _ Hi) as [inp Hinp].
    exists (<[out := [inp]]> m). split.
    { cbn. unfold list_getitem. by rewrite Hout, Hinp. }
    assert (o ∉ pre.*1) as Hnew.
    { rewrite Hl, fmap_app in Hkeys. apply NoDup_app in Hkeys as (_ & Hdis & _).
      intros Hc. apply (Hdis o Hc). cbn. set_solver. }
    split.
    + intros o' i' out' inp' Hin Hout' Hinp'.
      apply elem_of_app in Hin as [Hin|[= -> ->]%list_elem_of_singleton].
      * rewrite lookup_insert_ne; [by eapply Hset|].
        intros <-. apply Hnew.
        assert (o' = o) as <- by by apply (NoDup_lookup _ _ _ _ Hnd Hout' Hout).
        apply list_elem_of_fmap. by exists (o', i').
      * assert (out' = out) as -> by congruence.
        assert (inp' = inp) as -> by congruence.
        by rewrite lookup_insert_eq.
    + intros out' Hnone. rewrite lookup_insert_ne.
      * apply Hkeep. intros o' Ho'. specialize (Hnone o' Ho').
        rewrite fmap_app in Hnone. set_solver.
      * intros <-. apply (Hnone o Hout). rewrite fmap_app. set_solver.
  - split; [by intros ???? ?%elem_of_nil|done].
  - exists m. split; [done|]. split.
    + intros o i out inp Hentry. apply Hset. by apply elem_of_map_to_list.
    + intros out Hnone. apply Hkeep. intros o Ho Hin.
      apply elem_of_map_to_list_fst in Hin as [i Hi].
      specialize (Hnone o Ho). congruence.
Qed.

(** X20. The destroy map of a class derived by [inplace_version] starts from
    the destroy map of the base class when that class is itself in place,
    and from the empty map otherwise. With distinct outputs and every
    position of the aliasing map in range, each entry [o: i] of the
    aliasing map sends output [o] to input [i] alone, replacing what the
    base map had for that output, and every output the aliasing map does
    not mention keeps the entry of the base map. If the base [destroy_map]
    raises, so does the derived one. *)
Theorem inplace_destroy_map_overrides (cls : elemwise) (dmap : gmap nat nat) :
  (∀ m0, (if is_inplace cls then destroy_map cls else Ok ∅) = Ok m0 →
     NoDup (outputs cls) →
     (∀ o i, dmap !! o = Some i → o < length (outputs cls) ∧ i < length (inputs cls)) →
     ∃ m, inplace_destroy_map cls dmap = Ok m ∧
       (∀ o i out inp, dmap !! o = Some i → outputs cls !! o = Some out →
          inputs cls !! i = Some inp → m !! out = Some [inp]) ∧
       (∀ out, (∀ o, outputs cls !! o = Some out → dmap !! o = None) →
          m !! out = m0 !! out)) ∧
  (∀ e, is_inplace cls = true → destroy_map cls = Raise e →
     inplace_destroy_map cls dmap = Raise e).
Proof.
  split.
  - intros m0 Hbase Hnd Hrange. unfold inplace_destroy_map. rewrite Hbase.
    cbn [mbind result_bind]. by apply inplace_destroy_map_from.
  - intros e Hin Hraise. unfold inplace_destroy_map. by rewrite Hin, Hraise.
Qed.

(** X20, witness: [add_elemwise_inplace(x, y)], whose output [3] destroys
    the input [1], derived again with the map [{0: 1}]. *)
Lemma inplace_destroy_map_overrides_witness :
  inplace_destroy_map add_elemwise_inplace_x_y {[ 0 := 1 ]}
  = Ok {[ 3%positive := [2%positive] ]}.
Proof.
  destruct (proj1 (inplace_destroy_map_overrides add_elemwise_inplace_x_y {[ 0 := 1 ]})
              {[ 3%positive := [1%positive] ]} eq_refl) as (m & Hm & Hset & Hkeep).
  { apply (bool_decide_unpack _). by vm_compute. }
  { intros o i [<- <-]%lookup_singleton_Some. cbn. lia. }
  rewrite Hm. f_equal. apply map_eq. intros out.
  destruct (decide (out = 3%positive)) as [->|Hne].
  - rewrite lookup_singleton_eq.
    exact (Hset 0 1 3%positive 2%positive (lookup_singleton_eq _ _) eq_refl eq_refl).
  - rewrite lookup_singleton_ne by done. rewrite Hkeep.
    + by apply lookup_singleton_ne.
    + intros [|o]; cbn; [by intros [= <-]|done].
Defined.

(** ** Specifications after allocation *)

Section alloc_specs.
Context `{Numpy}.
Variable PythonOp_alloc : omega_op → list rid → M state unit.
Variable PythonR_set_value : rid → pyvalue → M state unit.

Lemma NumpyR_set_value_exact (r : rid) (a : loc) (s : state) :
  nd_exact (arrays s !!! a) = true →
  NumpyR_set_value r (VNdarray a) s
  = (Ok tt,
     {| results :=
          <[r := {| r_class := r_class (results s !!! r); data := VNdarray a;
                    spec := Some (numpy_ndarray, nd_dtype (arrays s !!! a),
                                  Some (nd_shape (arrays s !!! a)));
                    constant := constant (results s !!! r);
                    up_to_date := true |}]> (results s);
        arrays := arrays s;
        literals_db := literals_db s;
        literals_id_db := literals_id_db s |}).
Proof.
  intros Hex.
  unfold NumpyR_set_value, np_asarray, NumpyR_refresh, update_result, get_result,
    get_array, modify, gets.
  unfold mbind, M_bind, mret, M_ret. cbn. rewrite Hex. cbn.
  rewrite !lookup_total_insert_eq. cbn. rewrite !lookup_total_insert_eq. cbn.
  by rewrite !insert_insert_eq.
Qed.

(** X21. After [elemwise.alloc], a destroyed output that is not excepted and
    whose input holds an array has the specification of that input, and is
    up to date: [set_value] refreshes the specification from the shared
    array, which gives what [_specs] assigns to a destroyed output, the
    spec of the input it destroys, provided that spec agrees with the
    array the input holds. No array is created or changed, and no Result
    other than the destroyed outputs is touched by the loop. *)
Theorem elemwise_alloc_sets_spec (op : elemwise) (except_list : list rid)
    (dmap : gmap rid (list rid)) (s s0 : state) :
  (if is_inplace op then destroy_map op else Ok ∅) = Ok dmap →
  PythonOp_alloc op (except_list ++ (map_to_list dmap).*1) s = (Ok tt, s0) →
  alloc_ready s0 dmap →
  (∀ out inp, dmap !! out = Some [inp] → spec_in_step s0 inp) →
  ∃ s1,
    elemwise_alloc PythonOp_alloc PythonR_set_value op except_list s = (Ok tt, s1) ∧
    arrays s1 = arrays s0 ∧
    (∀ r, dmap !! r = None → results s1 !! r = results s0 !! r) ∧
    (∀ out inp a, dmap !! out = Some [inp] → out ∉ except_list →
       data (results s0 !!! inp) = VNdarray a →
       data (results s1 !!! out) = VNdarray a ∧
       spec (results s1 !!! out) = spec (results s1 !!! inp) ∧
       up_to_date (results s1 !!! out) = true ∧
       spec_in_step s1 out).
Proof.
  intros Hdmap Halloc Hready Hstep.
  unfold elemwise_alloc. rewrite Hdmap.
  rewrite (bind_Ok (lift (Ok dmap)) _ s s dmap eq_refl).
  rewrite (bind_Ok _ _ _ _ _ Halloc).
  pose proof (NoDup_fst_map_to_list dmap) as Hnd.
  destruct (for_each_inv (alloc_output PythonR_set_value except_list)
    (λ pre s,
       arrays s = arrays s0 ∧
       (∀ r, r ∉ pre.*1 → results s !! r = results s0 !! r) ∧
       (∀ out inp a, (out, [inp]) ∈ pre → out ∉ except_list →
          data (results s0 !!! inp) = VNdarray a →
          results s !!! out
          = {| r_class := r_class (results s0 !!! out); data := VNdarray a;
               spec := Some (numpy_ndarray, nd_dtype (arrays s0 !!! a),
                             Some (nd_shape (arrays s0 !!! a)));
               constant := constant (results s0 !!! out);
               up_to_date := true |}))
    (map_to_list dmap)) with (s0 := s0) as (s1 & Hrun & Harr & Hout & Hdone).
  - intros pre [out ins] post s' Hl (Harr & Hout & Hdone).
    assert (dmap !! out = Some ins) as Hentry.
    { apply elem_of_map_to_list. rewrite Hl. set_solver. }
    destruct (Hready out ins Hentry) as (input & -> & Hnumpy & Hin & Hplain).
    assert (out ∉ pre.*1) as Hfresh.
    { rewrite Hl, fmap_app in Hnd. apply NoDup_app in Hnd as (_ & Hdis & _).
      intros Hc. apply (Hdis out Hc). cbn. set_solver. }
    assert (input ∉ pre.*1) as Hinfresh.
    { intros Hc. assert (input ∈ (map_to_list dmap).*1) as Hc'.
      { rewrite Hl, fmap_app. set_solver. }
      apply elem_of_map_to_list_fst in Hc' as [? ?]. congruence. }
    assert (results s' !!! input = results s0 !!! input) as Hsame
      by by apply lookup_total_eq, Hout.
    assert (results s' !!! out = results s0 !!! out) as Hsameout
      by by apply lookup_total_eq, Hout.
    unfold alloc_output. cbn [fst snd]. case_bool_decide as Hex.
    + exists s'. split; [done|]. split; [done|]. split.
      * intros r Hr. apply Hout. rewrite fmap_app in Hr. set_solver.
      * intros out' inp' a. rewrite elem_of_app, list_elem_of_singleton.
        intros [Hpre|[= -> ->]] Hne Hdata; [by apply (Hdone out' inp' a)|done].
    + rewrite (bind_Ok (get_result input) _ s' s' _ eq_refl).
      unfold set_value. rewrite (bind_Ok (get_result out) _ s' s' _ eq_refl).
      rewrite Hsameout, Hnumpy, Hsame.
      destruct Hplain as [Hunc|(a & Ha & Hexact)].
      * destruct (NumpyR_set_value_plain out UNCOMPUTED s' (or_introl eq_refl))
          as (o' & s'' & Hset & Hres & Harr' & Hd & Hc).
        rewrite Hunc, Hset. exists s''. split; [done|]. split; [congruence|].
        split.
        -- intros r Hr. rewrite fmap_app in Hr. rewrite Hres, lookup_insert_ne.
           ++ apply Hout. set_solver.
           ++ intros <-. set_solver.
        -- intros out' inp' a. rewrite elem_of_app, list_elem_of_singleton.
           intros [Hpre|[= -> ->]] Hne Hdata; [|congruence].
           rewrite Hres, lookup_total_insert_ne; [by apply (Hdone out' inp' a)|].
           intros <-. apply Hfresh. apply list_elem_of_fmap.
           by exists (out, [inp']).
      * rewrite Ha, NumpyR_set_value_exact by (by rewrite Harr).
        eexists. split; [done|]. cbn [arrays results]. split; [done|]. split.
        -- intros r Hr. rewrite fmap_app in Hr. rewrite lookup_insert_ne.
           ++ apply Hout. set_solver.
           ++ intros <-. set_solver.
        -- intros out' inp' a'. rewrite elem_of_app, list_elem_of_singleton.
           intros [Hpre|[= -> ->]] Hne Hdata.
           ++ rewrite lookup_total_insert_ne; [by apply (Hdone out' inp' a')|].
              intros <-. apply Hfresh. apply list_elem_of_fmap.
              by exists (out, [inp']).
           ++ rewrite lookup_total_insert_eq, Hsameout, Harr.
              assert (a' = a) as -> by congruence. done.
  - split; [done|]. split; [done|]. by intros ??? ?%elem_of_nil.
  - exists s1. split; [done|]. split; [done|]. split.
    + intros r Hr. apply Hout. intros [? ?]%elem_of_map_to_list_fst. congruence.
    + intros out inp a Hentry Hne Hdata.
      rewrite (Hdone out inp a) by (done || by apply elem_of_map_to_list).
      cbn. split; [done|].
      destruct (Hready out [inp] Hentry) as (input & [= <-] & _ & Hin & _).
      rewrite (lookup_total_eq _ _ _ (Hout inp ltac:(
        intros [? ?]%elem_of_map_to_list_fst; congruence))).
      rewrite (Hstep out inp Hentry a Hdata).
      split; [done|]. split; [done|].
      intros a' Ha'. rewrite (Hdone out inp a) in Ha' |- *
        by (done || by apply elem_of_map_to_list).
      cbn in Ha' |- *. injection Ha' as <-. by rewrite Harr.
Qed.
End alloc_specs.

(** X21, witness: [twice_inplace(x)]; after [alloc] the output [2] has the
    specification of [x]. *)
Lemma elemwise_alloc_sets_spec_witness :
  ∃ s1, elemwise_alloc no_alloc store_value twice_inplace_x [] unary_state = (Ok tt, s1) ∧
    spec (results s1 !!! 2%positive) = Some (numpy_ndarray, Float64, Some [2]) ∧
    up_to_date (results s1 !!! 2%positive) = true.
Proof.
  assert (destroy_map twice_inplace_x = Ok {[ 2%positive := [1%positive] ]}) as Hdm
    by by vm_compute.
  destruct (elemwise_alloc_sets_spec (H := integer_numpy) no_alloc store_value
              twice_inplace_x [] {[ 2%positive := [1%positive] ]} unary_state unary_state
              Hdm eq_refl) as (s1 & Hrun & _ & Hkeep & Hspec).
  - intros out ins [<- <-]%lookup_singleton_Some. exists 1%positive.
    split; [done|]. split; [by vm_compute|]. split; [by vm_compute|].
    right. exists 1%positive. split; by vm_compute.
  - intros out inp [<- [= <-]]%lookup_singleton_Some a Ha.
    assert (a = 1%positive) as -> by (vm_compute in Ha; by injection Ha as <-).
    by vm_compute.
  - exists s1. split; [exact Hrun|].
    destruct (Hspec 2%positive 1%positive 1%positive (lookup_singleton_eq _ _)
                ltac:(apply not_elem_of_nil) eq_refl) as (_ & Hsp & Hup & _).
    split; [|exact Hup]. rewrite Hsp.
    rewrite (lookup_total_eq _ _ _ (Hkeep 1%positive ltac:(by vm_compute))).
    reflexivity.
Defined.

(** ** Wrapping twice *)

Section wrap_twice.
Context `{Numpy}.

(** X22. [wrap] is idempotent on raw values and Results: when every Result
    registered in the two literal tables is a [NumpyR] or a [PythonR] (as
    all those [literal] registers are) and [wrap(x)] returns for an [x]
    that is not an operator, wrapping what it returned gives the same
    Result back and changes nothing, so [wrap(wrap(x))] is [wrap(x)]. *)
Theorem wrap_idempotent (x : pyvalue) (s s1 : state) (r : rid) :
  (∀ k r', literals_db s !! k = Some r' → r_class (results s !!! r') ≠ ForeignResult) →
  (∀ k r', literals_id_db s !! k = Some r' → r_class (results s !!! r') ≠ ForeignResult) →
  (∀ out, x ≠ VOp out) →
  wrap x s = (Ok r, s1) →
  r_class (results s1 !!! r) ≠ ForeignResult ∧
  wrap (VResult r) s1 = (Ok r, s1).
Proof.
  intros Hdb Hid Hop Hrun.
  assert (r_class (results s1 !!! r) ≠ ForeignResult →
          r_class (results s1 !!! r) ≠ ForeignResult ∧
          wrap (VResult r) s1 = (Ok r, s1)) as Hdone.
  { intros Hcls. split; [done|]. apply wrap_result.
    destruct (r_class (results s1 !!! r)); [by left|by right|done]. }
  apply Hdone.
  assert (∀ y, literal y s = (Ok r, s1) →
            r_class (results s1 !!! r) ≠ ForeignResult) as Hliteral.
  { intros y. rewrite literal_run. unfold literal_entry.
    destruct (py_key y) as [k|] eqn:Hk.
    - destruct (literals_db s !! k) as [r'|] eqn:Hentry.
      + intros [= <- <-]. by eapply Hdb.
      + destruct (input y s) as [[r'|e] s'] eqn:Hin; [|done].
        intros [= <- <-]. unfold registered. cbn. rewrite lookup_total_insert_eq.
        apply input_Ok in Hin as (_ & _ & _ & _ & o & Ho & _ & Hcls).
        unfold lookup_total, map_lookup_total. rewrite Ho. cbn.
        assert (r_class o ≠ ForeignResult) as Hc; [|done].
        destruct y; cbn in Hcls; try done;
          repeat match type of Hcls with _ ∧ _ => destruct Hcls as [Hcls _] end;
          by rewrite Hcls.
    - destruct (literals_id_db s !! py_id y) as [r'|] eqn:Hentry.
      + intros [= <- <-]. by eapply Hid.
      + destruct (input y s) as [[r'|e] s'] eqn:Hin; [|done].
        intros [= <- <-]. unfold registered. cbn. rewrite lookup_total_insert_eq.
        apply input_Ok in Hin as (_ & _ & _ & _ & o & Ho & _ & Hcls).
        unfold lookup_total, map_lookup_total. rewrite Ho. cbn.
        assert (r_class o ≠ ForeignResult) as Hc; [|done].
        destruct y; cbn in Hcls; try done;
          repeat match type of Hcls with _ ∧ _ => destruct Hcls as [Hcls _] end;
          by rewrite Hcls. }
  destruct x as [|z|n|r0|out|o]; cbn [wrap] in Hrun; try by eapply Hliteral.
  - rewrite (bind_Ok (get_result r0) _ s s _ eq_refl) in Hrun.
    destruct (r_class (results s !!! r0)) eqn:Hcls.
    + injection Hrun as <- <-. by rewrite Hcls.
    + injection Hrun as <- <-. by rewrite Hcls.
    + by eapply Hliteral.
  - by destruct (Hop out).
Qed.
End wrap_twice.

(** X22, witness: [wrap(5)] next to a tensor, and [wrap] of the Result it
    returned. *)
Lemma wrap_idempotent_witness :
  wrap (VResult 2) (wrap (VNumber (PyInt 5)) tensor_state).2
  = (Ok 2%positive, (wrap (VNumber (PyInt 5)) tensor_state).2).
Proof.
  pose (s1 := (wrap (VNumber (PyInt 5)) tensor_state).2).
  assert (wrap (VNumber (PyInt 5)) tensor_state = (Ok 2%positive, s1)) as Hrun
    by (vm_compute; reflexivity).
  refine (proj2 (wrap_idempotent (H := integer_numpy) (VNumber (PyInt 5)) tensor_state
                   s1 2%positive _ _ _ Hrun)).
  - intros k r' Hk. cbn in Hk. by rewrite lookup_empty in Hk.
  - intros k r' Hk. cbn in Hk. by rewrite lookup_empty in Hk.
  - done.
Defined.
